(** * MD&A ETL: filing discovery, identifier filtering and selection

    A shallow embedding of [src/core/zip_processor.py],
    [src/utils/cik_filter.py] and [src/utils/cik_loader.py].

    Python [str] values are modelled as [string] (8-bit characters): file
    names and identifier fields are taken to be ASCII, where the regular
    expression class [\d] and [str.isdigit] both mean the characters
    ['0'..'9'].  Counters are [nat]; fiscal years are [Z]. *)

From Stdlib Require Import List String Ascii Bool Arith ZArith Lia Permutation.
From Stdlib Require Import Sorted NArith.
Import ListNotations.
Open Scope string_scope.

(* ================================================================== *)
(** * Python string primitives *)
(* ================================================================== *)

Module PyStr.

(** [c.isdigit()] / the class [\d] on an ASCII character. *)
Definition is_digit (c : ascii) : bool :=
  (48 <=? nat_of_ascii c)%nat && (nat_of_ascii c <=? 57)%nat.

(** [c.upper()] on an ASCII character. *)
Definition upper_char (c : ascii) : ascii :=
  let n := nat_of_ascii c in
  if (97 <=? n)%nat && (n <=? 122)%nat then ascii_of_nat (n - 32) else c.

(** [s.upper()]. *)
Fixpoint upper (s : string) : string :=
  match s with
  | EmptyString => EmptyString
  | String c s' => String (upper_char c) (upper s')
  end.

(** [s.startswith(p)]. *)
Fixpoint startswith (s p : string) {struct p} : bool :=
  match p, s with
  | EmptyString, _ => true
  | String a p', String b s' => Ascii.eqb a b && startswith s' p'
  | String _ _, EmptyString => false
  end.

(** [sub in s]. *)
Fixpoint contains (s sub : string) : bool :=
  startswith s sub ||
  match s with
  | EmptyString => false
  | String _ s' => contains s' sub
  end.

(** [s.endswith(ext)]: [ext] starts at offset [len(s) - len(ext)]. *)
Definition endswith (s ext : string) : bool :=
  (String.length ext <=? String.length s)%nat &&
  String.eqb (substring (String.length s - String.length ext) (String.length ext) s) ext.

(** [''.join(filter(p, s))]. *)
Fixpoint str_filter (p : ascii -> bool) (s : string) : string :=
  match s with
  | EmptyString => EmptyString
  | String c s' => if p c then String c (str_filter p s') else str_filter p s'
  end.

Fixpoint str_forallb (p : ascii -> bool) (s : string) : bool :=
  match s with
  | EmptyString => true
  | String c s' => p c && str_forallb p s'
  end.

(** ["0" * n]. *)
Fixpoint zeros (n : nat) : string :=
  match n with
  | O => EmptyString
  | S n' => String "0" (zeros n')
  end.

(** [s.zfill(width)]: left padding with ['0']; a leading sign stays in
    front of the padding. *)
Definition zfill (width : nat) (s : string) : string :=
  let pad := zeros (width - String.length s) in
  match s with
  | String c rest =>
      if Ascii.eqb c "+" || Ascii.eqb c "-" then String c (pad ++ rest)
      else pad ++ s
  | EmptyString => pad
  end.

(** ASCII white space as [str.strip()] sees it. *)
Definition is_space (c : ascii) : bool :=
  let n := nat_of_ascii c in
  ((9 <=? n)%nat && (n <=? 13)%nat) || ((28 <=? n)%nat && (n <=? 32)%nat).

Fixpoint lstrip (s : string) : string :=
  match s with
  | String c s' => if is_space c then lstrip s' else s
  | EmptyString => EmptyString
  end.

(** Drops trailing white space: a character is kept when it is not a
    space or when something is kept after it. *)
Fixpoint rstrip (s : string) : string :=
  match s with
  | EmptyString => EmptyString
  | String c s' =>
      match rstrip s' with
      | EmptyString => if is_space c then EmptyString else String c EmptyString
      | r => String c r
      end
  end.

(** [s.strip()]. *)
Definition strip (s : string) : string := rstrip (lstrip s).

(** Truthiness of a [str]: non-empty. *)
Definition truthy (s : string) : bool :=
  match s with EmptyString => false | _ => true end.

Definition all_digits (s : string) : Prop := str_forallb is_digit s = true.

Definition starts_with_digit (s : string) : bool :=
  match s with
  | String c _ => is_digit c
  | EmptyString => false
  end.

End PyStr.
Import PyStr.

(* ================================================================== *)
(** * The two regular-expression searches of [_extract_cik_from_name] *)
(* ================================================================== *)

Module Regex.

(** Both patterns of the source have the shape [lit(\d{lo,hi})]: a
    literal followed by one captured, greedy, bounded run of digits
    ([lit] is empty for the bare pattern).  [take_digits hi s] is the
    greedy run: the longest prefix of [s] made of digits, cut at [hi]. *)
Fixpoint take_digits (hi : nat) (s : string) : string :=
  match hi, s with
  | S n, String c s' => if is_digit c then String c (take_digits n s') else EmptyString
  | _, _ => EmptyString
  end.

Fixpoint strip_literal (lit s : string) : option string :=
  match lit, s with
  | EmptyString, _ => Some s
  | String a lit', String b s' => if Ascii.eqb a b then strip_literal lit' s' else None
  | String _ _, EmptyString => None
  end.

(** The pattern anchored at the start of [s]; the result is [group(1)]. *)
Definition match_at (lit : string) (lo hi : nat) (s : string) : option string :=
  match strip_literal lit s with
  | Some rest =>
      let ds := take_digits hi rest in
      if (lo <=? String.length ds)%nat then Some ds else None
  | None => None
  end.

(** [re.search]: the leftmost offset at which the pattern matches. *)
Fixpoint search (lit : string) (lo hi : nat) (s : string) : option string :=
  match match_at lit lo hi s with
  | Some ds => Some ds
  | None =>
      match s with
      | EmptyString => None
      | String _ s' => search lit lo hi s'
      end
  end.

End Regex.

(** [ZipProcessor._extract_cik_from_name]. *)
Definition _extract_cik_from_name (filename : string) : option string :=
  match Regex.search "edgar_data_" 1 10 filename with
  | Some g => Some (zfill 10 g)
  | None =>
      match Regex.search "" 4 10 filename with
      | Some g => Some (zfill 10 g)
      | None => None
      end
  end.

(** [ZipProcessor._is_10k]. *)
Definition _is_10k (filename : string) : bool :=
  contains (upper filename) "10-K" || contains (upper filename) "10K".


(* ================================================================== *)
(** * Sets of strings and paths *)
(* ================================================================== *)

(** A Python [set] of strings, or the keys of a [dict], is a list read
    up to membership; [set_add] is [s.add(x)]. *)
Definition set_mem (x : string) (s : list string) : bool :=
  existsb (String.eqb x) s.

Definition set_add (x : string) (s : list string) : list string :=
  if set_mem x s then s else s ++ [x].

(** [list(dict.fromkeys(l))]: the first occurrence of every element, in
    order.  It also stands for [set(l)], whose iteration order Python
    leaves open. *)
Fixpoint dedupe (l : list string) : list string :=
  match l with
  | [] => []
  | x :: xs => x :: filter (fun y => negb (String.eqb y x)) (dedupe xs)
  end.

(** [sorted(l)] on paths of one directory: insertion sort by code point. *)
Fixpoint insert_sorted (x : string) (l : list string) : list string :=
  match l with
  | [] => [x]
  | y :: l' => if String.leb x y then x :: l else y :: insert_sorted x l'
  end.

Definition sorted (l : list string) : list string :=
  fold_right insert_sorted [] l.

(** A [pathlib.Path] is its string.  Names are taken to be normalised
    POSIX paths (no [.], [..] or doubled separators). *)
Definition Path := string.

(** [Path(dir) / name]: an absolute [name] replaces [dir]. *)
Definition path_join (dir : Path) (name : string) : Path :=
  if startswith name "/" then name else dir ++ "/" ++ name.

(** [fp.name]: the final component. *)
Fixpoint path_name (fp : Path) : string :=
  match fp with
  | EmptyString => EmptyString
  | String c rest =>
      if contains rest "/" then path_name rest
      else if Ascii.eqb c "/" then rest else fp
  end.

(* ================================================================== *)
(** * [src/utils/cik_filter.py] and [src/utils/cik_loader.py] *)
(* ================================================================== *)

(** A CSV source is what [csv.reader] yields: rows of fields ([[]] for
    an empty line); [None] is a path that does not exist. *)
Definition Row := list string.

Module CikFilter.

(** The body of [for row in reader]. *)
Definition add_row (ciks : list string) (row : Row) : list string :=
  match row with
  | [] => ciks
  | field :: _ =>
      let cik := strip field in
      if truthy cik then
        let cik_digits := str_filter is_digit cik in
        if truthy cik_digits then set_add (zfill 10 cik_digits) ciks else ciks
      else ciks
  end.

Definition load_cik_list (path : option (list Row)) : list string :=
  match path with
  | None => []
  | Some reader => fold_left add_row reader []
  end.

(** [directory.glob('*.csv')] gives the CSV files of the directory. *)
Definition load_ciks_from_directory (directory : option (list (list Row))) : list string :=
  match directory with
  | None => []
  | Some csv_paths =>
      fold_left (fun all_ciks csv => fold_left (fun acc x => set_add x acc)
                                               (load_cik_list (Some csv)) all_ciks)
                csv_paths []
  end.

End CikFilter.

Module CikLoader.

Definition add_row (ciks : list string) (row : Row) : list string :=
  match row with
  | [] => ciks
  | field :: _ =>
      let cik := strip field in
      if truthy cik then set_add (zfill 10 cik) ciks else ciks
  end.

Definition load_cik_list (csv_path : option (list Row)) : list string :=
  match csv_path with
  | None => []
  | Some reader => fold_left add_row reader []
  end.

End CikLoader.

(* ================================================================== *)
(** * Collaborators of [ZipProcessor] *)
(* ================================================================== *)

(** [config.settings]. *)
Record Settings := {
  VALID_EXTENSIONS : list string;
  ZIP_EXTENSIONS : list string
}.

(** What [zipfile.ZipFile(zip_path, 'r')] followed by [zf.namelist()]
    does. *)
Inductive ZipOpen :=
| BadZipFile (msg : string)
| OtherError (msg : string)
| Opened (namelist : list string).

(** What a guarded call does: it returns a value read for its truth, or
    raises an exception with message [str(e)]. *)
Inductive Outcome :=
| Returned (result : bool)
| Raised (e : string).

(** The file system and the content extractor, as the run sees them. *)
Record World := {
  (** [zipfile.ZipFile(zip_path)] and [namelist()] *)
  open_zip : Path -> ZipOpen;
  (** [zf.extract(member, dest)]: [Some e] when it raises *)
  zf_extract : Path -> string -> option string;
  (** [MDNAExtractor.extract_from_file(path, reference_resolver)]; the
      resolver is the directory it was built from *)
  extract_from_file : Path -> option Path -> Outcome;
  (** the [n]-th [tempfile.mkdtemp()] of a run *)
  mkdtemp : nat -> Path;
  (** the [tempfile.TemporaryDirectory()] used for an archive *)
  temporary_directory : Path -> Path
}.

(** A directory: its path and the names of its entries, in listing order. *)
Record Directory := {
  dir_path : Path;
  dir_names : list string
}.

(** [input_dir.glob("*" + ext)]. *)
Definition glob (d : Directory) (ext : string) : list Path :=
  map (path_join (dir_path d)) (filter (fun n => endswith n ext) (dir_names d)).

(** [selection = fm._select_filings_to_process()]: the lists under the
    keys ["process"] and ["skip"]. *)
Record Selection := {
  process : list Path;
  skip : list Path
}.

(** The three methods of [src.core.filing_manager.FilingManager] that
    [ZipProcessor] calls.  The class itself is not among the sources:
    the orchestration code below is embedded against this interface. *)
Class FilingManager := {
  fm_state : Type;
  (** [FilingManager()] *)
  fm_new : fm_state;
  (** [(cik, year, form_type)] *)
  _parse_filename_metadata : Path -> option string * option Z * option string;
  add_filing : fm_state -> Path -> string -> Z -> string -> fm_state;
  _select_filings_to_process : fm_state -> Selection
}.

(** Truthiness of an optional string and of an optional integer. *)
Definition truthy_opt (o : option string) : bool :=
  match o with Some s => truthy s | None => false end.

Definition truthy_year (o : option Z) : bool :=
  match o with Some y => negb (Z.eqb y 0) | None => false end.

(** [cik and cik in cik_filter]. *)
Definition cik_in (cik : option string) (cik_filter : list string) : bool :=
  match cik with Some c => truthy c && set_mem c cik_filter | None => false end.

(** [form_type.startswith(p)] when [form_type] is truthy. *)
Definition form_startswith (form_type : option string) (p : string) : bool :=
  match form_type with Some ft => truthy ft && startswith ft p | None => false end.

Module ZipStat.
Record ErrorEntry := { file : string; error : string }.
(** The [stats] dictionary of [process_zip_file]. *)
Record t := {
  zip_file : string;
  total_files : nat;
  processed : nat;
  failed : nat;
  errors : list ErrorEntry
}.
Definition succeed (s : t) : t :=
  {| zip_file := zip_file s; total_files := total_files s;
     processed := S (processed s); failed := failed s; errors := errors s |}.
Definition fail (s : t) (f e : string) : t :=
  {| zip_file := zip_file s; total_files := total_files s;
     processed := processed s; failed := S (failed s);
     errors := errors s ++ [{| file := f; error := e |}] |}.
Definition archive_error (s : t) (f e : string) : t :=
  {| zip_file := zip_file s; total_files := total_files s;
     processed := processed s; failed := failed s;
     errors := errors s ++ [{| file := f; error := e |}] |}.
End ZipStat.

Module Overall.
(** The [overall_stats] dictionary of [process_directory]. *)
Record t := {
  total_zips : nat;
  total_files : nat;
  processed : nat;
  failed : nat;
  zip_stats : list ZipStat.t
}.
End Overall.

Module Mixed.
Record Counts := {
  total_files : nat;
  processed : nat;
  failed : nat
}.
(** The [stats] dictionary of [process_mixed_directory]; [skipped_10q]
    is the fourth key of [stats["combined"]]. *)
Record t := {
  zip_results : Counts;
  text_results : Counts;
  combined : Counts;
  skipped_10q : nat;
  errors : list string
}.
Definition zero : Counts := {| total_files := 0; processed := 0; failed := 0 |}.
Definition with_total (n : nat) (c : Counts) : Counts :=
  {| total_files := n; processed := processed c; failed := failed c |}.
Definition succeed (c : Counts) : Counts :=
  {| total_files := total_files c; processed := S (processed c); failed := failed c |}.
Definition fail (c : Counts) : Counts :=
  {| total_files := total_files c; processed := processed c; failed := S (failed c) |}.
End Mixed.

(* ================================================================== *)
(** * [ZipProcessor]: the orchestration code *)
(* ================================================================== *)

Section ZipProcessor.

Context (cfg : Settings) (w : World) {FM : FilingManager}.

(** [any(f.endswith(ext) for ext in VALID_EXTENSIONS)]. *)
Definition has_valid_extension (f : string) : bool :=
  existsb (endswith f) (VALID_EXTENSIONS cfg).

(** ** [process_zip_file] *)

(** Lines 68-74: the identifier and 10-K filter on member names. *)
Definition zip_name_filter (cik_filter : option (list string)) (text_files : list string)
  : list string :=
  match cik_filter with
  | Some ciks =>
      filter (fun fname => cik_in (_extract_cik_from_name fname) ciks && _is_10k fname)
             text_files
  | None => text_files
  end.

(** Lines 83-88: [true] when the loop body leaves through [continue]. *)
Definition zip_continue (cik_filter : option (list string)) (file_name : string) : bool :=
  let '(cik, _, form_type) := _parse_filename_metadata file_name in
  match cik_filter with
  | Some ciks => negb (cik_in cik ciks) || negb (form_startswith form_type "10-K")
  | None => false
  end.

(** Lines 89-101: what the guarded block does for one member, member
    extraction and content extraction together. *)
Definition zip_attempt (zip_path temp_path : Path) (file_name : string) : Outcome :=
  match zf_extract w zip_path file_name with
  | Some e => Raised e
  | None => extract_from_file w (path_join temp_path file_name) None
  end.

(** Lines 82-101: one turn of [for file_name in text_files]. *)
Definition zip_step (zip_path temp_path : Path) (cik_filter : option (list string))
  (stats : ZipStat.t) (file_name : string) : ZipStat.t :=
  if zip_continue cik_filter file_name then stats
  else
    match zip_attempt zip_path temp_path file_name with
    | Returned true => ZipStat.succeed stats
    | Returned false => ZipStat.fail stats file_name "Extraction failed"
    | Raised e => ZipStat.fail stats file_name e
    end.

Definition zip_stats0 (zip_path : Path) : ZipStat.t :=
  {| ZipStat.zip_file := zip_path; ZipStat.total_files := 0;
     ZipStat.processed := 0; ZipStat.failed := 0; ZipStat.errors := [] |}.

Definition process_zip_file (zip_path : Path) (cik_filter : option (list string))
  : ZipStat.t :=
  let stats := zip_stats0 zip_path in
  match open_zip w zip_path with
  | Opened file_list =>
      let text_files := filter has_valid_extension file_list in
      let text_files := zip_name_filter cik_filter text_files in
      let stats :=
        {| ZipStat.zip_file := zip_path; ZipStat.total_files := List.length text_files;
           ZipStat.processed := 0; ZipStat.failed := 0; ZipStat.errors := [] |} in
      fold_left (zip_step zip_path (temporary_directory w zip_path) cik_filter)
                text_files stats
  | BadZipFile _ => ZipStat.archive_error stats zip_path "Invalid ZIP file"
  | OtherError e => ZipStat.archive_error stats zip_path e
  end.

(** ** [process_directory] *)

(** Lines 142-147: one turn of [for zip_path in sorted(zip_files)]. *)
Definition directory_step (cik_filter : option (list string))
  (overall_stats : Overall.t) (zip_path : Path) : Overall.t :=
  let stats := process_zip_file zip_path cik_filter in
  {| Overall.total_zips := Overall.total_zips overall_stats;
     Overall.total_files := Overall.total_files overall_stats + ZipStat.total_files stats;
     Overall.processed := Overall.processed overall_stats + ZipStat.processed stats;
     Overall.failed := Overall.failed overall_stats + ZipStat.failed stats;
     Overall.zip_stats := Overall.zip_stats overall_stats ++ [stats] |}.

(** Lines 134-137. *)
Definition directory_zip_files (input_dir : Directory) : list Path :=
  dedupe (flat_map (glob input_dir) (ZIP_EXTENSIONS cfg)).

Definition process_directory (input_dir : Directory) (cik_filter : option (list string))
  : Overall.t :=
  let zip_files := directory_zip_files input_dir in
  let overall_stats :=
    {| Overall.total_zips := List.length zip_files; Overall.total_files := 0;
       Overall.processed := 0; Overall.failed := 0; Overall.zip_stats := [] |} in
  fold_left (directory_step cik_filter) (sorted zip_files) overall_stats.

(** ** [process_mixed_directory] *)

(** Step 1, lines 181-185: the members of one opened archive.  The state
    is the list collected so far and the number of scratch directories
    made; the walk ends at the first member whose extraction raises
    ([true] in the result), keeping what was collected before it. *)
Fixpoint discover_members (zip_path : Path) (members : list string)
  (zip_text_files : list Path) (made : nat) : list Path * nat * bool :=
  match members with
  | [] => (zip_text_files, made, false)
  | member :: rest =>
      if has_valid_extension member then
        let tmp := mkdtemp w made in
        match zf_extract w zip_path member with
        | Some _ => (zip_text_files, S made, true)
        | None =>
            discover_members zip_path rest
              (zip_text_files ++ [path_join tmp member]) (S made)
        end
      else discover_members zip_path rest zip_text_files made
  end.

(** Lines 178-187: one archive.  Whatever is raised is caught and only
    logged; the statistics are not touched. *)
Definition discover_zip (acc : list Path * nat) (zip_path : Path) : list Path * nat :=
  match open_zip w zip_path with
  | Opened namelist =>
      let '(found, made, _) := discover_members zip_path namelist (fst acc) (snd acc) in
      (found, made)
  | BadZipFile _ => acc
  | OtherError _ => acc
  end.

(** Line 178: the archives of the directory, each once.  The source walks
    them as a set; here they are taken in listing order. *)
Definition mixed_zip_paths (input_dir : Directory) : list Path :=
  dedupe (glob input_dir ".zip" ++ glob input_dir ".ZIP")%list.

(** [zip_text_files] after the loop of line 178. *)
Definition discover_zip_text_files (input_dir : Directory) : list Path :=
  fst (fold_left discover_zip (mixed_zip_paths input_dir) ([], 0)).

(** Lines 189-191. *)
Definition discover_loose_files (input_dir : Directory) : list Path :=
  flat_map (glob input_dir) (VALID_EXTENSIONS cfg).

(** Lines 193-197. *)
Definition _match (cik_filter : option (list string)) (fp : Path) : bool :=
  match cik_filter with
  | None => true
  | Some ciks =>
      match _extract_cik_from_name (path_name fp) with
      | Some cik => set_mem cik ciks && _is_10k (path_name fp)
      | None => false
      end
  end.

(** Lines 199-205: the filter, then the removal of repeated paths. *)
Definition filter_and_dedupe (cik_filter : option (list string)) (files : list Path)
  : list Path :=
  dedupe (match cik_filter with
          | Some _ => filter (_match cik_filter) files
          | None => files
          end).

(** Lines 216-223: the arguments [add_filing] is called with for [fp],
    or [None] when the loop body does not reach the call. *)
Definition registration (cik_filter : option (list string)) (fp : Path)
  : option (string * Z * string) :=
  let '(cik, year, form_type) := _parse_filename_metadata fp in
  let blocked :=
    match cik_filter with
    | Some ciks =>
        negb (cik_in cik ciks) ||
        (truthy_opt form_type && negb (form_startswith form_type "10-K"))
    | None => false
    end in
  if blocked then None
  else
    match cik, year, form_type with
    | Some c, Some y, Some ft =>
        if truthy c && truthy_year year && truthy ft then Some (c, y, ft) else None
    | _, _, _ => None
    end.

Definition register_step (cik_filter : option (list string)) (fm : fm_state) (fp : Path)
  : fm_state :=
  match registration cik_filter fp with
  | Some (cik, year, form_type) => add_filing fm fp cik year form_type
  | None => fm
  end.

(** Step 2: the manager after [for fp in all_text_files]. *)
Definition register_all (cik_filter : option (list string)) (all_text_files : list Path)
  : fm_state :=
  fold_left (register_step cik_filter) all_text_files fm_new.

(** Lines 237-259: one turn of [for fp in to_process]. *)
Definition mixed_process_step (reference_resolver : option Path)
  (zip_text_files : list Path) (stats : Mixed.t) (fp : Path) : Mixed.t :=
  let in_zip := set_mem fp zip_text_files in
  let bump (f : Mixed.Counts -> Mixed.Counts) (errs : list string) :=
    {| Mixed.zip_results :=
         if in_zip then f (Mixed.zip_results stats) else Mixed.zip_results stats;
       Mixed.text_results :=
         if in_zip then Mixed.text_results stats else f (Mixed.text_results stats);
       Mixed.combined := f (Mixed.combined stats);
       Mixed.skipped_10q := Mixed.skipped_10q stats;
       Mixed.errors := Mixed.errors stats ++ errs |} in
  match extract_from_file w fp reference_resolver with
  | Returned true => bump Mixed.succeed []
  | Returned false => bump Mixed.fail [fp]
  | Raised e => bump Mixed.fail [fp ++ ": " ++ e]
  end.

(** Lines 262-265: one turn of [for fp in to_skip]. *)
Definition count_skipped_step (stats : Mixed.t) (fp : Path) : Mixed.t :=
  let '(_, _, ft) := _parse_filename_metadata fp in
  if form_startswith ft "10-Q" then
    {| Mixed.zip_results := Mixed.zip_results stats;
       Mixed.text_results := Mixed.text_results stats;
       Mixed.combined := Mixed.combined stats;
       Mixed.skipped_10q := S (Mixed.skipped_10q stats);
       Mixed.errors := Mixed.errors stats |}
  else stats.

(** The selection of step 3 and the two sets built from it. *)
Definition mixed_selection (cik_filter : option (list string)) (all_text_files : list Path)
  : Selection :=
  _select_filings_to_process (register_all cik_filter all_text_files).

Definition to_process (cik_filter : option (list string)) (all_text_files : list Path)
  : list Path :=
  dedupe (process (mixed_selection cik_filter all_text_files)).

Definition to_skip (cik_filter : option (list string)) (all_text_files : list Path)
  : list Path :=
  dedupe (skip (mixed_selection cik_filter all_text_files)).

(** Steps 2 to 5, from the two lists that discovery produced. *)
Definition process_discovered (input_dir : Directory) (resolve_references : bool)
  (cik_filter : option (list string)) (zip_text_files loose_files : list Path) : Mixed.t :=
  let zip_text_files := filter_and_dedupe cik_filter zip_text_files in
  let loose_files := filter_and_dedupe cik_filter loose_files in
  let all_text_files := (zip_text_files ++ loose_files)%list in
  let stats :=
    {| Mixed.zip_results := Mixed.with_total (List.length zip_text_files) Mixed.zero;
       Mixed.text_results := Mixed.with_total (List.length loose_files) Mixed.zero;
       Mixed.combined := Mixed.with_total (List.length all_text_files) Mixed.zero;
       Mixed.skipped_10q := 0;
       Mixed.errors := [] |} in
  let reference_resolver :=
    if resolve_references then Some (dir_path input_dir) else None in
  let stats :=
    fold_left (mixed_process_step reference_resolver zip_text_files)
              (to_process cik_filter all_text_files) stats in
  fold_left count_skipped_step (to_skip cik_filter all_text_files) stats.

Definition process_mixed_directory (input_dir : Directory) (resolve_references : bool)
  (cik_filter : option (list string)) : Mixed.t :=
  process_discovered input_dir resolve_references cik_filter
    (discover_zip_text_files input_dir) (discover_loose_files input_dir).

(** The paths the run hands to [add_filing], in order. *)
Definition registered_paths (cik_filter : option (list string)) (all_text_files : list Path)
  : list Path :=
  filter (fun fp => match registration cik_filter fp with Some _ => true | None => false end)
         all_text_files.

(** [all_text_files] of a run. *)
Definition all_text_files_of (input_dir : Directory) (cik_filter : option (list string))
  : list Path :=
  (filter_and_dedupe cik_filter (discover_zip_text_files input_dir) ++
   filter_and_dedupe cik_filter (discover_loose_files input_dir))%list.

End ZipProcessor.

(* ================================================================== *)
(** * The filing manager, from the specification *)
(* ================================================================== *)

Module SpecFM.

(** Modelled from the spec: the form-type buckets of section 3, which
    [src/core/filing_manager.py] (not among the sources) classifies. *)
Inductive Bucket := Annual | Quarterly | Other.

Definition bucket_eqb (a b : Bucket) : bool :=
  match a, b with
  | Annual, Annual | Quarterly, Quarterly | Other, Other => true
  | _, _ => false
  end.

(** Modelled from the spec: the Quarterly test of section 4.2 (the
    name contains "10-Q" or "10Q", case-insensitively), the missing
    counterpart of [_is_10k]. *)
Definition is_10q (s : string) : bool :=
  contains (upper s) "10-Q" || contains (upper s) "10Q".

(** Modelled from the spec: the classification of a form type into its
    bucket (section 3, FormType); the classifier of the missing filing
    manager.  Annual is tested first, as in section 4.2. *)
Definition bucket_of (form_type : option string) : Bucket :=
  match form_type with
  | Some ft => if _is_10k ft then Annual else if is_10q ft then Quarterly else Other
  | None => Other
  end.

(** Modelled from the spec: the FilingCandidate of section 3, the record
    the missing filing manager keeps per file.  The origin is not stored:
    it plays no part in selection, and the orchestrator reads it off the
    list the path came from. *)
Record FilingCandidate := {
  path : Path;
  filer_id : option string;
  fiscal_year : option Z;
  form_type : option string
}.

(** Modelled from the spec: the composite key (filer id, fiscal year) of
    the registry that the missing filing manager keeps (section 4.3). *)
Definition Key : Type := string * Z.

Definition key_eq_dec (a b : Key) : {a = b} + {a <> b}.
Proof. decide equality; [apply Z.eq_dec | apply string_dec]. Defined.

Definition candidate_eq_dec (a b : FilingCandidate) : {a = b} + {a <> b}.
Proof.
  decide equality;
    try (decide equality; try apply string_dec; apply Z.eq_dec);
    apply string_dec.
Defined.

(** Modelled from the spec: the key a candidate is grouped under, absent
    when its filer id or fiscal year is absent (section 3); part of the
    missing registry. *)
Definition key_of (c : FilingCandidate) : option Key :=
  match filer_id c, fiscal_year c with
  | Some f, Some y => Some (f, y)
  | _, _ => None
  end.

(** [c] belongs to the selection group [k]. *)
Definition has_key (k : Key) (c : FilingCandidate) : bool :=
  match key_of c with
  | Some k' => if key_eq_dec k k' then true else false
  | None => false
  end.

(** Modelled from the spec: the Filing Registry of sections 4.3 and 9, an
    explicit mapping from the composite key to the ordered sequence of
    its candidates, iterated in insertion order of first-seen key; the
    state of the missing [FilingManager]. *)
Definition Registry : Type := list (Key * list FilingCandidate).

(** Modelled from the spec: the registry of a fresh [FilingManager()],
    which is missing from the sources; a run starts with no group. *)
Definition empty : Registry := [].

(** Modelled from the spec: insertion into the missing registry; the
    candidate is appended to the group of its key, and a key not seen
    before opens a new group after the existing ones (section 4.3:
    insertion order of first-seen key). *)
Fixpoint insert (k : Key) (c : FilingCandidate) (r : Registry) : Registry :=
  match r with
  | [] => [(k, [c])]
  | (k', cs) :: r' =>
      if key_eq_dec k k' then (k', (cs ++ [c])%list) :: r'
      else (k', cs) :: insert k c r'
  end.

(** Modelled from the spec: [add(candidate)] of section 4.3, standing for
    the missing [FilingManager.add_filing]: the candidate enters the group
    of its key only if both filer id and fiscal year are present, and is
    dropped otherwise. *)
Definition add (r : Registry) (c : FilingCandidate) : Registry :=
  match key_of c with
  | Some k => insert k c r
  | None => r
  end.

(** Modelled from the spec: [groups()] of section 4.3. *)
Definition groups (r : Registry) : list (Key * list FilingCandidate) := r.

(** The candidates filed under [k] (none when the key is unknown). *)
Fixpoint group_of (k : Key) (r : Registry) : list FilingCandidate :=
  match r with
  | [] => []
  | (k', cs) :: r' => if key_eq_dec k k' then cs else group_of k r'
  end.

(** The invariant of a registry: one group per key, no group empty, and
    every candidate filed under its own key. *)
Definition wf (r : Registry) : Prop :=
  NoDup (map fst r) /\
  forall k cs, In (k, cs) r -> cs <> [] /\ forall c, In c cs -> key_of c = Some k.

(** The registry after a sequence of [add]s. *)
Definition registry_of (adds : list FilingCandidate) : Registry :=
  fold_left add adds empty.

(** [c] is in bucket [b]. *)
Definition in_bucket (b : Bucket) (c : FilingCandidate) : bool :=
  bucket_eqb (bucket_of (form_type c)) b.

(** Modelled from the spec: rules A, B and C of section 4.4, the
    selection of the missing [FilingManager._select_filings_to_process]:
    the bucket that decides a group is Annual when it is non-empty, else
    Quarterly when it is non-empty, else Other. *)
Definition winning_bucket (cs : list FilingCandidate) : Bucket :=
  if existsb (in_bucket Annual) cs then Annual
  else if existsb (in_bucket Quarterly) cs then Quarterly
  else Other.

(** Modelled from the spec: the stable tie-break of section 4.4, the
    first candidate of the deciding bucket in discovery order. *)
Definition chosen (cs : list FilingCandidate) : option FilingCandidate :=
  find (in_bucket (winning_bucket cs)) cs.

(** Modelled from the spec: one group of section 4.4.  The chosen
    candidate goes to [process]; every other candidate of the group, in
    whatever bucket, goes to [skip] (duplicates inside the deciding bucket
    lose to its first-seen instance). *)
Definition select_group (cs : list FilingCandidate)
  : list FilingCandidate * list FilingCandidate :=
  match chosen cs with
  | Some c => ([c], filter (fun c' => if candidate_eq_dec c' c then false else true) cs)
  | None => ([], cs)
  end.

(** Modelled from the spec: the result of the missing selection engine,
    [{process, skip}] of section 4.4. *)
Record CandidateSelection := {
  sel_process : list FilingCandidate;
  sel_skip : list FilingCandidate
}.

(** Modelled from the spec: [select(groups)] of section 4.4; the two
    results are sets, held as lists. *)
Definition select (r : Registry) : CandidateSelection :=
  {| sel_process := flat_map (fun g => fst (select_group (snd g))) (groups r);
     sel_skip := flat_map (fun g => snd (select_group (snd g))) (groups r) |}.

Section Parser.

(** The naming convention for fiscal years and for form types other than
    10-K and 10-Q is not described: both are left open. *)
Context (parse_fiscal_year : string -> option Z)
        (parse_other_form : string -> option string).

(** Modelled from the spec: the form type of section 4.2, part of the
    missing [FilingManager._parse_filename_metadata]. *)
Definition parse_form_type (name : string) : option string :=
  if _is_10k name then Some "10-K"
  else if is_10q name then Some "10-Q"
  else parse_other_form name.

(** Modelled from the spec: the Filename Metadata Parser of section 4.2,
    standing for the missing [FilingManager._parse_filename_metadata];
    the filer id is found as [_extract_cik_from_name] finds it, and the
    name is the last component of the path. *)
Definition parse_filename_metadata (fp : Path)
  : option string * option Z * option string :=
  let name := path_name fp in
  (_extract_cik_from_name name, parse_fiscal_year name, parse_form_type name).

(** Modelled from the spec: the candidate that the missing
    [add_filing(fp, cik, year, form_type)] registers. *)
Definition candidate (fp : Path) (cik : string) (year : Z) (ft : string)
  : FilingCandidate :=
  {| path := fp; filer_id := Some cik; fiscal_year := Some year; form_type := Some ft |}.

(** Modelled from the spec: the filing manager assembled from the parser,
    the registry and the selection engine above, in place of the missing
    class [src.core.filing_manager.FilingManager]. *)
Definition manager : FilingManager :=
  {| fm_state := Registry;
     fm_new := empty;
     _parse_filename_metadata := parse_filename_metadata;
     add_filing := fun r fp cik year ft => add r (candidate fp cik year ft);
     _select_filings_to_process := fun r =>
       {| process := map path (sel_process (select r));
          skip := map path (sel_skip (select r)) |} |}.

End Parser.

End SpecFM.

(* ================================================================== *)
(** * What the specification says of filer-id extraction *)
(* ================================================================== *)

Module CikSpec.

(** The pattern "[lit] followed by at least [lo] digits" is present in
    [s] right after the prefix [pre]. *)
Definition occurs_at (lit : string) (lo : nat) (pre s : string) : Prop :=
  exists ds post,
    s = pre ++ lit ++ ds ++ post /\ all_digits ds /\ lo <= String.length ds.

(** [ds] is the run of [lo] to [hi] digits that follows [lit] after the
    prefix [pre]: it ends at [hi] digits or where the digits end. *)
Definition captured_at (lit : string) (lo hi : nat) (pre s ds : string) : Prop :=
  exists post,
    s = pre ++ lit ++ ds ++ post /\ all_digits ds /\
    lo <= String.length ds <= hi /\
    (String.length ds = hi \/ starts_with_digit post = false).

(** [ds] is the first such run in [s]: no occurrence starts earlier. *)
Definition first_found (lit : string) (lo hi : nat) (s ds : string) : Prop :=
  exists pre,
    captured_at lit lo hi pre s ds /\
    forall pre', String.length pre' < String.length pre -> ~ occurs_at lit lo pre' s.

Definition absent (lit : string) (lo : nat) (s : string) : Prop :=
  forall pre, ~ occurs_at lit lo pre s.

(** [cik] is [ds] zero-padded on the left to ten characters. *)
Definition zero_padded (ds cik : string) : Prop :=
  cik = zeros (10 - String.length ds) ++ ds /\ String.length cik = 10.

End CikSpec.


(* ================================================================== *)
(** * Notions used in the statements *)
(* ================================================================== *)

(** A guarded call succeeded: it returned a truthy result. *)
Definition succeeded (o : Outcome) : bool :=
  match o with Returned true => true | _ => false end.

(** The failure entry [process_zip_file] owes a member, if any: the
    member's name with "Extraction failed" for a falsy result, or with
    the message of the error that was raised. *)
Definition zip_failure_entry (file_name : string) (o : Outcome) : list ZipStat.ErrorEntry :=
  match o with
  | Returned true => []
  | Returned false => [{| ZipStat.file := file_name; ZipStat.error := "Extraction failed" |}]
  | Raised e => [{| ZipStat.file := file_name; ZipStat.error := e |}]
  end.

(** The failure entry [process_mixed_directory] owes a file, if any: its
    path, followed by the message when an error was raised. *)
Definition mixed_failure_entry (fp : Path) (o : Outcome) : list string :=
  match o with
  | Returned true => []
  | Returned false => [fp]
  | Raised e => [fp ++ ": " ++ e]
  end.

(** Follows the spec's words: "plain identifier-only filtering (no Annual
    restriction)", that is [_match] without its [_is_10k] conjunct. *)
Definition identifier_only_match (cik_filter : option (list string)) (fp : Path) : bool :=
  match cik_filter with
  | None => true
  | Some ciks =>
      match _extract_cik_from_name (path_name fp) with
      | Some cik => set_mem cik ciks
      | None => false
      end
  end.

(** Follows the spec's words: two paths "resolve to the same underlying
    document" when their file names agree up to letter case, as for a
    [.txt]/[.TXT] pair or an archive member and its loose copy. *)
Definition same_document (p1 p2 : Path) : Prop :=
  upper (path_name p1) = upper (path_name p2).

(** The candidates a run registers with the filing manager of the
    specification, in order. *)
Definition registered_candidates {FM : FilingManager}
  (cik_filter : option (list string)) (all_text_files : list Path)
  : list SpecFM.FilingCandidate :=
  flat_map (fun fp => match registration cik_filter fp with
                      | Some (cik, year, ft) => [SpecFM.candidate fp cik year ft]
                      | None => []
                      end)
           all_text_files.

(* ================================================================== *)
(** * Concrete runs *)
(* ================================================================== *)

Module Scenario.

(** The two file names of the quarterly-fallback scenario. *)
Definition annual_name : string := "edgar_data_12345_10-K.txt".
Definition quarterly_name : string := "edgar_data_12345_10-Q.txt".

Definition annual_12345 : SpecFM.FilingCandidate :=
  SpecFM.candidate "data/edgar_data_12345_10-K.txt" "0000012345" 2020 "10-K".

Definition quarterly_12345 : SpecFM.FilingCandidate :=
  SpecFM.candidate "data/edgar_data_12345_10-Q.txt" "0000012345" 2020 "10-Q".

Definition amended_12345 : SpecFM.FilingCandidate :=
  SpecFM.candidate "data/edgar_data_12345_10-KA.txt" "0000012345" 2020 "10-K/A".

Definition quarterly_777 : SpecFM.FilingCandidate :=
  SpecFM.candidate "data/edgar_data_777_10-Q.txt" "0000000777" 2020 "10-Q".

(** Discovery order: a quarterly report first, then two annual ones of
    the same filer and year, then another filer. *)
Definition four_adds : list SpecFM.FilingCandidate :=
  [quarterly_12345; annual_12345; amended_12345; quarterly_777].

Definition key_12345 : SpecFM.Key := ("0000012345", 2020%Z).

End Scenario.

Module Run.

Definition cfg : Settings :=
  {| VALID_EXTENSIONS := [".txt"; ".TXT"]; ZIP_EXTENSIONS := [".zip"; ".ZIP"] |}.

(** Every file name carries the fiscal year 2020; no other form types. *)
Definition fiscal_2020 (name : string) : option Z := Some 2020%Z.
Definition no_other_form (name : string) : option string := None.

Definition fm : FilingManager := SpecFM.manager fiscal_2020 no_other_form.

(** One corrupt archive between two readable ones; content extraction
    fails on paths that mention "empty" (falsy result) or "broken"
    (raises). *)
Definition world : World :=
  {| open_zip := fun p =>
       if String.eqb p "data/bad.zip" then BadZipFile "File is not a zip file"
       else if String.eqb p "data/a.zip" then Opened ["edgar_data_111_10-K.txt"]
       else if String.eqb p "data/b.zip" then Opened ["edgar_data_222_10-K.txt"; "cover.pdf"]
       else if String.eqb p "data/d.zip" then Opened ["edgar_data_55_10-K.txt"]
       else OtherError "No such file";
     zf_extract := fun _ _ => None;
     extract_from_file := fun fp _ =>
       if contains fp "broken" then Raised "unreadable"
       else if contains fp "empty" then Returned false
       else Returned true;
     mkdtemp := fun n => "/tmp/tmp" ++ zeros n;
     temporary_directory := fun _ => "/tmp/zip" |}.

Definition three_archives : Directory :=
  {| dir_path := "data";
     dir_names := ["a.zip"; "bad.zip"; "b.zip"; "edgar_data_333_10-K.txt"] |}.

(** The two files of the quarterly-fallback scenario, alone in a directory. *)
Definition two_reports : Directory :=
  {| dir_path := "data";
     dir_names := ["edgar_data_12345_10-K.txt"; "edgar_data_12345_10-Q.txt"] |}.

(** A quarterly report of a filer on the identifier list, with no annual
    report beside it. *)
Definition lone_quarterly : Directory :=
  {| dir_path := "data"; dir_names := ["edgar_data_123_10-Q.txt"] |}.

(** An annual report, its amendment, and a case-variant copy of the
    amendment. *)
Definition amended_twice : Directory :=
  {| dir_path := "data";
     dir_names := ["edgar_data_55_10-K.txt"; "edgar_data_55_10-KA.txt";
                   "edgar_data_55_10-KA.TXT"] |}.

(** The case-variant scenario: an archive [d.zip] that holds
    [edgar_data_55_10-K.txt], and an upper-case loose copy. *)
Definition case_variant : Directory :=
  {| dir_path := "data"; dir_names := ["d.zip"; "EDGAR_DATA_55_10-K.TXT"] |}.

(** An archive whose second and third members fail in content
    extraction, and loose files that do the same. *)
Definition failing_world : World :=
  {| open_zip := fun _ =>
       Opened ["edgar_data_9_10-K.txt"; "edgar_data_8_10-K_empty.txt";
               "edgar_data_7_10-K_broken.txt"];
     zf_extract := zf_extract world;
     extract_from_file := extract_from_file world;
     mkdtemp := mkdtemp world;
     temporary_directory := temporary_directory world |}.

Definition one_archive : Directory :=
  {| dir_path := "data";
     dir_names := ["c.zip"; "edgar_data_6_10-K_empty.txt"; "edgar_data_5_10-K.txt"] |}.

End Run.

(* ================================================================== *)
(** * Further notions for the properties of the code *)
(* ================================================================== *)

(** No character of [s] is a digit. *)
Definition no_digit (s : string) : Prop :=
  str_forallb (fun c => negb (is_digit c)) s = true.

(** [zipfile.ZipFile(zip_path)] and [namelist()] go through. *)
Definition opens (w : World) (zip_path : Path) : bool :=
  match open_zip w zip_path with
  | Opened _ => true
  | _ => false
  end.

(** A CSV file with one identifier per row, as one would write a loaded
    set back. *)
Definition one_per_row (ciks : list string) : list Row :=
  map (fun cik => [cik]) ciks.

(** The order [sorted] puts paths in. *)
Definition path_le (a b : Path) : Prop := String.leb a b = true.

(** Follows the spec's words: rules A to C of section 4.4 rank the
    form-type buckets, Annual before Quarterly before Other. *)
Definition outranks (a b : SpecFM.Bucket) : bool :=
  match a, b with
  | SpecFM.Annual, SpecFM.Quarterly
  | SpecFM.Annual, SpecFM.Other
  | SpecFM.Quarterly, SpecFM.Other => true
  | _, _ => false
  end.

(** Follows the spec's words (rules A to C and the tie-break of section
    4.4): the file [p] takes precedence over a file registered as
    [(cik, y, ft)] and first seen after the files [seen_before] when [p]
    is registered under the same filer id and fiscal year and either its
    bucket outranks that of [ft], or it has the same bucket and was seen
    before. *)
Definition takes_precedence {FM : FilingManager} (cik_filter : option (list string))
  (seen_before : list Path) (cik : string) (y : Z) (ft : string) (p : Path) : Prop :=
  exists ft',
    registration cik_filter p = Some (cik, y, ft') /\
    (outranks (SpecFM.bucket_of (Some ft')) (SpecFM.bucket_of (Some ft)) = true \/
     (In p seen_before /\
      SpecFM.bucket_of (Some ft') = SpecFM.bucket_of (Some ft))).

(** ** Opening the identifier file *)

(** A CSV file as [open] finds it: whether its bytes begin with the UTF-8
    byte-order mark, and the rows that [csv.reader] yields for the text
    after the mark. *)
Record CsvFile := {
  byte_order_mark : bool;
  rows_after_mark : list Row
}.

Module CsvSource.

(** [cik_filter.py], lines 15-16: [open(path, newline='',
    encoding='utf-8-sig')] skips a leading byte-order mark, then
    [csv.reader]. *)
Definition reader_utf8_sig (f : CsvFile) : list Row := rows_after_mark f.

(** [cik_loader.py], lines 18-19: [open(csv_path, newline='',
    encoding='utf-8')] keeps a leading byte-order mark as the character
    U+FEFF at the head of the text.  That character has no counterpart
    among the 8-bit characters used here: [marked] stands for the rows
    [csv.reader] yields for such a text, and nothing is assumed of it. *)
Definition reader_utf8 (marked : list Row -> list Row) (f : CsvFile) : list Row :=
  if byte_order_mark f then marked (rows_after_mark f) else rows_after_mark f.

(** [cik_filter.load_cik_list], from the file. *)
Definition cik_filter_load (path : option CsvFile) : list string :=
  CikFilter.load_cik_list (option_map reader_utf8_sig path).

(** [cik_loader.load_cik_list], from the file. *)
Definition cik_loader_load (marked : list Row -> list Row) (csv_path : option CsvFile)
  : list string :=
  CikLoader.load_cik_list (option_map (reader_utf8 marked) csv_path).

End CsvSource.

Module Run2.

(** An archive member, its loose copy and a case variant of the copy;
    [d.zip] holds [edgar_data_55_10-K.txt]. *)
Definition copies : Directory :=
  {| dir_path := "data";
     dir_names := ["d.zip"; "edgar_data_55_10-K.txt"; "edgar_data_55_10-K.TXT"] |}.

(** A digit-only identifier file without a byte-order mark. *)
Definition plain_csv : CsvFile :=
  {| byte_order_mark := false;
     rows_after_mark := [[" 123456 "; "AAA"]; []; ["0000000789"]] |}.

(** An archive whose second member cannot be extracted. *)
Definition flaky_world : World :=
  {| open_zip := fun _ =>
       Opened ["edgar_data_1_10-K.txt"; "damaged.txt"; "edgar_data_2_10-K.txt"];
     zf_extract := fun _ member =>
       if String.eqb member "damaged.txt" then Some "Bad CRC-32" else None;
     extract_from_file := extract_from_file Run.world;
     mkdtemp := mkdtemp Run.world;
     temporary_directory := temporary_directory Run.world |}.

End Run2.
(* ================================================================== *)
(** * Facts about strings *)
(* ================================================================== *)

Lemma append_empty_r (s : string) : s ++ "" = s.
Proof. induction s; simpl; congruence. Qed.

Lemma append_assoc3 (a b c : string) : (a ++ b) ++ c = a ++ b ++ c.
Proof. induction a; simpl; congruence. Qed.

Lemma length_append (a b : string) :
  String.length (a ++ b) = String.length a + String.length b.
Proof. induction a; simpl; congruence. Qed.

Lemma forallb_append (p : ascii -> bool) (a b : string) :
  str_forallb p (a ++ b) = str_forallb p a && str_forallb p b.
Proof. induction a; simpl; [reflexivity | rewrite IHa; apply andb_assoc]. Qed.

Lemma zeros_length (n : nat) : String.length (zeros n) = n.
Proof. induction n; simpl; congruence. Qed.

Lemma zeros_digits (n : nat) : all_digits (zeros n).
Proof. unfold all_digits; induction n; simpl; auto. Qed.

Lemma digit_not_sign (c : ascii) :
  is_digit c = true -> (Ascii.eqb c "+" || Ascii.eqb c "-") = false.
Proof.
  intros H.
  destruct (Ascii.eqb_spec c "+") as [->|_]; [discriminate H|].
  destruct (Ascii.eqb_spec c "-") as [->|_]; [discriminate H|].
  reflexivity.
Qed.

(** On a string of digits [zfill] only puts zeros in front. *)
Lemma zfill_digits (width : nat) (ds : string) :
  all_digits ds -> zfill width ds = zeros (width - String.length ds) ++ ds.
Proof.
  unfold all_digits, zfill. destruct ds as [|c rest]; simpl.
  - intros _. symmetry. apply append_empty_r.
  - intros H. apply andb_prop in H. destruct H as [Hc _].
    rewrite (digit_not_sign c Hc). reflexivity.
Qed.

Lemma zfill_digits_length (ds : string) :
  all_digits ds -> String.length ds <= 10 ->
  CikSpec.zero_padded ds (zfill 10 ds) /\ all_digits (zfill 10 ds).
Proof.
  intros Hd Hl. rewrite (zfill_digits 10 ds Hd). repeat split.
  - rewrite length_append, zeros_length. lia.
  - unfold all_digits. rewrite forallb_append.
    rewrite (zeros_digits _). exact Hd.
Qed.

(** ** The anchored match *)

Lemma strip_literal_some (lit s rest : string) :
  Regex.strip_literal lit s = Some rest <-> s = lit ++ rest.
Proof.
  revert s. induction lit as [|a lit IH]; intros s; simpl.
  - split; congruence.
  - destruct s as [|b s].
    + split; discriminate.
    + destruct (Ascii.eqb_spec a b) as [->|Hne].
      * rewrite IH. split; congruence.
      * split; [discriminate | intros H; inversion H; congruence].
Qed.

Lemma take_digits_split (hi : nat) (s : string) :
  exists post,
    s = Regex.take_digits hi s ++ post /\
    all_digits (Regex.take_digits hi s) /\
    String.length (Regex.take_digits hi s) <= hi /\
    (String.length (Regex.take_digits hi s) = hi \/ starts_with_digit post = false).
Proof.
  unfold all_digits. revert s. induction hi as [|n IH]; intros s.
  - exists s. simpl. destruct s; auto.
  - destruct s as [|c s]; simpl.
    + exists "". simpl. repeat split; auto; lia.
    + destruct (is_digit c) eqn:Hc.
      * destruct (IH s) as (post & Hs & Hd & Hl & Hend).
        exists post. simpl. rewrite Hc. repeat split.
        -- congruence.
        -- exact Hd.
        -- lia.
        -- destruct Hend; [left; lia | right; assumption].
      * exists (String c s). simpl. rewrite Hc. repeat split; auto; lia.
Qed.

(** The greedy run is at least as long as any run of digits at the
    start of the string, up to the bound. *)
Lemma take_digits_longest (hi : nat) (d post : string) :
  all_digits d ->
  Nat.min hi (String.length d) <= String.length (Regex.take_digits hi (d ++ post)).
Proof.
  unfold all_digits. revert d. induction hi as [|n IH]; intros d Hd.
  - simpl. lia.
  - destruct d as [|c d]; simpl.
    + lia.
    + simpl in Hd. apply andb_prop in Hd. destruct Hd as [Hc Hd].
      rewrite Hc. simpl. specialize (IH d Hd). lia.
Qed.

Lemma match_at_some (lit : string) (lo hi : nat) (s ds : string) :
  Regex.match_at lit lo hi s = Some ds -> CikSpec.captured_at lit lo hi "" s ds.
Proof.
  unfold Regex.match_at. destruct (Regex.strip_literal lit s) as [rest|] eqn:Hs; [|discriminate].
  apply strip_literal_some in Hs.
  destruct (Nat.leb_spec lo (String.length (Regex.take_digits hi rest))) as [Hlo|]; [|discriminate].
  intros H. injection H as <-.
  destruct (take_digits_split hi rest) as (post & Hr & Hd & Hl & Hend).
  exists post. simpl. repeat split; auto. congruence.
Qed.

Lemma match_at_none (lit : string) (lo hi : nat) (s : string) :
  lo <= hi ->
  Regex.match_at lit lo hi s = None -> ~ CikSpec.occurs_at lit lo "" s.
Proof.
  intros Hlh Hnone (ds & post & Hs & Hd & Hlo). simpl in Hs.
  unfold Regex.match_at in Hnone.
  assert (Hstrip : Regex.strip_literal lit s = Some (ds ++ post))
    by (apply strip_literal_some; exact Hs).
  rewrite Hstrip in Hnone.
  pose proof (take_digits_longest hi ds post Hd) as Hmax.
  destruct (Nat.leb_spec lo (String.length (Regex.take_digits hi (ds ++ post)))); [discriminate|].
  lia.
Qed.

(** ** The search: leftmost match, or none anywhere *)

Lemma search_spec (lit : string) (lo hi : nat) (s : string) :
  lo <= hi ->
  match Regex.search lit lo hi s with
  | Some ds => CikSpec.first_found lit lo hi s ds
  | None => CikSpec.absent lit lo s
  end.
Proof.
  intros Hlh. induction s as [|c s IH]; simpl.
  - destruct (Regex.match_at lit lo hi "") as [ds|] eqn:Hm.
    + exists "". split; [apply match_at_some; exact Hm | simpl; intros; lia].
    + intros pre Hocc. destruct pre as [|a pre].
      * exact (match_at_none _ _ _ _ Hlh Hm Hocc).
      * destruct Hocc as (ds & post & Hs & _). discriminate Hs.
  - destruct (Regex.match_at lit lo hi (String c s)) as [ds|] eqn:Hm.
    + exists "". split; [apply match_at_some; exact Hm | simpl; intros; lia].
    + assert (Hshift : forall pre, CikSpec.occurs_at lit lo pre (String c s) ->
                exists pre0, pre = String c pre0 /\ CikSpec.occurs_at lit lo pre0 s).
      { intros pre Hocc. destruct pre as [|a pre].
        - destruct (match_at_none _ _ _ _ Hlh Hm Hocc).
        - destruct Hocc as (ds & post & Hs & Hd & Hlo). simpl in Hs.
          injection Hs as -> Hs. exists pre. split; [reflexivity|].
          exists ds, post. auto. }
      destruct (Regex.search lit lo hi s) as [ds|].
      * destruct IH as (pre & (post & Hs & Hd & Hl & Hend) & Hfirst).
        exists (String c pre). split.
        -- exists post. simpl. repeat split; auto; try lia. congruence.
        -- intros pre' Hlen Hocc. destruct (Hshift pre' Hocc) as (pre0 & -> & Hocc0).
           apply (Hfirst pre0); [simpl in Hlen; lia | exact Hocc0].
      * intros pre Hocc. destruct (Hshift pre Hocc) as (pre0 & _ & Hocc0).
        exact (IH pre0 Hocc0).
Qed.

(** C5.  For every file name, [_extract_cik_from_name] first looks for the
    labelled pattern: "edgar_data_" followed by one to ten digits, at its
    leftmost occurrence.  Only when the name has no such occurrence does
    it fall back to the first bare run of four to ten digits.  When
    neither is present the result is absent; a found run is zero-padded to
    ten digits. *)
Theorem extract_cik_from_name_precedence (filename : string) :
  match _extract_cik_from_name filename with
  | Some cik =>
      all_digits cik /\
      ((exists ds,
           CikSpec.first_found "edgar_data_" 1 10 filename ds /\
           CikSpec.zero_padded ds cik)
       \/
       (CikSpec.absent "edgar_data_" 1 filename /\
        exists ds,
          CikSpec.first_found "" 4 10 filename ds /\
          CikSpec.zero_padded ds cik))
  | None =>
      CikSpec.absent "edgar_data_" 1 filename /\ CikSpec.absent "" 4 filename
  end.
Proof.
  unfold _extract_cik_from_name.
  pose proof (search_spec "edgar_data_" 1 10 filename ltac:(lia)) as Hlab.
  pose proof (search_spec "" 4 10 filename ltac:(lia)) as Hbare.
  assert (Hpad : forall lit lo ds, CikSpec.first_found lit lo 10 filename ds ->
            CikSpec.zero_padded ds (zfill 10 ds) /\ all_digits (zfill 10 ds)).
  { intros lit lo ds (pre & (post & _ & Hd & Hl & _) & _).
    apply zfill_digits_length; [exact Hd | lia]. }
  destruct (Regex.search "edgar_data_" 1 10 filename) as [g|].
  - destruct (Hpad _ _ _ Hlab) as [Hz Hd]. split; [exact Hd|].
    left. exists g. split; assumption.
  - destruct (Regex.search "" 4 10 filename) as [g|].
    + destruct (Hpad _ _ _ Hbare) as [Hz Hd]. split; [exact Hd|].
      right. split; [exact Hlab|]. exists g. split; assumption.
    + split; assumption.
Qed.

Example extract_cik_labelled :
  _extract_cik_from_name "edgar_data_12345_10-K.txt" = Some "0000012345".
Proof. reflexivity. Qed.

Example extract_cik_label_before_bare_run :
  _extract_cik_from_name "20200331_edgar_data_77_10-K.txt" = Some "0000000077".
Proof. reflexivity. Qed.

Example extract_cik_bare_run :
  _extract_cik_from_name "filing_2020_987654.txt" = Some "0000002020".
Proof. reflexivity. Qed.

Example extract_cik_upper_case_label :
  _extract_cik_from_name "EDGAR_DATA_55_10-K.TXT" = None.
Proof. reflexivity. Qed.

Example extract_cik_long_run :
  _extract_cik_from_name "123456789012.txt" = Some "1234567890".
Proof. reflexivity. Qed.

(* ================================================================== *)
(** * The identifier loaders *)
(* ================================================================== *)

Lemma space_not_digit (c : ascii) : is_space c = true -> is_digit c = false.
Proof.
  unfold is_space, is_digit. generalize (nat_of_ascii c). intros n H.
  destruct (Nat.leb_spec 48 n), (Nat.leb_spec n 57); simpl; try reflexivity.
  destruct (Nat.leb_spec 9 n), (Nat.leb_spec n 13), (Nat.leb_spec 28 n),
    (Nat.leb_spec n 32); simpl in H; try discriminate; lia.
Qed.

Lemma digits_lstrip (s : string) :
  str_filter is_digit (lstrip s) = str_filter is_digit s.
Proof.
  induction s as [|c s IH]; simpl; [reflexivity|].
  destruct (is_space c) eqn:Hc; [|reflexivity].
  rewrite (space_not_digit c Hc). exact IH.
Qed.

Lemma digits_rstrip (s : string) :
  str_filter is_digit (rstrip s) = str_filter is_digit s.
Proof.
  induction s as [|c s IH]; simpl; [reflexivity|].
  destruct (rstrip s) as [|c' r] eqn:Hr.
  - simpl in IH. rewrite <- IH.
    destruct (is_space c) eqn:Hc.
    + rewrite (space_not_digit c Hc). reflexivity.
    + simpl. destruct (is_digit c); reflexivity.
  - change (str_filter is_digit (String c (String c' r))) with
      (if is_digit c then String c (str_filter is_digit (String c' r))
       else str_filter is_digit (String c' r)).
    rewrite IH. reflexivity.
Qed.

(** Stripping white space first does not change the digits kept. *)
Lemma digits_strip (s : string) :
  str_filter is_digit (strip s) = str_filter is_digit s.
Proof. unfold strip. rewrite digits_rstrip. apply digits_lstrip. Qed.

Lemma truthy_false (s : string) : truthy s = false <-> s = "".
Proof. destruct s; simpl; split; congruence. Qed.

Lemma set_mem_In (x : string) (s : list string) : set_mem x s = true <-> In x s.
Proof.
  unfold set_mem. rewrite existsb_exists. split.
  - intros (y & Hy & He). apply String.eqb_eq in He. subst. exact Hy.
  - intros H. exists x. split; [exact H | apply String.eqb_refl].
Qed.

Lemma set_add_In (x y : string) (s : list string) :
  In y (set_add x s) <-> y = x \/ In y s.
Proof.
  unfold set_add. destruct (set_mem x s) eqn:Hm.
  - apply set_mem_In in Hm. split; [auto | intros [->|H]; assumption].
  - rewrite in_app_iff. simpl. split; [intros [H|[H|[]]] | intros [H|H]]; auto.
Qed.

(** The identifiers one row contributes under [cik_filter.py]. *)
Lemma filter_add_row_In (ciks : list string) (row : Row) (x : string) :
  In x (CikFilter.add_row ciks row) <->
  In x ciks \/
  exists field rest,
    row = field :: rest /\ str_filter is_digit field <> "" /\
    x = zfill 10 (str_filter is_digit field).
Proof.
  unfold CikFilter.add_row. destruct row as [|field rest].
  - split; [auto | intros [H|(f & r & H & _)]; [exact H | discriminate H]].
  - pose proof (digits_strip field) as Hd.
    destruct (truthy (strip field)) eqn:Ht.
    + rewrite Hd. destruct (truthy (str_filter is_digit field)) eqn:Htd.
      * rewrite set_add_In. split.
        -- intros [->|H]; [right | left; exact H].
           exists field, rest. repeat split.
           intros E. rewrite E in Htd. discriminate Htd.
        -- intros [H|(f & r & E & _ & ->)]; [right; exact H|].
           injection E as <- <-. left. reflexivity.
      * apply truthy_false in Htd. split; [auto|].
        intros [H|(f & r & E & Hne & _)]; [exact H|].
        injection E as <- <-. contradiction.
    + apply truthy_false in Ht. rewrite Ht in Hd. simpl in Hd.
      split; [auto|].
      intros [H|(f & r & E & Hne & _)]; [exact H|].
      injection E as <- <-. symmetry in Hd. contradiction.
Qed.

Lemma filter_fold_In (rows : list Row) (ciks : list string) (x : string) :
  In x (fold_left CikFilter.add_row rows ciks) <->
  In x ciks \/
  exists field rest,
    In (field :: rest) rows /\ str_filter is_digit field <> "" /\
    x = zfill 10 (str_filter is_digit field).
Proof.
  revert ciks. induction rows as [|row rows IH]; intros ciks; simpl.
  - split; [auto | intros [H|(f & r & [] & _)]; exact H].
  - rewrite IH, filter_add_row_In. split.
    + intros [[H|(f & r & E & Hne & Hx)]|(f & r & Hin & Hne & Hx)].
      * left. exact H.
      * right. exists f, r. subst row. auto.
      * right. exists f, r. auto.
    + intros [H|(f & r & [E|Hin] & Hne & Hx)].
      * left. left. exact H.
      * left. right. exists f, r. auto.
      * right. exists f, r. auto.
Qed.

(** X1.  The loader of [cik_filter.py] does what the specification says
    of every row: the set holds exactly the zero-padded digits of the first
    fields that have a digit; a row with no digit in its first field, an
    empty row and a missing file add nothing. *)
Theorem cik_filter_load_rows (rows : list Row) (x : string) :
  In x (CikFilter.load_cik_list (Some rows)) <->
  exists field rest,
    In (field :: rest) rows /\ str_filter is_digit field <> "" /\
    x = zfill 10 (str_filter is_digit field).
Proof.
  unfold CikFilter.load_cik_list. rewrite filter_fold_In. simpl.
  split; [intros [[]|H]; exact H | auto].
Qed.

Example cik_filter_padding :
  CikFilter.load_cik_list (Some [["123456"]]) = ["0000123456"] /\
  CikFilter.load_cik_list (Some [["0000123456"]]) = ["0000123456"] /\
  CikFilter.load_cik_list (Some [["cik"; "ticker"]; ["123456"; "AAA"]; ["789"; "BBB"]])
  = ["0000123456"; "0000000789"].
Proof. repeat split. Qed.

(** C6.  The loader of [cik_loader.py] pads the stripped first field as
    it is: on the rows of the repository's own test file (a header row
    and two data rows) and on a field with a separator it keeps the
    non-digit characters and the header row, where the loader of
    [cik_filter.py] drops them. *)
Theorem cik_loader_keeps_non_digits :
  CikLoader.load_cik_list (Some [["cik"; "ticker"]; ["123456"; "AAA"]; ["789"; "BBB"]])
  = ["0000000cik"; "0000123456"; "0000000789"] /\
  CikFilter.load_cik_list (Some [["cik"; "ticker"]; ["123456"; "AAA"]; ["789"; "BBB"]])
  = ["0000123456"; "0000000789"] /\
  CikLoader.load_cik_list (Some [["CIK-123456"]]) = ["CIK-123456"] /\
  CikFilter.load_cik_list (Some [["CIK-123456"]]) = ["0000123456"].
Proof. repeat split. Qed.

(* ================================================================== *)
(** * The registry and the selection engine *)
(* ================================================================== *)

Module SelectionFacts.
Import SpecFM.

Lemma has_key_true (k : Key) (c : FilingCandidate) :
  has_key k c = true <-> key_of c = Some k.
Proof.
  unfold has_key. destruct (key_of c) as [k'|].
  - destruct (key_eq_dec k k') as [->|Hne]; split; congruence.
  - split; discriminate.
Qed.

Lemma insert_keys (k : Key) (c : FilingCandidate) (r : Registry) :
  map fst (insert k c r) = map fst r \/
  (~ In k (map fst r) /\ map fst (insert k c r) = (map fst r ++ [k])%list).
Proof.
  induction r as [|[k' cs] r IH]; simpl.
  - right. split; [tauto | reflexivity].
  - destruct (key_eq_dec k k') as [->|Hne]; simpl.
    + left. reflexivity.
    + destruct IH as [IH|[Hnin IH]].
      * left. congruence.
      * right. split; [intros [H|H]; [congruence | contradiction] | congruence].
Qed.

Lemma insert_In (k : Key) (c : FilingCandidate) (r : Registry) k' cs' :
  In (k', cs') (insert k c r) ->
  (k' = k /\ (cs' = [c] \/ exists cs, In (k, cs) r /\ cs' = (cs ++ [c])%list)) \/
  In (k', cs') r.
Proof.
  induction r as [|[k0 cs0] r IH]; simpl.
  - intros [H|[]]. injection H as <- <-. left. auto.
  - destruct (key_eq_dec k k0) as [->|Hne]; simpl.
    + intros [H|H]; [|right; right; exact H].
      injection H as <- <-. left. split; [reflexivity|].
      right. exists cs0. auto.
    + intros [H|H]; [right; left; exact H|].
      destruct (IH H) as [(-> & [->|(cs & Hin & ->)])|Hin].
      * left. auto.
      * left. split; [reflexivity|]. right. exists cs. auto.
      * right. right. exact Hin.
Qed.

Lemma insert_wf (k : Key) (c : FilingCandidate) (r : Registry) :
  key_of c = Some k -> wf r -> wf (insert k c r).
Proof.
  intros Hk [Hnd Hg]. split.
  - destruct (insert_keys k c r) as [->|[Hnin ->]]; [exact Hnd|].
    apply NoDup_app; [exact Hnd | repeat constructor; tauto |].
    intros x Hx [<-|[]]. contradiction.
  - intros k' cs' Hin. destruct (insert_In _ _ _ _ _ Hin) as [(-> & [->|(cs & Hc & ->)])|H].
    + split; [discriminate|]. intros c' [<-|[]]. exact Hk.
    + split; [intros E; apply app_eq_nil in E; destruct E; discriminate|].
      intros c' Hc'. apply in_app_iff in Hc'. destruct Hc' as [Hc'|[<-|[]]].
      * exact (proj2 (Hg _ _ Hc) _ Hc').
      * exact Hk.
    + exact (Hg _ _ H).
Qed.

Lemma add_wf (r : Registry) (c : FilingCandidate) : wf r -> wf (add r c).
Proof.
  unfold add. destruct (key_of c) as [k|] eqn:Hk; [|auto].
  apply insert_wf. exact Hk.
Qed.

Lemma fold_add_wf (adds : list FilingCandidate) (r : Registry) :
  wf r -> wf (fold_left add adds r).
Proof.
  revert r. induction adds as [|c adds IH]; intros r H; simpl; [exact H|].
  apply IH, add_wf, H.
Qed.

(** Every registry state satisfies the invariant. *)
Lemma registry_of_wf (adds : list FilingCandidate) : wf (registry_of adds).
Proof.
  apply fold_add_wf. split; [constructor | intros k cs []].
Qed.

(** ** One group *)

Lemma in_bucket_cases (c : FilingCandidate) :
  in_bucket Annual c = false -> in_bucket Quarterly c = false ->
  in_bucket Other c = true.
Proof. unfold in_bucket. destruct (bucket_of (form_type c)); simpl; congruence. Qed.

Lemma chosen_In (cs : list FilingCandidate) (c : FilingCandidate) :
  chosen cs = Some c -> In c cs /\ in_bucket (winning_bucket cs) c = true.
Proof. unfold chosen. apply find_some. Qed.

(** A group with a candidate always has a chosen one. *)
Lemma chosen_exists (cs : list FilingCandidate) :
  cs <> [] -> exists c, chosen cs = Some c.
Proof.
  intros Hne. unfold chosen.
  destruct (find (in_bucket (winning_bucket cs)) cs) as [c|] eqn:Hf; [eauto|].
  exfalso. pose proof (find_none _ _ Hf) as Hnone.
  unfold winning_bucket in Hnone.
  destruct (existsb (in_bucket Annual) cs) eqn:Ha.
  - apply existsb_exists in Ha. destruct Ha as (x & Hx & Hb).
    rewrite (Hnone x Hx) in Hb. discriminate.
  - destruct (existsb (in_bucket Quarterly) cs) eqn:Hq.
    + apply existsb_exists in Hq. destruct Hq as (x & Hx & Hb).
      rewrite (Hnone x Hx) in Hb. discriminate.
    + destruct cs as [|x cs]; [congruence|].
      assert (Hx : In x (x :: cs)) by (left; reflexivity).
      pose proof (in_bucket_cases x) as Hc.
      rewrite (Hnone x Hx) in Hc. 
      assert (in_bucket Annual x = false).
      { destruct (in_bucket Annual x) eqn:E; [|reflexivity].
        assert (existsb (in_bucket Annual) (x :: cs) = true)
          by (apply existsb_exists; eauto). congruence. }
      assert (in_bucket Quarterly x = false).
      { destruct (in_bucket Quarterly x) eqn:E; [|reflexivity].
        assert (existsb (in_bucket Quarterly) (x :: cs) = true)
          by (apply existsb_exists; eauto). congruence. }
      specialize (Hc ltac:(assumption) ltac:(assumption)). discriminate.
Qed.

Lemma not_chosen_filter (c : FilingCandidate) (cs : list FilingCandidate) (x : FilingCandidate) :
  In x (filter (fun c' => if candidate_eq_dec c' c then false else true) cs) <->
  In x cs /\ x <> c.
Proof.
  rewrite filter_In. destruct (candidate_eq_dec x c); split; intros [H1 H2];
    split; auto; congruence.
Qed.

(** What [select_group] does with a non-empty group. *)
Lemma select_group_spec (cs : list FilingCandidate) :
  cs <> [] ->
  exists c,
    chosen cs = Some c /\ In c cs /\
    fst (select_group cs) = [c] /\
    (forall x, In x (snd (select_group cs)) <-> In x cs /\ x <> c).
Proof.
  intros Hne. destruct (chosen_exists cs Hne) as (c & Hc).
  exists c. unfold select_group. rewrite Hc. simpl.
  split; [reflexivity|]. split; [apply (chosen_In _ _ Hc)|].
  split; [reflexivity|]. intros x. apply not_chosen_filter.
Qed.

Lemma select_group_sub (cs : list FilingCandidate) (x : FilingCandidate) :
  In x (fst (select_group cs)) \/ In x (snd (select_group cs)) -> In x cs.
Proof.
  unfold select_group. destruct (chosen cs) as [c|] eqn:Hc; simpl.
  - intros [[<-|[]]|H]; [apply (chosen_In _ _ Hc)|].
    apply not_chosen_filter in H. tauto.
  - intros [[]|H]; exact H.
Qed.

(** ** The whole registry, group by group *)

Lemma filter_all (A : Type) (p : A -> bool) (l : list A) :
  (forall x, In x l -> p x = true) -> filter p l = l.
Proof.
  induction l as [|a l IH]; simpl; intros H; [reflexivity|].
  rewrite (H a (or_introl eq_refl)). f_equal. apply IH. auto.
Qed.

Lemma filter_none (A : Type) (p : A -> bool) (l : list A) :
  (forall x, In x l -> p x = false) -> filter p l = [].
Proof.
  induction l as [|a l IH]; simpl; intros H; [reflexivity|].
  rewrite (H a (or_introl eq_refl)). apply IH. auto.
Qed.

Lemma filter_flat_map_none (k : Key) (r : Registry)
  (pick : list FilingCandidate -> list FilingCandidate) :
  (forall cs x, In x (pick cs) -> In x cs) ->
  ~ In k (map fst r) ->
  (forall k' cs, In (k', cs) r -> forall c, In c cs -> key_of c = Some k') ->
  filter (has_key k) (flat_map (fun g => pick (snd g)) r) = [].
Proof.
  intros Hsub Hnin Hkeys. apply filter_none. intros x Hx.
  apply in_flat_map in Hx. destruct Hx as ([k' cs] & Hg & Hx). simpl in Hx.
  destruct (has_key k x) eqn:E; [|reflexivity].
  apply has_key_true in E.
  rewrite (Hkeys k' cs Hg x (Hsub _ _ Hx)) in E. injection E as ->.
  exfalso. apply Hnin. apply (in_map fst) in Hg. exact Hg.
Qed.

Lemma filter_flat_map_group (k : Key) (cs : list FilingCandidate) (r : Registry)
  (pick : list FilingCandidate -> list FilingCandidate) :
  (forall cs x, In x (pick cs) -> In x cs) ->
  wf r -> In (k, cs) r ->
  filter (has_key k) (flat_map (fun g => pick (snd g)) r) = pick cs.
Proof.
  intros Hsub. induction r as [|[k0 cs0] r IH]; intros [Hnd Hg] Hin; [destruct Hin|].
  simpl. rewrite filter_app. simpl in Hnd. inversion Hnd as [|? ? Hnin Hnd']; subst.
  assert (Hkeys : forall k' cs', In (k', cs') r ->
            forall c, In c cs' -> key_of c = Some k')
    by (intros k' cs' H; apply (Hg k' cs'); right; exact H).
  destruct Hin as [E|Hin].
  - injection E as -> ->.
    rewrite (filter_flat_map_none k r pick Hsub Hnin Hkeys), app_nil_r.
    apply filter_all. intros x Hx. apply has_key_true.
    apply (proj2 (Hg k cs (or_introl eq_refl))). apply Hsub. exact Hx.
  - rewrite IH; [| split; [exact Hnd' | intros k' cs' H; apply Hg; right; exact H] | exact Hin].
    rewrite filter_none; [reflexivity|].
    intros x Hx. destruct (has_key k x) eqn:E; [|reflexivity].
    apply has_key_true in E.
    rewrite (proj2 (Hg k0 cs0 (or_introl eq_refl)) x (Hsub _ _ Hx)) in E.
    injection E as ->. exfalso. apply Hnin.
    apply (in_map fst) in Hin. exact Hin.
Qed.

(** The part of [process] and of [skip] that belongs to a group is what
    [select_group] makes of that group. *)
Lemma select_by_group (adds : list FilingCandidate) (k : Key) (cs : list FilingCandidate) :
  In (k, cs) (groups (registry_of adds)) ->
  filter (has_key k) (sel_process (select (registry_of adds))) = fst (select_group cs) /\
  filter (has_key k) (sel_skip (select (registry_of adds))) = snd (select_group cs).
Proof.
  intros Hin. pose proof (registry_of_wf adds) as Hwf. unfold select, groups in *. simpl.
  split.
  - apply (filter_flat_map_group k cs _ (fun cs => fst (select_group cs))); auto.
    intros cs' x Hx. apply select_group_sub. left. exact Hx.
  - apply (filter_flat_map_group k cs _ (fun cs => snd (select_group cs))); auto.
    intros cs' x Hx. apply select_group_sub. right. exact Hx.
Qed.

Lemma group_nonempty (adds : list FilingCandidate) (k : Key) (cs : list FilingCandidate) :
  In (k, cs) (groups (registry_of adds)) -> cs <> [].
Proof. intros Hin. apply (proj2 (registry_of_wf adds) k cs Hin). Qed.

End SelectionFacts.

(* ================================================================== *)
(** * The loops of [ZipProcessor], for any filing manager *)
(* ================================================================== *)

Section LoopFacts.

Context (cfg : Settings) (w : World) {FM : FilingManager}.

(** ** [process_zip_file] *)

Lemma zip_loop_closed_form (zip_path temp_path : Path) (cik_filter : option (list string))
  (text_files : list string) (stats : ZipStat.t) :
  let dispatched := filter (fun f => negb (zip_continue cik_filter f)) text_files in
  let attempt := zip_attempt w zip_path temp_path in
  let final := fold_left (zip_step w zip_path temp_path cik_filter) text_files stats in
  ZipStat.zip_file final = ZipStat.zip_file stats /\
  ZipStat.total_files final = ZipStat.total_files stats /\
  ZipStat.processed final =
    ZipStat.processed stats + List.length (filter (fun f => succeeded (attempt f)) dispatched) /\
  ZipStat.failed final =
    ZipStat.failed stats +
    List.length (filter (fun f => negb (succeeded (attempt f))) dispatched) /\
  ZipStat.errors final =
    (ZipStat.errors stats ++ flat_map (fun f => zip_failure_entry f (attempt f)) dispatched)%list.
Proof.
  revert stats. induction text_files as [|f fs IH]; intros stats; simpl.
  - rewrite app_nil_r. repeat split; lia.
  - specialize (IH (zip_step w zip_path temp_path cik_filter stats f)).
    simpl in IH. destruct IH as (Hz & Ht & Hp & Hf & He).
    rewrite Hz, Ht, Hp, Hf, He. clear Hz Ht Hp Hf He.
    unfold zip_step. destruct (zip_continue cik_filter f); simpl.
    + repeat split.
    + destruct (zip_attempt w zip_path temp_path f) as [[|]|e]; simpl;
        rewrite <- ?app_assoc; repeat split; lia.
Qed.

(** ** [process_directory] *)

Lemma insert_sorted_length (x : string) (l : list string) :
  List.length (insert_sorted x l) = S (List.length l).
Proof.
  induction l as [|y l IH]; simpl; [reflexivity|].
  destruct (String.leb x y); simpl; congruence.
Qed.

Lemma sorted_length (l : list string) : List.length (sorted l) = List.length l.
Proof.
  induction l as [|x l IH]; simpl; [reflexivity|].
  rewrite insert_sorted_length. congruence.
Qed.

Lemma directory_loop_closed_form (cik_filter : option (list string))
  (zips : list Path) (o : Overall.t) :
  let final := fold_left (directory_step cfg w cik_filter) zips o in
  Overall.total_zips final = Overall.total_zips o /\
  Overall.zip_stats final =
    (Overall.zip_stats o ++ map (fun z => process_zip_file cfg w z cik_filter) zips)%list /\
  Overall.total_files final =
    Overall.total_files o +
    list_sum (map (fun z => ZipStat.total_files (process_zip_file cfg w z cik_filter)) zips) /\
  Overall.processed final =
    Overall.processed o +
    list_sum (map (fun z => ZipStat.processed (process_zip_file cfg w z cik_filter)) zips) /\
  Overall.failed final =
    Overall.failed o +
    list_sum (map (fun z => ZipStat.failed (process_zip_file cfg w z cik_filter)) zips).
Proof.
  revert o. induction zips as [|z zs IH]; intros o; simpl.
  - rewrite app_nil_r. repeat split; lia.
  - specialize (IH (directory_step cfg w cik_filter o z)). simpl in IH.
    destruct IH as (Hz & Hs & Ht & Hp & Hf).
    rewrite Hz, Hs, Ht, Hp, Hf. simpl. rewrite <- app_assoc. simpl.
    repeat split; lia.
Qed.

(** ** [process_mixed_directory] *)

Lemma mixed_process_closed_form (resolver : option Path) (zip_text_files fps : list Path)
  (stats : Mixed.t) :
  let outcome := fun fp => extract_from_file w fp resolver in
  let final := fold_left (mixed_process_step w resolver zip_text_files) fps stats in
  Mixed.skipped_10q final = Mixed.skipped_10q stats /\
  Mixed.total_files (Mixed.combined final) = Mixed.total_files (Mixed.combined stats) /\
  Mixed.processed (Mixed.combined final) =
    Mixed.processed (Mixed.combined stats) +
    List.length (filter (fun fp => succeeded (outcome fp)) fps) /\
  Mixed.failed (Mixed.combined final) =
    Mixed.failed (Mixed.combined stats) +
    List.length (filter (fun fp => negb (succeeded (outcome fp))) fps) /\
  Mixed.errors final =
    (Mixed.errors stats ++ flat_map (fun fp => mixed_failure_entry fp (outcome fp)) fps)%list.
Proof.
  revert stats. induction fps as [|fp fps IH]; intros stats; simpl.
  - rewrite app_nil_r. repeat split; lia.
  - specialize (IH (mixed_process_step w resolver zip_text_files stats fp)).
    simpl in IH. destruct IH as (Hs & Ht & Hp & Hf & He).
    rewrite Hs, Ht, Hp, Hf, He. clear Hs Ht Hp Hf He.
    unfold mixed_process_step.
    destruct (extract_from_file w fp resolver) as [[|]|e]; simpl;
      rewrite <- ?app_assoc; repeat split; lia.
Qed.

Lemma count_skipped_closed_form (fps : list Path) (stats : Mixed.t) :
  let final := fold_left count_skipped_step fps stats in
  Mixed.skipped_10q final =
    Mixed.skipped_10q stats +
    List.length (filter (fun fp => form_startswith (snd (_parse_filename_metadata fp)) "10-Q")
                        fps) /\
  Mixed.zip_results final = Mixed.zip_results stats /\
  Mixed.text_results final = Mixed.text_results stats /\
  Mixed.combined final = Mixed.combined stats /\
  Mixed.errors final = Mixed.errors stats.
Proof.
  revert stats. induction fps as [|fp fps IH]; intros stats; simpl.
  - repeat split; lia.
  - specialize (IH (count_skipped_step stats fp)). simpl in IH.
    destruct IH as (Hs & Hz & Ht & Hc & He).
    rewrite Hs, Hz, Ht, Hc, He. clear Hs Hz Ht Hc He.
    unfold count_skipped_step.
    destruct (_parse_filename_metadata fp) as [[cik year] ft]. simpl.
    destruct (form_startswith ft "10-Q"); simpl; repeat split; lia.
Qed.

(** The skipped-quarterly counter of a run, for any filing manager. *)
Lemma skipped_10q_counts (input_dir : Directory) (resolve_references : bool)
  (cik_filter : option (list string)) (zip_text_files loose_files : list Path) :
  Mixed.skipped_10q
    (process_discovered w input_dir resolve_references cik_filter zip_text_files loose_files)
  = List.length
      (filter (fun fp => form_startswith (snd (_parse_filename_metadata fp)) "10-Q")
              (to_skip cik_filter
                 (filter_and_dedupe cik_filter zip_text_files ++
                  filter_and_dedupe cik_filter loose_files)%list)).
Proof.
  unfold process_discovered.
  match goal with
  | |- Mixed.skipped_10q (fold_left count_skipped_step ?l ?s) = _ =>
      destruct (count_skipped_closed_form l s) as (-> & _)
  end.
  match goal with
  | |- Mixed.skipped_10q (fold_left (mixed_process_step w ?r ?z) ?l ?s) + _ = _ =>
      destruct (mixed_process_closed_form r z l s) as (-> & _)
  end.
  reflexivity.
Qed.

End LoopFacts.

Lemma filter_split_length (A : Type) (p : A -> bool) (l : list A) :
  List.length (filter p l) + List.length (filter (fun x => negb (p x)) l) = List.length l.
Proof.
  induction l as [|a l IH]; simpl; [reflexivity|].
  destruct (p a); simpl; lia.
Qed.

(** C9.  Every candidate handed to the content extractor is accounted
    for, in [process_zip_file] and in [process_mixed_directory] alike: a
    raised error or a falsy result adds one to the failed counter and
    appends one failure entry that names the file (with the error message
    when one was raised), a truthy result adds one to the processed
    counter, and the loop goes on to the next candidate, so that the
    counters add up to the number of candidates dispatched and the error
    list is, in order, the failure entries of the failing ones. *)
Theorem extraction_failures_are_recorded
  (cfg : Settings) (w : World) (FM : FilingManager)
  (zip_path : Path) (file_list : list string)
  (input_dir : Directory) (resolve_references : bool) (cik_filter : option (list string)) :
  (open_zip w zip_path = Opened file_list ->
   let dispatched :=
     filter (fun f => negb (zip_continue cik_filter f))
            (zip_name_filter cik_filter (filter (has_valid_extension cfg) file_list)) in
   let attempt := zip_attempt w zip_path (temporary_directory w zip_path) in
   let stats := process_zip_file cfg w zip_path cik_filter in
   ZipStat.failed stats =
     List.length (filter (fun f => negb (succeeded (attempt f))) dispatched) /\
   ZipStat.processed stats =
     List.length (filter (fun f => succeeded (attempt f)) dispatched) /\
   ZipStat.processed stats + ZipStat.failed stats = List.length dispatched /\
   ZipStat.errors stats = flat_map (fun f => zip_failure_entry f (attempt f)) dispatched)
  /\
  (let dispatched := to_process cik_filter (all_text_files_of cfg w input_dir cik_filter) in
   let outcome := fun fp =>
     extract_from_file w fp
       (if resolve_references then Some (dir_path input_dir) else None) in
   let stats := process_mixed_directory cfg w input_dir resolve_references cik_filter in
   Mixed.failed (Mixed.combined stats) =
     List.length (filter (fun fp => negb (succeeded (outcome fp))) dispatched) /\
   Mixed.processed (Mixed.combined stats) =
     List.length (filter (fun fp => succeeded (outcome fp)) dispatched) /\
   Mixed.processed (Mixed.combined stats) + Mixed.failed (Mixed.combined stats)
     = List.length dispatched /\
   Mixed.errors stats = flat_map (fun fp => mixed_failure_entry fp (outcome fp)) dispatched).
Proof.
  split.
  - intros Hopen. unfold process_zip_file. rewrite Hopen.
    match goal with
    | |- context [fold_left (zip_step w ?z ?t ?c) ?l ?s] =>
        destruct (zip_loop_closed_form w z t c l s) as (_ & _ & Hp & Hf & He)
    end.
    simpl in Hp, Hf, He. cbv zeta. rewrite Hp, Hf, He.
    repeat split. apply filter_split_length.
  - unfold process_mixed_directory, process_discovered, all_text_files_of.
    match goal with
    | |- context [fold_left count_skipped_step ?l ?s] =>
        destruct (count_skipped_closed_form l s) as (_ & _ & _ & Hc & He)
    end.
    cbv zeta. rewrite Hc, He. clear Hc He.
    match goal with
    | |- context [fold_left (mixed_process_step w ?r ?z) ?l ?s] =>
        destruct (mixed_process_closed_form w r z l s) as (_ & _ & Hp & Hf & He)
    end.
    simpl in Hp, Hf, He. rewrite Hp, Hf, He.
    repeat split. apply filter_split_length.
Qed.

(** C10.  For every input directory and identifier filter, the overall
    statistics of [process_directory] agree with the per-archive ones:
    [total_zips] is the number of entries of [zip_stats], and
    [total_files], [processed] and [failed] are the sums of the same
    fields over those entries. *)
Theorem directory_totals_are_sums
  (cfg : Settings) (w : World) (FM : FilingManager)
  (input_dir : Directory) (cik_filter : option (list string)) :
  let overall_stats := process_directory cfg w input_dir cik_filter in
  Overall.total_zips overall_stats = List.length (Overall.zip_stats overall_stats) /\
  Overall.total_files overall_stats =
    list_sum (map ZipStat.total_files (Overall.zip_stats overall_stats)) /\
  Overall.processed overall_stats =
    list_sum (map ZipStat.processed (Overall.zip_stats overall_stats)) /\
  Overall.failed overall_stats =
    list_sum (map ZipStat.failed (Overall.zip_stats overall_stats)).
Proof.
  unfold process_directory. cbv zeta.
  match goal with
  | |- context [fold_left (directory_step cfg w ?c) ?l ?o] =>
      destruct (directory_loop_closed_form cfg w c l o) as (Hz & Hs & Ht & Hp & Hf)
  end.
  simpl in Hz, Hs, Ht, Hp, Hf. rewrite Hz, Hs, Ht, Hp, Hf.
  rewrite !map_map, length_map, sorted_length. repeat split.
Qed.

(* ================================================================== *)
(** * The orchestrator on the filing manager of the specification *)
(* ================================================================== *)

Lemma dedupe_In (x : string) (l : list string) : In x (dedupe l) <-> In x l.
Proof.
  induction l as [|a l IH]; simpl; [tauto|].
  rewrite filter_In, IH. destruct (String.eqb_spec x a) as [->|Hne]; simpl.
  - split; auto.
  - split; [intros [H|[H _]]; auto | intros [H|H]; [congruence | auto]].
Qed.

Lemma NoDup_filter (A : Type) (p : A -> bool) (l : list A) :
  NoDup l -> NoDup (filter p l).
Proof.
  induction 1 as [|a l Hnin Hnd IH]; simpl; [constructor|].
  destruct (p a); [constructor|]; auto.
  rewrite filter_In. tauto.
Qed.

Lemma dedupe_NoDup (l : list string) : NoDup (dedupe l).
Proof.
  induction l as [|a l IH]; simpl; constructor.
  - rewrite filter_In, String.eqb_refl. simpl. intros [_ H]. discriminate.
  - apply NoDup_filter, IH.
Qed.

Lemma dedupe_fixed (l : list string) : NoDup l -> dedupe l = l.
Proof.
  induction 1 as [|a l Hnin Hnd IH]; simpl; [reflexivity|].
  rewrite IH. f_equal. apply SelectionFacts.filter_all.
  intros x Hx. destruct (String.eqb_spec x a) as [->|]; [contradiction | reflexivity].
Qed.

Section OnSpecManager.

Context (parse_fiscal_year : string -> option Z)
        (parse_other_form : string -> option string).

Local Abbreviation manager := (SpecFM.manager parse_fiscal_year parse_other_form).

(** Registration builds the registry of the registered candidates. *)
Lemma register_all_registry (cik_filter : option (list string)) (files : list Path) :
  register_all (FM := manager) cik_filter files =
  SpecFM.registry_of (registered_candidates (FM := manager) cik_filter files).
Proof.
  unfold register_all, SpecFM.registry_of. simpl.
  generalize SpecFM.empty as r.
  induction files as [|fp files IH]; intros r; simpl; [reflexivity|].
  unfold registered_candidates in *. simpl.
  rewrite fold_left_app, IH. f_equal.
  unfold register_step.
  destruct (registration cik_filter fp) as [[[cik year] ft]|]; reflexivity.
Qed.

Lemma insert_members (k : SpecFM.Key) (c : SpecFM.FilingCandidate) (r : SpecFM.Registry)
  k' cs' x :
  In (k', cs') (SpecFM.insert k c r) -> In x cs' ->
  x = c \/ exists cs, In (k', cs) r /\ In x cs.
Proof.
  intros Hin Hx. destruct (SelectionFacts.insert_In _ _ _ _ _ Hin)
    as [(-> & [->|(cs & Hc & ->)])|H].
  - destruct Hx as [<-|[]]. left. reflexivity.
  - apply in_app_iff in Hx. destruct Hx as [Hx|[<-|[]]]; [right; eauto | left; reflexivity].
  - right. eauto.
Qed.

Lemma fold_add_members (adds : list SpecFM.FilingCandidate) (r : SpecFM.Registry) k cs x :
  In (k, cs) (fold_left SpecFM.add adds r) -> In x cs ->
  In x adds \/ exists cs0, In (k, cs0) r /\ In x cs0.
Proof.
  revert r. induction adds as [|c adds IH]; intros r Hin Hx; simpl in *.
  - right. eauto.
  - destruct (IH _ Hin Hx) as [H|(cs0 & Hc0 & Hx0)]; [auto|].
    unfold SpecFM.add in Hc0. destruct (SpecFM.key_of c) as [kc|]; [|right; eauto].
    destruct (insert_members _ _ _ _ _ _ Hc0 Hx0) as [->|H]; auto.
Qed.

(** The selection only holds candidates that were added. *)
Lemma select_sub_adds (adds : list SpecFM.FilingCandidate) (x : SpecFM.FilingCandidate) :
  In x (SpecFM.sel_process (SpecFM.select (SpecFM.registry_of adds))) \/
  In x (SpecFM.sel_skip (SpecFM.select (SpecFM.registry_of adds))) ->
  In x adds.
Proof.
  unfold SpecFM.select, SpecFM.groups. simpl. rewrite !in_flat_map.
  intros H.
  assert (Hg : exists k cs, In (k, cs) (SpecFM.registry_of adds) /\ In x cs).
  { destruct H as [([k cs] & Hin & Hx)|([k cs] & Hin & Hx)]; exists k, cs;
      (split; [exact Hin | apply SelectionFacts.select_group_sub; simpl in Hx; auto]). }
  destruct Hg as (k & cs & Hin & Hx).
  destruct (fold_add_members adds SpecFM.empty k cs x Hin Hx) as [H1|(cs0 & [] & _)].
  exact H1.
Qed.

Lemma registered_candidate_path (cik_filter : option (list string)) (files : list Path)
  (c : SpecFM.FilingCandidate) :
  In c (registered_candidates (FM := manager) cik_filter files) ->
  In (SpecFM.path c) (registered_paths (FM := manager) cik_filter files).
Proof.
  unfold registered_candidates, registered_paths. rewrite in_flat_map, filter_In.
  intros (fp & Hfp & Hc).
  destruct (registration cik_filter fp) as [[[cik year] ft]|] eqn:Hr; [|destruct Hc].
  destruct Hc as [<-|[]]. simpl. rewrite Hr. auto.
Qed.

(** Whatever the run processes or skips was handed to [add_filing]. *)
Lemma selected_were_registered (cik_filter : option (list string)) (files : list Path)
  (fp : Path) :
  In fp (to_process (FM := manager) cik_filter files) \/
  In fp (to_skip (FM := manager) cik_filter files) ->
  In fp (registered_paths (FM := manager) cik_filter files).
Proof.
  unfold to_process, to_skip, mixed_selection. rewrite !dedupe_In.
  rewrite register_all_registry. simpl. rewrite !in_map_iff.
  intros [(c & <- & Hc)|(c & <- & Hc)]; apply registered_candidate_path;
    apply select_sub_adds; auto.
Qed.

End OnSpecManager.

(** ** Paths of files in a directory *)

Lemma contains_slash_append (dir name : string) :
  contains (dir ++ "/" ++ name) "/" = true.
Proof.
  induction dir as [|c dir IH]; simpl.
  - reflexivity.
  - simpl in IH. rewrite IH. apply orb_true_r.
Qed.

(** The name of [dir/name] is [name] when [name] has no separator. *)
Lemma path_name_join (dir name : string) :
  contains name "/" = false -> path_name (path_join dir name) = name.
Proof.
  intros Hn. unfold path_join.
  assert (Hs : startswith name "/" = false).
  { destruct name as [|c name]; [reflexivity|].
    simpl in Hn |- *. apply orb_false_elim in Hn. tauto. }
  rewrite Hs. induction dir as [|c dir IH].
  - simpl. rewrite Hn. reflexivity.
  - change (path_name (String c (dir ++ "/" ++ name)) = name).
    simpl. pose proof (contains_slash_append dir name) as Hc. simpl in Hc.
    rewrite Hc. exact IH.
Qed.

Lemma append_cancel_l (a b c : string) : a ++ b = a ++ c -> b = c.
Proof. induction a; simpl; intros H; [exact H | injection H; auto]. Qed.

Lemma path_join_inj (dir n1 n2 : string) :
  startswith n1 "/" = false -> startswith n2 "/" = false ->
  path_join dir n1 = path_join dir n2 -> n1 = n2.
Proof.
  unfold path_join. intros -> -> H. apply append_cancel_l in H.
  injection H. auto.
Qed.

Section QuarterlyScenario.

Context (parse_fiscal_year : string -> option Z)
        (parse_other_form : string -> option string)
        (dir : Path) (y : Z).

Local Abbreviation manager := (SpecFM.manager parse_fiscal_year parse_other_form).
Local Abbreviation annual_name := Scenario.annual_name.
Local Abbreviation quarterly_name := Scenario.quarterly_name.
Local Abbreviation pk := (path_join dir Scenario.annual_name).
Local Abbreviation pq := (path_join dir Scenario.quarterly_name).
Local Abbreviation ck := (SpecFM.candidate (path_join dir Scenario.annual_name) "0000012345" y "10-K").
Local Abbreviation cq := (SpecFM.candidate (path_join dir Scenario.quarterly_name) "0000012345" y "10-Q").

Hypothesis year_truthy : y <> 0%Z.
Hypothesis year_annual : parse_fiscal_year annual_name = Some y.
Hypothesis year_quarterly : parse_fiscal_year quarterly_name = Some y.

Lemma scenario_paths_differ : pk <> pq.
Proof.
  intros H. apply path_join_inj in H; [discriminate H | reflexivity | reflexivity].
Qed.

Lemma scenario_parse_annual :
  _parse_filename_metadata (FilingManager := manager) pk
  = (Some "0000012345", Some y, Some "10-K").
Proof.
  cbn [_parse_filename_metadata SpecFM.manager]. unfold SpecFM.parse_filename_metadata.
  rewrite path_name_join by reflexivity. rewrite year_annual. reflexivity.
Qed.

Lemma scenario_parse_quarterly :
  _parse_filename_metadata (FilingManager := manager) pq
  = (Some "0000012345", Some y, Some "10-Q").
Proof.
  cbn [_parse_filename_metadata SpecFM.manager]. unfold SpecFM.parse_filename_metadata.
  rewrite path_name_join by reflexivity. rewrite year_quarterly. reflexivity.
Qed.

Lemma scenario_year_truthy : truthy_year (Some y) = true.
Proof. simpl. apply negb_true_iff, Z.eqb_neq, year_truthy. Qed.

Lemma scenario_registration_annual :
  registration (FM := manager) None pk = Some ("0000012345", y, "10-K").
Proof.
  unfold registration. rewrite scenario_parse_annual, scenario_year_truthy. reflexivity.
Qed.

Lemma scenario_registration_quarterly :
  registration (FM := manager) None pq = Some ("0000012345", y, "10-Q").
Proof.
  unfold registration. rewrite scenario_parse_quarterly, scenario_year_truthy. reflexivity.
Qed.

Lemma scenario_eq_kq : (if SpecFM.candidate_eq_dec cq ck then false else true) = true.
Proof. destruct (SpecFM.candidate_eq_dec cq ck) as [E|]; [discriminate E | reflexivity]. Qed.

Lemma scenario_eq_kk (c : SpecFM.FilingCandidate) :
  (if SpecFM.candidate_eq_dec c c then false else true) = false.
Proof. destruct (SpecFM.candidate_eq_dec c c); congruence. Qed.

Lemma scenario_key_refl (k : SpecFM.Key) (A : Type) (a b : A) :
  (if SpecFM.key_eq_dec k k then a else b) = a.
Proof. destruct (SpecFM.key_eq_dec k k); congruence. Qed.

Lemma scenario_registry (a b : SpecFM.FilingCandidate) :
  SpecFM.key_of a = Some ("0000012345", y) ->
  SpecFM.key_of b = Some ("0000012345", y) ->
  SpecFM.registry_of [a; b] = [(("0000012345", y), [a; b])].
Proof.
  intros Ha Hb. unfold SpecFM.registry_of, SpecFM.add. simpl fold_left.
  rewrite Ha, Hb. simpl SpecFM.insert. rewrite scenario_key_refl. reflexivity.
Qed.

Lemma scenario_select_group (cs : list SpecFM.FilingCandidate) :
  cs = [ck; cq] \/ cs = [cq; ck] -> SpecFM.select_group cs = ([ck], [cq]).
Proof.
  intros [-> | ->]; unfold SpecFM.select_group.
  - change (SpecFM.chosen [ck; cq]) with (Some ck).
    cbn [filter]. rewrite scenario_eq_kk, scenario_eq_kq. reflexivity.
  - change (SpecFM.chosen [cq; ck]) with (Some ck).
    cbn [filter]. rewrite scenario_eq_kk, scenario_eq_kq. reflexivity.
Qed.

(** The selection for the two files, whichever is discovered first. *)
Lemma scenario_selection (files : list Path) :
  files = [pk; pq] \/ files = [pq; pk] ->
  to_process (FM := manager) None files = [pk] /\ to_skip (FM := manager) None files = [pq].
Proof.
  unfold to_process, to_skip, mixed_selection.
  intros [-> | ->]; rewrite register_all_registry;
    unfold registered_candidates; cbn [flat_map];
    rewrite scenario_registration_annual, scenario_registration_quarterly;
    cbn [app];
    rewrite scenario_registry by reflexivity;
    cbn [_select_filings_to_process SpecFM.manager process skip];
    unfold SpecFM.select, SpecFM.groups;
    cbn [flat_map SpecFM.sel_process SpecFM.sel_skip snd];
    rewrite scenario_select_group by auto; split; reflexivity.
Qed.

Lemma scenario_dedupe (files : list Path) :
  files = [pk; pq] \/ files = [pq; pk] -> filter_and_dedupe None files = files.
Proof.
  pose proof scenario_paths_differ as Hne.
  intros [-> | ->]; unfold filter_and_dedupe; apply dedupe_fixed;
    repeat constructor; simpl; intuition congruence.
Qed.

Lemma scenario_counter (w : World) (input_dir : Directory) (resolve_references : bool)
  (files : list Path) :
  files = [pk; pq] \/ files = [pq; pk] ->
  Mixed.skipped_10q
    (process_discovered (FM := manager) w input_dir resolve_references None [] files) = 1.
Proof.
  intros Hf. rewrite skipped_10q_counts.
  rewrite (scenario_dedupe files Hf).
  change (filter_and_dedupe None [] ++ files)%list with files.
  rewrite (proj2 (scenario_selection files Hf)).
  cbn [filter]. rewrite scenario_parse_quarterly. reflexivity.
Qed.

End QuarterlyScenario.

(** C3.  In mixed-directory processing the skipped-quarterly counter is
    the number of paths of the [skip] set whose parsed form type is a
    10-Q.  For the two files [edgar_data_12345_10-K.txt] and
    [edgar_data_12345_10-Q.txt] of one directory, registered under the
    same fiscal year with no identifier filter, in either order of
    discovery: only the 10-K file is in [process], the 10-Q file is in
    [skip], and the counter is 1. *)
Theorem skipped_quarterly_counter
  (cfg : Settings) (w : World)
  (parse_fiscal_year : string -> option Z) (parse_other_form : string -> option string)
  (input_dir : Directory) (resolve_references : bool) (cik_filter : option (list string)) :
  Mixed.skipped_10q
    (process_mixed_directory (FM := SpecFM.manager parse_fiscal_year parse_other_form)
       cfg w input_dir resolve_references cik_filter)
  = List.length
      (filter
         (fun fp =>
            form_startswith
              (snd (_parse_filename_metadata
                      (FilingManager := SpecFM.manager parse_fiscal_year parse_other_form) fp))
              "10-Q")
         (to_skip (FM := SpecFM.manager parse_fiscal_year parse_other_form) cik_filter
            (all_text_files_of cfg w input_dir cik_filter)))
  /\
  forall (y : Z) (files : list Path),
    y <> 0%Z ->
    parse_fiscal_year "edgar_data_12345_10-K.txt" = Some y ->
    parse_fiscal_year "edgar_data_12345_10-Q.txt" = Some y ->
    files = [path_join (dir_path input_dir) "edgar_data_12345_10-K.txt";
             path_join (dir_path input_dir) "edgar_data_12345_10-Q.txt"] \/
    files = [path_join (dir_path input_dir) "edgar_data_12345_10-Q.txt";
             path_join (dir_path input_dir) "edgar_data_12345_10-K.txt"] ->
    to_process (FM := SpecFM.manager parse_fiscal_year parse_other_form) None files
      = [path_join (dir_path input_dir) "edgar_data_12345_10-K.txt"] /\
    to_skip (FM := SpecFM.manager parse_fiscal_year parse_other_form) None files
      = [path_join (dir_path input_dir) "edgar_data_12345_10-Q.txt"] /\
    Mixed.skipped_10q
      (process_discovered (FM := SpecFM.manager parse_fiscal_year parse_other_form)
         w input_dir resolve_references None [] files) = 1.
Proof.
  split.
  - unfold process_mixed_directory, all_text_files_of. apply skipped_10q_counts.
  - intros y files Hy Hk Hq Hf.
    destruct (scenario_selection parse_fiscal_year parse_other_form
                (dir_path input_dir) y Hy Hk Hq files Hf) as [Hp Hs].
    split; [exact Hp|]. split; [exact Hs|].
    exact (scenario_counter parse_fiscal_year parse_other_form
             (dir_path input_dir) y Hy Hk Hq w input_dir resolve_references files Hf).
Qed.

Lemma skipped_quarterly_counter_witness :
  (2020 <> 0)%Z /\
  Run.fiscal_2020 "edgar_data_12345_10-K.txt" = Some 2020%Z /\
  Run.fiscal_2020 "edgar_data_12345_10-Q.txt" = Some 2020%Z /\
  all_text_files_of Run.cfg Run.world Run.two_reports None
    = ["data/edgar_data_12345_10-K.txt"; "data/edgar_data_12345_10-Q.txt"] /\
  to_process (FM := Run.fm) None
    ["data/edgar_data_12345_10-K.txt"; "data/edgar_data_12345_10-Q.txt"]
    = ["data/edgar_data_12345_10-K.txt"] /\
  Mixed.skipped_10q
    (process_mixed_directory (FM := Run.fm) Run.cfg Run.world Run.two_reports true None) = 1.
Proof.
  split; [discriminate|]. split; [reflexivity|]. split; [reflexivity|].
  split; [reflexivity|].
  destruct (skipped_quarterly_counter Run.cfg Run.world Run.fiscal_2020 Run.no_other_form
              Run.two_reports true None) as [_ Hscen].
  destruct (Hscen 2020%Z
              ["data/edgar_data_12345_10-K.txt"; "data/edgar_data_12345_10-Q.txt"]
              ltac:(discriminate) eq_refl eq_refl (or_introl eq_refl)) as (Hp & _ & Hc).
  split; [exact Hp | exact Hc].
Defined.

(** X3.  Whatever the filing manager, the skipped-quarterly counter of a
    run is the number of paths of the [skip] set whose parsed form type
    starts with "10-Q". *)
Theorem skipped_counter_for_any_manager
  (cfg : Settings) (w : World) (FM : FilingManager)
  (input_dir : Directory) (resolve_references : bool) (cik_filter : option (list string)) :
  Mixed.skipped_10q (process_mixed_directory cfg w input_dir resolve_references cik_filter)
  = List.length
      (filter (fun fp => form_startswith (snd (_parse_filename_metadata fp)) "10-Q")
              (to_skip cik_filter (all_text_files_of cfg w input_dir cik_filter))).
Proof.
  unfold process_mixed_directory, all_text_files_of. apply skipped_10q_counts.
Qed.

(* ================================================================== *)
(** * The identifier filter of the combined mode *)
(* ================================================================== *)

Lemma quarterly_is_not_annual (form_type : option string) :
  form_startswith form_type "10-Q" = true ->
  truthy_opt form_type = true /\ form_startswith form_type "10-K" = false.
Proof.
  unfold form_startswith, truthy_opt. destruct form_type as [ft|]; [|discriminate].
  intros H. apply andb_prop in H. destruct H as [Ht Hq]. rewrite Ht. split; [reflexivity|].
  clear Ht. cbn [andb].
  destruct ft as [|a ft]; [discriminate Hq|]. cbn [startswith] in Hq |- *.
  destruct (Ascii.eqb "1" a); [|reflexivity]. cbn [andb] in Hq |- *.
  destruct ft as [|b ft]; [discriminate Hq|]. cbn [startswith] in Hq |- *.
  destruct (Ascii.eqb "0" b); [|reflexivity]. cbn [andb] in Hq |- *.
  destruct ft as [|c ft]; [discriminate Hq|]. cbn [startswith] in Hq |- *.
  destruct (Ascii.eqb "-" c); [|reflexivity]. cbn [andb] in Hq |- *.
  destruct ft as [|d ft]; [discriminate Hq|]. cbn [startswith] in Hq |- *.
  destruct (Ascii.eqb_spec "Q" d) as [<-|]; [reflexivity | discriminate Hq].
Qed.

Section FilterFacts.

Context {FM : FilingManager}.

(** A file the registration loop passes over leaves the manager as a run
    without that file would. *)
Lemma unregistered_is_invisible (cik_filter : option (list string)) (fp : Path)
  (files : list Path) (fm : fm_state) :
  registration cik_filter fp = None ->
  fold_left (register_step cik_filter) files fm =
  fold_left (register_step cik_filter) (filter (fun p => negb (String.eqb p fp)) files) fm.
Proof.
  intros Hnone. revert fm. induction files as [|p files IH]; intros fm; simpl; [reflexivity|].
  destruct (String.eqb_spec p fp) as [->|Hne]; simpl.
  - unfold register_step at 2. rewrite Hnone. apply IH.
  - apply IH.
Qed.

Lemma quarterly_not_registered (ciks : list string) (fp : Path) :
  form_startswith (snd (_parse_filename_metadata fp)) "10-Q" = true ->
  registration (Some ciks) fp = None.
Proof.
  unfold registration. destruct (_parse_filename_metadata fp) as [[cik year] ft]. simpl.
  intros H. destruct (quarterly_is_not_annual ft H) as [-> ->]. simpl.
  rewrite orb_true_r. reflexivity.
Qed.

End FilterFacts.

(** C4.  In the combined mode with an identifier filter, a candidate whose
    filer id is on the list but whose form type is a 10-Q (whatever else
    is filed for that filer and year) is passed over by the registration
    loop: [add_filing] is not called for it, it is not among the
    registered paths of any run, and the filing manager on which selection
    and extraction rest is the one of a run without the file; filtering on
    the identifier alone would have admitted it. *)
Theorem quarterly_excluded_under_filter
  (cfg : Settings) (w : World) (FM : FilingManager) (input_dir : Directory)
  (ciks : list string) (fp : Path) (cik : string) :
  _extract_cik_from_name (path_name fp) = Some cik ->
  set_mem cik ciks = true ->
  form_startswith (snd (_parse_filename_metadata fp)) "10-Q" = true ->
  registration (Some ciks) fp = None /\
  ~ In fp (registered_paths (Some ciks) (all_text_files_of cfg w input_dir (Some ciks))) /\
  (forall files,
      register_all (Some ciks) files =
      register_all (Some ciks) (filter (fun p => negb (String.eqb p fp)) files)) /\
  (forall files,
      mixed_selection (Some ciks) files =
      mixed_selection (Some ciks) (filter (fun p => negb (String.eqb p fp)) files)) /\
  identifier_only_match (Some ciks) fp = true.
Proof.
  intros Hcik Hmem Hq.
  pose proof (quarterly_not_registered ciks fp Hq) as Hnone.
  assert (Hinv : forall files,
             register_all (Some ciks) files =
             register_all (Some ciks) (filter (fun p => negb (String.eqb p fp)) files))
    by (intros files; apply unregistered_is_invisible; exact Hnone).
  split; [exact Hnone|]. split.
  - unfold registered_paths. rewrite filter_In. rewrite Hnone. intros [_ H]. discriminate.
  - split; [exact Hinv|]. split.
    + intros files. unfold mixed_selection. rewrite <- Hinv. reflexivity.
    + unfold identifier_only_match. rewrite Hcik. exact Hmem.
Qed.

Lemma quarterly_excluded_under_filter_witness :
  _extract_cik_from_name (path_name "data/edgar_data_123_10-Q.txt") = Some "0000000123" /\
  set_mem "0000000123" ["0000000123"] = true /\
  _match (Some ["0000000123"]) "data/edgar_data_123_10-Q.txt" = false /\
  all_text_files_of Run.cfg Run.world Run.lone_quarterly None
    = ["data/edgar_data_123_10-Q.txt"] /\
  all_text_files_of Run.cfg Run.world Run.lone_quarterly
    (Some ["0000000123"]) = [] /\
  registration (FM := Run.fm) (Some ["0000000123"]) "data/edgar_data_123_10-Q.txt" = None /\
  identifier_only_match (Some ["0000000123"]) "data/edgar_data_123_10-Q.txt" = true.
Proof.
  split; [reflexivity|]. split; [reflexivity|]. split; [reflexivity|].
  split; [reflexivity|]. split; [reflexivity|].
  destruct (quarterly_excluded_under_filter Run.cfg Run.world Run.fm Run.lone_quarterly
              ["0000000123"] "data/edgar_data_123_10-Q.txt" "0000000123"
              eq_refl eq_refl eq_refl) as (H1 & _ & _ & _ & H5).
  split; [exact H1 | exact H5].
Defined.

(** On the filing manager of the specification the excluded file is also
    cut by [_match], and it is in neither part of the selection. *)
Lemma quarterly_never_selected
  (parse_fiscal_year : string -> option Z) (parse_other_form : string -> option string)
  (ciks : list string) (fp : Path) (files : list Path) :
  form_startswith
    (snd (_parse_filename_metadata
            (FilingManager := SpecFM.manager parse_fiscal_year parse_other_form) fp))
    "10-Q" = true ->
  _match (Some ciks) fp = false /\
  ~ In fp (to_process (FM := SpecFM.manager parse_fiscal_year parse_other_form)
             (Some ciks) files) /\
  ~ In fp (to_skip (FM := SpecFM.manager parse_fiscal_year parse_other_form)
             (Some ciks) files).
Proof.
  intros Hq.
  pose proof (quarterly_not_registered
                (FM := SpecFM.manager parse_fiscal_year parse_other_form) ciks fp Hq) as Hnone.
  assert (Hsel : ~ In fp (registered_paths
                           (FM := SpecFM.manager parse_fiscal_year parse_other_form)
                           (Some ciks) files)).
  { unfold registered_paths. rewrite filter_In, Hnone. intros [_ H]. discriminate. }
  split.
  - simpl in Hq. unfold SpecFM.parse_filename_metadata, SpecFM.parse_form_type in Hq.
    simpl in Hq. unfold _match.
    destruct (_extract_cik_from_name (path_name fp)); [|reflexivity].
    destruct (_is_10k (path_name fp)); [discriminate Hq | apply andb_false_r].
  - split; intros H; apply Hsel;
      apply (selected_were_registered parse_fiscal_year parse_other_form); auto.
Qed.

(* ================================================================== *)
(** * Groups in discovery order *)
(* ================================================================== *)

Module GroupFacts.
Import SpecFM.

Lemma group_of_insert (k k' : Key) (c : FilingCandidate) (r : Registry) :
  group_of k' (insert k c r) =
  if key_eq_dec k' k then (group_of k' r ++ [c])%list else group_of k' r.
Proof.
  induction r as [|[k0 cs0] r IH]; simpl.
  - destruct (key_eq_dec k' k); reflexivity.
  - destruct (key_eq_dec k k0) as [->|Hne]; simpl.
    + destruct (key_eq_dec k' k0); reflexivity.
    + destruct (key_eq_dec k' k0) as [->|Hne'].
      * destruct (key_eq_dec k0 k); [congruence | reflexivity].
      * exact IH.
Qed.

Lemma group_of_add (k : Key) (c : FilingCandidate) (r : Registry) :
  group_of k (add r c) = (group_of k r ++ filter (has_key k) [c])%list.
Proof.
  unfold add. simpl. unfold has_key. destruct (key_of c) as [kc|].
  - rewrite group_of_insert. destruct (key_eq_dec k kc); [reflexivity|].
    symmetry. apply app_nil_r.
  - symmetry. apply app_nil_r.
Qed.

Lemma group_of_fold (k : Key) (adds : list FilingCandidate) (r : Registry) :
  group_of k (fold_left add adds r) = (group_of k r ++ filter (has_key k) adds)%list.
Proof.
  revert r. induction adds as [|c adds IH]; intros r.
  - simpl. symmetry. apply app_nil_r.
  - change (fold_left add (c :: adds) r) with (fold_left add adds (add r c)).
    rewrite IH, group_of_add, <- app_assoc, <- filter_app. reflexivity.
Qed.

(** The group of a key holds the candidates added under that key, in the
    order in which they were added. *)
Lemma group_of_registry (k : Key) (adds : list FilingCandidate) :
  group_of k (registry_of adds) = filter (has_key k) adds.
Proof. unfold registry_of. rewrite group_of_fold. reflexivity. Qed.

Lemma group_of_In (k : Key) (cs : list FilingCandidate) (r : Registry) :
  NoDup (map fst r) -> In (k, cs) r -> group_of k r = cs.
Proof.
  induction r as [|[k0 cs0] r IH]; simpl; intros Hnd Hin; [destruct Hin|].
  inversion Hnd as [|? ? Hnin Hnd']; subst.
  destruct Hin as [E|Hin].
  - injection E as -> ->. destruct (key_eq_dec k k); congruence.
  - destruct (key_eq_dec k k0) as [->|]; [|auto].
    exfalso. apply Hnin. apply (in_map fst) in Hin. exact Hin.
Qed.

Lemma group_of_found (k : Key) (r : Registry) :
  group_of k r <> [] -> In (k, group_of k r) r.
Proof.
  induction r as [|[k0 cs0] r IH]; simpl; [congruence|].
  destruct (key_eq_dec k k0) as [->|]; auto.
Qed.

(** The groups of a registry state, read off the sequence of [add]s. *)
Lemma groups_in_discovery_order (adds : list FilingCandidate) (k : Key)
  (cs : list FilingCandidate) :
  In (k, cs) (groups (registry_of adds)) <->
  cs = filter (has_key k) adds /\ cs <> [].
Proof.
  pose proof (SelectionFacts.registry_of_wf adds) as [Hnd Hg]. split.
  - intros Hin. split; [|apply (Hg k cs Hin)].
    rewrite <- group_of_registry. symmetry. apply group_of_In; assumption.
  - intros [-> Hne]. rewrite <- group_of_registry in *. apply group_of_found. exact Hne.
Qed.

(** [process] holds one candidate per key. *)
Lemma process_one_per_key (adds : list FilingCandidate) (c1 c2 : FilingCandidate) :
  In c1 (sel_process (select (registry_of adds))) ->
  In c2 (sel_process (select (registry_of adds))) ->
  key_of c1 = key_of c2 -> c1 = c2.
Proof.
  intros H1 H2 Hk.
  assert (Hgrp : forall c, In c (sel_process (select (registry_of adds))) ->
            exists k cs, In (k, cs) (groups (registry_of adds)) /\ key_of c = Some k).
  { intros c Hc. unfold select in Hc. simpl in Hc. apply in_flat_map in Hc.
    destruct Hc as ([k cs] & Hin & Hc). exists k, cs. split; [exact Hin|].
    apply (proj2 (SelectionFacts.registry_of_wf adds) k cs Hin).
    apply SelectionFacts.select_group_sub. left. exact Hc. }
  destruct (Hgrp c1 H1) as (k & cs & Hin & Hk1).
  destruct (SelectionFacts.select_by_group adds k cs Hin) as [HP _].
  destruct (SelectionFacts.select_group_spec cs (SelectionFacts.group_nonempty adds k cs Hin))
    as (c0 & _ & _ & Hfst & _).
  rewrite Hfst in HP.
  assert (E1 : In c1 [c0]).
  { rewrite <- HP. apply filter_In. split; [exact H1|].
    apply SelectionFacts.has_key_true. exact Hk1. }
  assert (E2 : In c2 [c0]).
  { rewrite <- HP. apply filter_In. split; [exact H2|].
    apply SelectionFacts.has_key_true. congruence. }
  destruct E1 as [<-|[]]. destruct E2 as [<-|[]]. reflexivity.
Qed.

(** Every key that was added has its chosen candidate in [process]. *)
Lemma process_has_every_key (adds : list FilingCandidate) (c : FilingCandidate) (k : Key) :
  In c adds -> key_of c = Some k ->
  exists c0, In c0 (sel_process (select (registry_of adds))) /\
             In c0 adds /\ key_of c0 = Some k.
Proof.
  intros Hc Hk.
  assert (Hin : In (k, filter (has_key k) adds) (groups (registry_of adds))).
  { apply groups_in_discovery_order. split; [reflexivity|].
    intros E. assert (H : In c (filter (has_key k) adds)).
    { apply filter_In. split; [exact Hc | apply SelectionFacts.has_key_true; exact Hk]. }
    rewrite E in H. destruct H. }
  destruct (SelectionFacts.select_group_spec _ (SelectionFacts.group_nonempty adds k _ Hin))
    as (c0 & _ & Hc0 & Hfst & _).
  apply filter_In in Hc0. destruct Hc0 as [Hc0 Hk0].
  exists c0. split; [|split; [exact Hc0 | apply SelectionFacts.has_key_true; exact Hk0]].
  unfold select. simpl. apply in_flat_map.
  exists (k, filter (has_key k) adds). split; [exact Hin|].
  simpl. rewrite Hfst. left. reflexivity.
Qed.

End GroupFacts.

(* ================================================================== *)
(** * The selection engine: rule A and the partition *)
(* ================================================================== *)

(** C1.  In every registry state, a selection group (the candidates
    added under one filer id and fiscal year, in discovery order) that
    holds an Annual candidate contributes exactly one candidate to
    [process]; it is Annual, the first Annual one of the group, and it is
    not in [skip].  Every
    other candidate of the group is in [skip]: all the Quarterly and
    Other ones and the further Annual ones. *)
Theorem annual_precedence
  (adds : list SpecFM.FilingCandidate) (k : SpecFM.Key) (cs : list SpecFM.FilingCandidate) :
  In (k, cs) (SpecFM.groups (SpecFM.registry_of adds)) ->
  existsb (SpecFM.in_bucket SpecFM.Annual) cs = true ->
  cs = filter (SpecFM.has_key k) adds /\
  exists c,
    filter (SpecFM.has_key k) (SpecFM.sel_process (SpecFM.select (SpecFM.registry_of adds)))
      = [c] /\
    In c cs /\
    SpecFM.in_bucket SpecFM.Annual c = true /\
    find (SpecFM.in_bucket SpecFM.Annual) cs = Some c /\
    ~ In c (SpecFM.sel_skip (SpecFM.select (SpecFM.registry_of adds))) /\
    (forall c', In c' cs -> c' <> c ->
       In c' (SpecFM.sel_skip (SpecFM.select (SpecFM.registry_of adds)))) /\
    (forall c', In c' cs -> SpecFM.in_bucket SpecFM.Annual c' = false ->
       In c' (SpecFM.sel_skip (SpecFM.select (SpecFM.registry_of adds)))).
Proof.
  intros Hin Hann.
  split; [apply (GroupFacts.groups_in_discovery_order adds k cs); exact Hin|].
  destruct (SelectionFacts.select_by_group adds k cs Hin) as [HP HS].
  pose proof (SelectionFacts.group_nonempty adds k cs Hin) as Hne.
  destruct (SelectionFacts.select_group_spec cs Hne) as (c & Hc & Hcin & Hfst & Hsnd).
  assert (Hw : SpecFM.winning_bucket cs = SpecFM.Annual)
    by (unfold SpecFM.winning_bucket; rewrite Hann; reflexivity).
  assert (Hskip : forall c', In c' cs -> c' <> c ->
            In c' (SpecFM.sel_skip (SpecFM.select (SpecFM.registry_of adds)))).
  { intros c' Hc' Hne'.
    assert (H : In c' (snd (SpecFM.select_group cs))) by (apply Hsnd; auto).
    rewrite <- HS in H. apply filter_In in H. tauto. }
  assert (Hb : SpecFM.in_bucket SpecFM.Annual c = true).
  { rewrite <- Hw. apply (SelectionFacts.chosen_In _ _ Hc). }
  exists c. repeat split.
  - rewrite HP. exact Hfst.
  - exact Hcin.
  - exact Hb.
  - unfold SpecFM.chosen in Hc. rewrite Hw in Hc. exact Hc.
  - intros Habs.
    assert (Hk : SpecFM.has_key k c = true).
    { apply SelectionFacts.has_key_true.
      apply (proj2 (SelectionFacts.registry_of_wf adds) k cs Hin). exact Hcin. }
    assert (H : In c (snd (SpecFM.select_group cs))).
    { rewrite <- HS. apply filter_In. split; assumption. }
    apply Hsnd in H. tauto.
  - exact Hskip.
  - intros c' Hc' Hna. apply Hskip; [exact Hc'|]. intros ->. congruence.
Qed.

Lemma annual_precedence_witness :
  In (Scenario.key_12345,
      [Scenario.quarterly_12345; Scenario.annual_12345; Scenario.amended_12345])
     (SpecFM.groups (SpecFM.registry_of Scenario.four_adds)) /\
  filter (SpecFM.has_key Scenario.key_12345)
         (SpecFM.sel_process (SpecFM.select (SpecFM.registry_of Scenario.four_adds)))
    = [Scenario.annual_12345] /\
  [Scenario.quarterly_12345; Scenario.annual_12345; Scenario.amended_12345]
    = filter (SpecFM.has_key Scenario.key_12345) Scenario.four_adds /\
  exists c,
    filter (SpecFM.has_key Scenario.key_12345)
           (SpecFM.sel_process (SpecFM.select (SpecFM.registry_of Scenario.four_adds)))
      = [c] /\
    In c [Scenario.quarterly_12345; Scenario.annual_12345; Scenario.amended_12345] /\
    SpecFM.in_bucket SpecFM.Annual c = true /\
    find (SpecFM.in_bucket SpecFM.Annual)
         [Scenario.quarterly_12345; Scenario.annual_12345; Scenario.amended_12345] = Some c /\
    ~ In c (SpecFM.sel_skip (SpecFM.select (SpecFM.registry_of Scenario.four_adds))) /\
    (forall c', In c' [Scenario.quarterly_12345; Scenario.annual_12345; Scenario.amended_12345] ->
       c' <> c ->
       In c' (SpecFM.sel_skip (SpecFM.select (SpecFM.registry_of Scenario.four_adds)))) /\
    (forall c', In c' [Scenario.quarterly_12345; Scenario.annual_12345; Scenario.amended_12345] ->
       SpecFM.in_bucket SpecFM.Annual c' = false ->
       In c' (SpecFM.sel_skip (SpecFM.select (SpecFM.registry_of Scenario.four_adds)))).
Proof.
  split; [left; reflexivity|]. split; [reflexivity|].
  apply (annual_precedence Scenario.four_adds Scenario.key_12345
           [Scenario.quarterly_12345; Scenario.annual_12345; Scenario.amended_12345]).
  - left. reflexivity.
  - reflexivity.
Defined.

(** C2.  In every registry state the selection partitions each group:
    the group's candidates are exactly those of its [process] part
    together with those of its [skip] part, and no candidate is in both.
    [process] and [skip] as a whole share no candidate either. *)
Theorem selection_partitions_groups (adds : list SpecFM.FilingCandidate) :
  (forall (k : SpecFM.Key) (cs : list SpecFM.FilingCandidate),
      In (k, cs) (SpecFM.groups (SpecFM.registry_of adds)) ->
      (forall c,
          In c cs <->
          In c (filter (SpecFM.has_key k)
                  (SpecFM.sel_process (SpecFM.select (SpecFM.registry_of adds)))) \/
          In c (filter (SpecFM.has_key k)
                  (SpecFM.sel_skip (SpecFM.select (SpecFM.registry_of adds))))) /\
      (forall c,
          ~ (In c (filter (SpecFM.has_key k)
                     (SpecFM.sel_process (SpecFM.select (SpecFM.registry_of adds)))) /\
             In c (filter (SpecFM.has_key k)
                     (SpecFM.sel_skip (SpecFM.select (SpecFM.registry_of adds))))))) /\
  (forall c,
      ~ (In c (SpecFM.sel_process (SpecFM.select (SpecFM.registry_of adds))) /\
         In c (SpecFM.sel_skip (SpecFM.select (SpecFM.registry_of adds))))).
Proof.
  assert (Hgroup : forall k1 cs1,
            In (k1, cs1) (SpecFM.groups (SpecFM.registry_of adds)) ->
            forall c,
              (In c cs1 <->
               In c (filter (SpecFM.has_key k1)
                       (SpecFM.sel_process (SpecFM.select (SpecFM.registry_of adds)))) \/
               In c (filter (SpecFM.has_key k1)
                       (SpecFM.sel_skip (SpecFM.select (SpecFM.registry_of adds))))) /\
              ~ (In c (filter (SpecFM.has_key k1)
                         (SpecFM.sel_process (SpecFM.select (SpecFM.registry_of adds)))) /\
                 In c (filter (SpecFM.has_key k1)
                         (SpecFM.sel_skip (SpecFM.select (SpecFM.registry_of adds)))))).
  { intros k1 cs1 H1 c.
    destruct (SelectionFacts.select_by_group adds k1 cs1 H1) as [-> ->].
    pose proof (SelectionFacts.group_nonempty adds k1 cs1 H1) as Hne.
    destruct (SelectionFacts.select_group_spec cs1 Hne) as (c0 & _ & Hc0 & -> & Hsnd).
    rewrite Hsnd. simpl. split.
    - split.
      + intros Hc. destruct (SpecFM.candidate_eq_dec c c0) as [->|Hne0]; auto.
      + intros [[<-|[]]|[Hc _]]; assumption.
    - intros [[<-|[]] [_ Hne0]]. congruence. }
  split; [intros k cs Hin; split; intros c; apply (Hgroup k cs Hin)|].
  intros c [HP HS].
  unfold SpecFM.select in HP. simpl in HP. apply in_flat_map in HP.
  destruct HP as ([k1 cs1] & Hg & Hc). simpl in Hc.
  assert (Hk : SpecFM.has_key k1 c = true).
  { apply SelectionFacts.has_key_true.
    apply (proj2 (SelectionFacts.registry_of_wf adds) k1 cs1 Hg).
    apply SelectionFacts.select_group_sub. left. exact Hc. }
  apply (proj2 (Hgroup k1 cs1 Hg c)). split; apply filter_In; split; auto.
  unfold SpecFM.select. simpl. apply in_flat_map. exists (k1, cs1). auto.
Qed.

Lemma selection_partitions_groups_witness :
  In (Scenario.key_12345,
      [Scenario.quarterly_12345; Scenario.annual_12345; Scenario.amended_12345])
     (SpecFM.groups (SpecFM.registry_of Scenario.four_adds)) /\
  SpecFM.sel_process (SpecFM.select (SpecFM.registry_of Scenario.four_adds))
    = [Scenario.annual_12345; Scenario.quarterly_777] /\
  SpecFM.sel_skip (SpecFM.select (SpecFM.registry_of Scenario.four_adds))
    = [Scenario.quarterly_12345; Scenario.amended_12345] /\
  (forall c,
      In c [Scenario.quarterly_12345; Scenario.annual_12345; Scenario.amended_12345] <->
      In c (filter (SpecFM.has_key Scenario.key_12345)
              (SpecFM.sel_process (SpecFM.select (SpecFM.registry_of Scenario.four_adds)))) \/
      In c (filter (SpecFM.has_key Scenario.key_12345)
              (SpecFM.sel_skip (SpecFM.select (SpecFM.registry_of Scenario.four_adds))))) /\
  (forall c,
      ~ (In c (SpecFM.sel_process (SpecFM.select (SpecFM.registry_of Scenario.four_adds))) /\
         In c (SpecFM.sel_skip (SpecFM.select (SpecFM.registry_of Scenario.four_adds))))).
Proof.
  split; [left; reflexivity|]. split; [reflexivity|]. split; [reflexivity|].
  destruct (selection_partitions_groups Scenario.four_adds) as [Hgroups Hapart].
  split; [|exact Hapart].
  apply (Hgroups Scenario.key_12345
           [Scenario.quarterly_12345; Scenario.annual_12345; Scenario.amended_12345]).
  left. reflexivity.
Defined.

(** A candidate registered twice is one candidate: it is chosen once and
    is not its own duplicate. *)
Example selection_of_repeated_candidate :
  SpecFM.select (SpecFM.registry_of [Scenario.annual_12345; Scenario.annual_12345])
  = {| SpecFM.sel_process := [Scenario.annual_12345]; SpecFM.sel_skip := [] |}.
Proof. reflexivity. Qed.

(* ================================================================== *)
(** * Duplicates: removal of repeated paths, then selection *)
(* ================================================================== *)

Lemma filter_and_dedupe_In (cik_filter : option (list string)) (l : list Path) (p : Path) :
  In p (filter_and_dedupe cik_filter l) <-> In p l /\ _match cik_filter p = true.
Proof.
  unfold filter_and_dedupe. rewrite dedupe_In. destruct cik_filter as [ciks|].
  - apply filter_In.
  - simpl. tauto.
Qed.

Lemma find_before (A : Type) (p : A -> bool) (l1 l2 : list A) (a x : A) :
  p a = true -> find p (l1 ++ a :: l2) = Some x -> In x (l1 ++ [a]).
Proof.
  intros Ha. induction l1 as [|b l1 IH]; simpl.
  - rewrite Ha. intros E. injection E as <-. left. reflexivity.
  - destruct (p b); [intros E; injection E as <-; left; reflexivity|].
    intros E. right. apply IH. exact E.
Qed.

Lemma find_first (A : Type) (p : A -> bool) (l1 l2 : list A) (a : A) :
  (forall x, In x l1 -> p x = false) -> p a = true ->
  find p (l1 ++ a :: l2) = Some a.
Proof.
  intros Hl1 Ha. induction l1 as [|b l1 IH]; simpl.
  - rewrite Ha. reflexivity.
  - rewrite (Hl1 b (or_introl eq_refl)). apply IH.
    intros x Hx. apply Hl1. right. exact Hx.
Qed.

Lemma find_in_prefix (A : Type) (p : A -> bool) (l1 l2 : list A) (x : A) :
  In x l1 -> p x = true ->
  exists x', find p (l1 ++ l2) = Some x' /\ In x' l1.
Proof.
  induction l1 as [|b l1 IH]; simpl; intros Hx Hp; [destruct Hx|].
  destruct (p b) eqn:Hb; [exists b; auto|].
  destruct Hx as [->|Hx]; [congruence|].
  destruct (IH Hx Hp) as (x' & Hf & Hin). exists x'. auto.
Qed.

Lemma existsb_false_In (A : Type) (p : A -> bool) (l : list A) (x : A) :
  existsb p l = false -> In x l -> p x = false.
Proof.
  intros He Hx. destruct (p x) eqn:Hp; [|reflexivity].
  rewrite <- He. symmetry. apply existsb_exists. exists x. auto.
Qed.

(** ** The deciding bucket of a group *)

Lemma in_bucket_eq (b : SpecFM.Bucket) (c : SpecFM.FilingCandidate) :
  SpecFM.in_bucket b c = true <-> SpecFM.bucket_of (SpecFM.form_type c) = b.
Proof.
  unfold SpecFM.in_bucket.
  destruct (SpecFM.bucket_of (SpecFM.form_type c)), b; simpl; split; congruence.
Qed.

(** The deciding bucket is the bucket of any candidate of the group that
    no other candidate outranks. *)
Lemma winning_bucket_top (cs : list SpecFM.FilingCandidate) (c : SpecFM.FilingCandidate) :
  In c cs ->
  (forall x, In x cs ->
     outranks (SpecFM.bucket_of (SpecFM.form_type x))
              (SpecFM.bucket_of (SpecFM.form_type c)) = false) ->
  SpecFM.winning_bucket cs = SpecFM.bucket_of (SpecFM.form_type c).
Proof.
  intros Hc Htop. unfold SpecFM.winning_bucket.
  destruct (existsb (SpecFM.in_bucket SpecFM.Annual) cs) eqn:Ha.
  - apply existsb_exists in Ha. destruct Ha as (x & Hx & Hb).
    apply in_bucket_eq in Hb. specialize (Htop x Hx). rewrite Hb in Htop.
    destruct (SpecFM.bucket_of (SpecFM.form_type c)); simpl in Htop; congruence.
  - pose proof (existsb_false_In _ _ _ c Ha Hc) as Hca.
    destruct (existsb (SpecFM.in_bucket SpecFM.Quarterly) cs) eqn:Hq.
    + apply existsb_exists in Hq. destruct Hq as (x & Hx & Hb).
      apply in_bucket_eq in Hb. specialize (Htop x Hx). rewrite Hb in Htop.
      unfold SpecFM.in_bucket in Hca.
      destruct (SpecFM.bucket_of (SpecFM.form_type c)); simpl in *; congruence.
    + pose proof (existsb_false_In _ _ _ c Hq Hc) as Hcq.
      unfold SpecFM.in_bucket in Hca, Hcq.
      destruct (SpecFM.bucket_of (SpecFM.form_type c)); simpl in *; congruence.
Qed.

(** No candidate of a group outranks the deciding bucket. *)
Lemma winning_not_outranked (cs : list SpecFM.FilingCandidate) (x : SpecFM.FilingCandidate) :
  In x cs ->
  outranks (SpecFM.bucket_of (SpecFM.form_type x)) (SpecFM.winning_bucket cs) = false.
Proof.
  intros Hx. unfold SpecFM.winning_bucket.
  destruct (existsb (SpecFM.in_bucket SpecFM.Annual) cs) eqn:Ha.
  - destruct (SpecFM.bucket_of (SpecFM.form_type x)); reflexivity.
  - pose proof (existsb_false_In _ _ _ x Ha Hx) as Hxa.
    destruct (existsb (SpecFM.in_bucket SpecFM.Quarterly) cs) eqn:Hq.
    + unfold SpecFM.in_bucket in Hxa.
      destruct (SpecFM.bucket_of (SpecFM.form_type x)); simpl in *; congruence.
    + pose proof (existsb_false_In _ _ _ x Hq Hx) as Hxq.
      unfold SpecFM.in_bucket in Hxa, Hxq.
      destruct (SpecFM.bucket_of (SpecFM.form_type x)); simpl in *; congruence.
Qed.

Section DuplicateFacts.

Context (parse_fiscal_year : string -> option Z)
        (parse_other_form : string -> option string).

Local Abbreviation manager := (SpecFM.manager parse_fiscal_year parse_other_form).

Lemma registered_candidates_In (cik_filter : option (list string)) (files : list Path)
  (c : SpecFM.FilingCandidate) :
  In c (registered_candidates (FM := manager) cik_filter files) <->
  exists fp cik year ft,
    In fp files /\ registration (FM := manager) cik_filter fp = Some (cik, year, ft) /\
    c = SpecFM.candidate fp cik year ft.
Proof.
  unfold registered_candidates. rewrite in_flat_map. split.
  - intros (fp & Hfp & Hc).
    destruct (registration cik_filter fp) as [[[cik year] ft]|] eqn:Hr; [|destruct Hc].
    destruct Hc as [<-|[]]. exists fp, cik, year, ft. auto.
  - intros (fp & cik & year & ft & Hfp & Hr & ->). exists fp. rewrite Hr.
    split; [exact Hfp | left; reflexivity].
Qed.

Lemma registered_candidates_app (cik_filter : option (list string)) (l1 l2 : list Path) :
  registered_candidates (FM := manager) cik_filter (l1 ++ l2) =
  (registered_candidates (FM := manager) cik_filter l1 ++
   registered_candidates (FM := manager) cik_filter l2)%list.
Proof. unfold registered_candidates. apply flat_map_app. Qed.

(** A processed path is the path of a processed candidate, and that
    candidate is the one registered for the path. *)
Lemma to_process_candidate (cik_filter : option (list string)) (files : list Path)
  (fp : Path) :
  In fp (to_process (FM := manager) cik_filter files) <->
  exists cik year ft,
    registration (FM := manager) cik_filter fp = Some (cik, year, ft) /\ In fp files /\
    In (SpecFM.candidate fp cik year ft)
       (SpecFM.sel_process
          (SpecFM.select
             (SpecFM.registry_of (registered_candidates (FM := manager) cik_filter files)))).
Proof.
  unfold to_process, mixed_selection. rewrite dedupe_In.
  rewrite register_all_registry.
  cbn [_select_filings_to_process SpecFM.manager process]. rewrite in_map_iff. split.
  - intros (c & <- & Hc).
    assert (Hadd : In c (registered_candidates (FM := manager) cik_filter files))
      by (apply select_sub_adds; auto).
    apply registered_candidates_In in Hadd.
    destruct Hadd as (fp & cik & year & ft & Hfp & Hr & ->).
    exists cik, year, ft. auto.
  - intros (cik & year & ft & _ & _ & Hc). eexists. split; [|exact Hc]. reflexivity.
Qed.

(** The candidates of one filer and year, among those registered from a
    list of files. *)
Lemma group_member (cik_filter : option (list string)) (files : list Path)
  (cik : string) (y : Z) (x : SpecFM.FilingCandidate) :
  In x (filter (SpecFM.has_key (cik, y))
               (registered_candidates (FM := manager) cik_filter files)) <->
  exists p ft,
    In p files /\ registration (FM := manager) cik_filter p = Some (cik, y, ft) /\
    x = SpecFM.candidate p cik y ft.
Proof.
  rewrite filter_In, registered_candidates_In. split.
  - intros ((p & c' & y' & ft & Hp & Hr & ->) & Hk).
    apply SelectionFacts.has_key_true in Hk. simpl in Hk. injection Hk as -> ->.
    exists p, ft. auto.
  - intros (p & ft & Hp & Hr & ->). split.
    + exists p, cik, y, ft. auto.
    + apply SelectionFacts.has_key_true. reflexivity.
Qed.

(** A registered file is processed exactly when its candidate is the
    chosen one of its filer and year. *)
Lemma to_process_chosen (cik_filter : option (list string)) (files : list Path)
  (fp : Path) (cik : string) (y : Z) (ft : string) :
  In fp files ->
  registration (FM := manager) cik_filter fp = Some (cik, y, ft) ->
  In fp (to_process (FM := manager) cik_filter files) <->
  SpecFM.chosen (filter (SpecFM.has_key (cik, y))
                        (registered_candidates (FM := manager) cik_filter files))
  = Some (SpecFM.candidate fp cik y ft).
Proof.
  intros Hfp Hr.
  set (adds := registered_candidates (FM := manager) cik_filter files).
  set (c := SpecFM.candidate fp cik y ft).
  set (k := (cik, y) : SpecFM.Key).
  assert (Hc : In c (filter (SpecFM.has_key k) adds)).
  { apply group_member. exists fp, ft. auto. }
  assert (Hin : In (k, filter (SpecFM.has_key k) adds)
                   (SpecFM.groups (SpecFM.registry_of adds))).
  { apply GroupFacts.groups_in_discovery_order. split; [reflexivity|].
    intros E. rewrite E in Hc. destruct Hc. }
  destruct (SelectionFacts.select_by_group adds k _ Hin) as [HP _].
  destruct (SelectionFacts.select_group_spec _ (SelectionFacts.group_nonempty adds k _ Hin))
    as (c0 & Hch & _ & Hfst & _).
  rewrite Hfst in HP. rewrite Hch. split.
  - intros H. apply to_process_candidate in H.
    destruct H as (c' & y' & f' & Hr' & _ & Hsel).
    rewrite Hr in Hr'. injection Hr' as <- <- <-.
    assert (E : In c [c0]).
    { rewrite <- HP. apply filter_In. split; [exact Hsel|].
      apply filter_In in Hc. apply Hc. }
    destruct E as [->|[]]. reflexivity.
  - intros E. injection E as ->. apply to_process_candidate.
    exists cik, y, ft. split; [exact Hr|]. split; [exact Hfp|].
    assert (E : In c (filter (SpecFM.has_key k)
                        (SpecFM.sel_process (SpecFM.select (SpecFM.registry_of adds)))))
      by (rewrite HP; left; reflexivity).
    apply filter_In in E. apply E.
Qed.

(** What is handed to [add_filing] is what the parser read off the file
    name. *)
Lemma registration_parsed (cik_filter : option (list string)) (fp : Path)
  (cik : string) (y : Z) (ft : string) :
  registration (FM := manager) cik_filter fp = Some (cik, y, ft) ->
  SpecFM.parse_form_type parse_other_form (path_name fp) = Some ft.
Proof.
  unfold registration. cbn [_parse_filename_metadata SpecFM.manager].
  unfold SpecFM.parse_filename_metadata.
  destruct (match cik_filter with Some _ => _ | None => _ end); [discriminate|].
  destruct (_extract_cik_from_name (path_name fp)) as [c|]; [|discriminate].
  destruct (parse_fiscal_year (path_name fp)) as [y'|]; [|discriminate].
  destruct (SpecFM.parse_form_type parse_other_form (path_name fp)) as [ft'|];
    [|discriminate].
  destruct (truthy c && truthy_year (Some y') && truthy ft'); [|discriminate].
  intros E. injection E as _ _ ->. reflexivity.
Qed.

(** The annual and quarterly tests do not look at letter case: two
    names for the same document carry the same form type, whenever the
    naming convention reads the same token off both. *)
Lemma same_document_same_form (p1 p2 : Path) :
  same_document p1 p2 ->
  parse_other_form (path_name p1) = parse_other_form (path_name p2) ->
  SpecFM.parse_form_type parse_other_form (path_name p1) =
  SpecFM.parse_form_type parse_other_form (path_name p2).
Proof.
  unfold same_document, SpecFM.parse_form_type, _is_10k, SpecFM.is_10q.
  intros E Ho. rewrite E, Ho. reflexivity.
Qed.

Context (cik_filter : option (list string)) (l1 l2 : list Path) (p1 p2 : Path)
        (cik : string) (y : Z) (ft : string).

Hypothesis first_appearance : ~ In p1 l1.
Hypothesis registered_first :
  registration (FM := manager) cik_filter p1 = Some (cik, y, ft).

(** The group of the filer and year, around the candidate of [p1]. *)
Lemma group_around_first :
  filter (SpecFM.has_key (cik, y))
         (registered_candidates (FM := manager) cik_filter (l1 ++ p1 :: l2)) =
  (filter (SpecFM.has_key (cik, y)) (registered_candidates (FM := manager) cik_filter l1) ++
   SpecFM.candidate p1 cik y ft ::
   filter (SpecFM.has_key (cik, y)) (registered_candidates (FM := manager) cik_filter l2))%list.
Proof.
  rewrite registered_candidates_app, filter_app. f_equal.
  change (p1 :: l2) with ([p1] ++ l2)%list.
  rewrite registered_candidates_app, filter_app.
  unfold registered_candidates at 1. simpl. rewrite registered_first. simpl.
  destruct (SpecFM.has_key (cik, y) (SpecFM.candidate p1 cik y ft)) eqn:Hk; [reflexivity|].
  assert (Ht : SpecFM.has_key (cik, y) (SpecFM.candidate p1 cik y ft) = true)
    by (apply SelectionFacts.has_key_true; reflexivity).
  congruence.
Qed.

Lemma first_in_files : In p1 (l1 ++ p1 :: l2).
Proof. apply in_or_app. right. left. reflexivity. Qed.

(** The first-seen file is processed exactly when no file of its filer
    and year takes precedence over it. *)
Lemma first_seen_processed_iff :
  In p1 (to_process (FM := manager) cik_filter (l1 ++ p1 :: l2)) <->
  forall p, In p (l1 ++ p1 :: l2) ->
            ~ takes_precedence (FM := manager) cik_filter l1 cik y ft p.
Proof.
  rewrite (to_process_chosen cik_filter _ p1 cik y ft first_in_files registered_first).
  set (G := filter (SpecFM.has_key (cik, y))
                   (registered_candidates (FM := manager) cik_filter (l1 ++ p1 :: l2))).
  set (c1 := SpecFM.candidate p1 cik y ft).
  assert (Hc1 : In c1 G).
  { apply group_member. exists p1, ft. split; [apply first_in_files|]. auto. }
  split.
  - intros Hch p Hp (ft' & Hr & Hprec).
    destruct (SelectionFacts.chosen_In _ _ Hch) as [_ Hb].
    apply in_bucket_eq in Hb. cbn [SpecFM.form_type SpecFM.candidate c1] in Hb.
    destruct Hprec as [Hout|[Hseen Hsame]].
    + assert (Hx : In (SpecFM.candidate p cik y ft') G).
      { apply group_member. exists p, ft'. auto. }
      pose proof (winning_not_outranked G _ Hx) as Hno.
      cbn [SpecFM.form_type SpecFM.candidate] in Hno.
      rewrite <- Hb in Hno. congruence.
    + assert (Hx : In (SpecFM.candidate p cik y ft')
                      (filter (SpecFM.has_key (cik, y))
                              (registered_candidates (FM := manager) cik_filter l1))).
      { apply group_member. exists p, ft'. auto. }
      assert (Hbx : SpecFM.in_bucket (SpecFM.winning_bucket G)
                      (SpecFM.candidate p cik y ft') = true).
      { apply in_bucket_eq. cbn [SpecFM.form_type SpecFM.candidate]. congruence. }
      destruct (find_in_prefix _ (SpecFM.in_bucket (SpecFM.winning_bucket G)) _
                  (c1 :: filter (SpecFM.has_key (cik, y))
                                (registered_candidates (FM := manager) cik_filter l2))
                  _ Hx Hbx) as (x' & Hf & Hx').
      unfold SpecFM.chosen in Hch. unfold G at 2 in Hch.
      rewrite group_around_first in Hch. fold c1 in Hch. rewrite Hf in Hch.
      injection Hch as ->. apply group_member in Hx'.
      destruct Hx' as (q & ftq & Hq & _ & E). unfold c1 in E.
      injection E as -> _. exact (first_appearance Hq).
  - intros Hnone.
    assert (Hw : SpecFM.winning_bucket G = SpecFM.bucket_of (Some ft)).
    { apply (winning_bucket_top G c1 Hc1). intros x Hx.
      apply group_member in Hx. destruct Hx as (p & ft' & Hp & Hr & ->).
      cbn [SpecFM.form_type SpecFM.candidate c1].
      destruct (outranks (SpecFM.bucket_of (Some ft')) (SpecFM.bucket_of (Some ft)))
        eqn:Hout; [|reflexivity].
      exfalso. apply (Hnone p Hp). exists ft'. auto. }
    unfold SpecFM.chosen. rewrite Hw. unfold G.
    rewrite group_around_first. apply find_first.
    + intros x Hx. apply group_member in Hx. destruct Hx as (p & ft' & Hp & Hr & ->).
      destruct (SpecFM.in_bucket (SpecFM.bucket_of (Some ft))
                  (SpecFM.candidate p cik y ft')) eqn:Hb; [|reflexivity].
      apply in_bucket_eq in Hb. cbn [SpecFM.form_type SpecFM.candidate] in Hb.
      exfalso. apply (Hnone p); [apply in_or_app; left; exact Hp|].
      exists ft'. auto.
    + apply in_bucket_eq. reflexivity.
Qed.

Hypothesis seen_later : ~ In p2 l1.
Hypothesis distinct_paths : p1 <> p2.
Hypothesis same_name : same_document p1 p2.
Hypothesis same_token :
  parse_other_form (path_name p1) = parse_other_form (path_name p2).
Hypothesis same_filing :
  forall cik' y' ft',
    registration (FM := manager) cik_filter p2 = Some (cik', y', ft') ->
    cik' = cik /\ y' = y.

(** The later-seen copy is never the one processed. *)
Lemma later_copy_not_processed :
  ~ In p2 (to_process (FM := manager) cik_filter (l1 ++ p1 :: l2)).
Proof.
  intros H2. pose proof H2 as Hc. apply to_process_candidate in Hc.
  destruct Hc as (cik' & y' & ft' & Hr2 & Hin2 & _).
  destruct (same_filing _ _ _ Hr2) as [-> ->].
  assert (ft' = ft) as ->.
  { pose proof (registration_parsed _ _ _ _ _ Hr2) as E2.
    pose proof (registration_parsed _ _ _ _ _ registered_first) as E1.
    rewrite (same_document_same_form p1 p2 same_name same_token) in E1. congruence. }
  apply (to_process_chosen cik_filter _ p2 cik y ft Hin2 Hr2) in H2.
  destruct (SelectionFacts.chosen_In _ _ H2) as [_ Hb].
  unfold SpecFM.chosen in H2. rewrite group_around_first in H2, Hb.
  apply (find_before _ _ _ _ (SpecFM.candidate p1 cik y ft)) in H2; [|exact Hb].
  apply in_app_iff in H2. destruct H2 as [H2|[H2|[]]].
  - apply group_member in H2. destruct H2 as (q & ftq & Hq & _ & E).
    injection E as -> _. exact (seen_later Hq).
  - injection H2 as E. exact (distinct_paths E).
Qed.

End DuplicateFacts.



(** Lines 203-205 remove a path only where it is literally repeated:
    two different paths that pass the filter are both kept, whichever
    document they stand for. *)
Lemma distinct_paths_survive_discovery (cik_filter : option (list string))
  (l : list Path) (p1 p2 : Path) :
  In p1 l -> In p2 l -> _match cik_filter p1 = true -> _match cik_filter p2 = true ->
  NoDup (filter_and_dedupe cik_filter l) /\
  In p1 (filter_and_dedupe cik_filter l) /\ In p2 (filter_and_dedupe cik_filter l).
Proof.
  intros H1 H2 M1 M2. split; [apply dedupe_NoDup|].
  split; apply filter_and_dedupe_In; auto.
Qed.

(** An annual report seen before an amendment of the same filer and year
    takes precedence over the amendment and over its case-variant copy:
    it is the one processed. *)
Example earlier_annual_report_takes_precedence :
  to_process (FM := Run.fm) None (all_text_files_of Run.cfg Run.world Run.amended_twice None)
    = ["data/edgar_data_55_10-K.txt"] /\
  takes_precedence (FM := Run.fm) None ["data/edgar_data_55_10-K.txt"]
    "0000000055" 2020%Z "10-K" "data/edgar_data_55_10-K.txt".
Proof.
  split; [reflexivity|]. exists "10-K". split; [reflexivity|].
  right. split; [left; reflexivity | reflexivity].
Qed.

(** The scenario of the specification: an archive with
    [edgar_data_55_10-K.txt] and a loose [EDGAR_DATA_55_10-K.TXT].  Both
    paths are discovered; the upper-case label yields no filer id, so the
    loose file is not registered, and the archive member alone is in
    [process]. *)
Example case_variant_scenario :
  all_text_files_of Run.cfg Run.world Run.case_variant None
    = ["/tmp/tmp/edgar_data_55_10-K.txt"; "data/EDGAR_DATA_55_10-K.TXT"] /\
  registration (FM := Run.fm) None "data/EDGAR_DATA_55_10-K.TXT" = None /\
  to_process (FM := Run.fm) None (all_text_files_of Run.cfg Run.world Run.case_variant None)
    = ["/tmp/tmp/edgar_data_55_10-K.txt"] /\
  to_skip (FM := Run.fm) None (all_text_files_of Run.cfg Run.world Run.case_variant None)
    = [].
Proof. repeat split. Qed.

(* ================================================================== *)
(** * Unreadable archives *)
(* ================================================================== *)

(** X2.  In the combined mode every entry of the error list is the
    failure entry of a file that was dispatched to the content extractor:
    nothing is ever recorded there for an archive. *)
Theorem mixed_errors_are_file_failures
  (cfg : Settings) (w : World) (FM : FilingManager)
  (input_dir : Directory) (resolve_references : bool) (cik_filter : option (list string)) :
  Forall
    (fun entry =>
       exists fp,
         In fp (to_process cik_filter (all_text_files_of cfg w input_dir cik_filter)) /\
         (entry = fp \/ exists e, entry = fp ++ ": " ++ e))
    (Mixed.errors (process_mixed_directory cfg w input_dir resolve_references cik_filter)).
Proof.
  apply Forall_forall. intros entry.
  unfold process_mixed_directory, process_discovered, all_text_files_of.
  match goal with
  | |- context [fold_left count_skipped_step ?l ?s] =>
      destruct (count_skipped_closed_form l s) as (_ & _ & _ & _ & He)
  end.
  rewrite He. clear He.
  match goal with
  | |- context [fold_left (mixed_process_step w ?r ?z) ?l ?s] =>
      destruct (mixed_process_closed_form w r z l s) as (_ & _ & _ & _ & He)
  end.
  rewrite He. clear He. simpl. rewrite in_flat_map.
  intros (fp & Hfp & Hentry). exists fp. split; [exact Hfp|].
  unfold mixed_failure_entry in Hentry.
  destruct (extract_from_file w fp _) as [[|]|e]; simpl in Hentry.
  - destruct Hentry.
  - destruct Hentry as [<-|[]]. left. reflexivity.
  - destruct Hentry as [<-|[]]. right. exists e. reflexivity.
Qed.

(** C8.  A directory with the corrupt archive [bad.zip] between two
    readable ones and one loose file.  [process_directory] records
    exactly one error entry for the corrupt archive and goes on with the
    others.  [process_mixed_directory] goes on as well (the two archive
    members and the loose file are all processed), but its error list
    stays empty: the corrupt archive leaves no entry in the statistics of
    the run. *)
Theorem corrupt_archive_in_mixed_directory :
  map (fun s => (ZipStat.zip_file s, ZipStat.processed s, ZipStat.errors s))
      (Overall.zip_stats
         (process_directory (FM := Run.fm) Run.cfg Run.world Run.three_archives None))
  = [("data/a.zip", 1, []);
     ("data/b.zip", 1, []);
     ("data/bad.zip", 0,
      [{| ZipStat.file := "data/bad.zip"; ZipStat.error := "Invalid ZIP file" |}])] /\
  Mixed.processed
    (Mixed.combined
       (process_mixed_directory (FM := Run.fm) Run.cfg Run.world Run.three_archives true None))
  = 3 /\
  Mixed.total_files
    (Mixed.combined
       (process_mixed_directory (FM := Run.fm) Run.cfg Run.world Run.three_archives true None))
  = 3 /\
  Mixed.errors
    (process_mixed_directory (FM := Run.fm) Run.cfg Run.world Run.three_archives true None)
  = [].
Proof. repeat split. Qed.

Lemma extraction_failures_are_recorded_witness :
  open_zip Run.failing_world "data/c.zip"
    = Opened ["edgar_data_9_10-K.txt"; "edgar_data_8_10-K_empty.txt";
              "edgar_data_7_10-K_broken.txt"] /\
  ZipStat.errors (process_zip_file (FM := Run.fm) Run.cfg Run.failing_world "data/c.zip" None)
    = [{| ZipStat.file := "edgar_data_8_10-K_empty.txt";
          ZipStat.error := "Extraction failed" |};
       {| ZipStat.file := "edgar_data_7_10-K_broken.txt"; ZipStat.error := "unreadable" |}] /\
  ZipStat.processed
    (process_zip_file (FM := Run.fm) Run.cfg Run.failing_world "data/c.zip" None) +
  ZipStat.failed
    (process_zip_file (FM := Run.fm) Run.cfg Run.failing_world "data/c.zip" None) = 3 /\
  Mixed.errors
    (process_mixed_directory (FM := Run.fm) Run.cfg Run.failing_world Run.one_archive true None)
    = ["/tmp/tmp0/edgar_data_8_10-K_empty.txt";
       "/tmp/tmp00/edgar_data_7_10-K_broken.txt: unreadable";
       "data/edgar_data_6_10-K_empty.txt"] /\
  Mixed.processed
    (Mixed.combined
       (process_mixed_directory (FM := Run.fm) Run.cfg Run.failing_world Run.one_archive
          true None)) +
  Mixed.failed
    (Mixed.combined
       (process_mixed_directory (FM := Run.fm) Run.cfg Run.failing_world Run.one_archive
          true None)) = 5.
Proof.
  split; [reflexivity|].
  destruct (extraction_failures_are_recorded Run.cfg Run.failing_world Run.fm "data/c.zip"
              ["edgar_data_9_10-K.txt"; "edgar_data_8_10-K_empty.txt";
               "edgar_data_7_10-K_broken.txt"]
              Run.one_archive true None)
    as [Hzip (_ & _ & Hmsum & Hmerr)].
  destruct (Hzip eq_refl) as (_ & _ & Hzsum & Hzerr).
  split; [exact Hzerr|]. split; [exact Hzsum|]. split; [exact Hmerr | exact Hmsum].
Defined.

(* ================================================================== *)
(** * More on the identifier loaders *)
(* ================================================================== *)

Lemma set_add_fold_In (xs acc : list string) (x : string) :
  In x (fold_left (fun a y => set_add y a) xs acc) <-> In x acc \/ In x xs.
Proof.
  revert acc. induction xs as [|y xs IH]; intros acc; simpl.
  - tauto.
  - rewrite IH, set_add_In. intuition.
Qed.

(** X4.  [load_ciks_from_directory] returns the union of what
    [load_cik_list] returns for the CSV files of the directory; a
    directory that does not exist gives the empty set. *)
Theorem load_ciks_from_directory_union (csv_files : list (list Row)) (x : string) :
  CikFilter.load_ciks_from_directory None = [] /\
  (In x (CikFilter.load_ciks_from_directory (Some csv_files)) <->
   exists rows, In rows csv_files /\ In x (CikFilter.load_cik_list (Some rows))).
Proof.
  split; [reflexivity|].
  unfold CikFilter.load_ciks_from_directory.
  assert (H : forall acc,
             In x (fold_left
                     (fun all_ciks csv =>
                        fold_left (fun a y => set_add y a)
                                  (CikFilter.load_cik_list (Some csv)) all_ciks)
                     csv_files acc) <->
             In x acc \/
             exists rows, In rows csv_files /\ In x (CikFilter.load_cik_list (Some rows))).
  { induction csv_files as [|csv rest IH]; intros acc; simpl.
    - split; [auto | intros [H|(r & [] & _)]; exact H].
    - rewrite IH, set_add_fold_In. split.
      + intros [[H|H]|(r & Hr & Hx)]; [auto | right; exists csv; auto | right; exists r; auto].
      + intros [H|(r & [<-|Hr] & Hx)]; [auto | auto | right; exists r; auto]. }
  rewrite H. simpl. split; [intros [[]|E]; exact E | auto].
Qed.

Lemma filter_digits_all (s : string) : all_digits (str_filter is_digit s).
Proof.
  unfold all_digits. induction s as [|c s IH]; simpl; [reflexivity|].
  destruct (is_digit c) eqn:Hc; simpl; [rewrite Hc|]; exact IH.
Qed.

Lemma filter_digits_id (s : string) : all_digits s -> str_filter is_digit s = s.
Proof.
  unfold all_digits. induction s as [|c s IH]; simpl; [reflexivity|].
  intros H. apply andb_prop in H. destruct H as [Hc Hs]. rewrite Hc, (IH Hs). reflexivity.
Qed.

Lemma digits_no_space (s : string) :
  all_digits s -> str_forallb (fun c => negb (is_space c)) s = true.
Proof.
  unfold all_digits. induction s as [|c s IH]; simpl; [reflexivity|].
  intros H. apply andb_prop in H. destruct H as [Hc Hs]. rewrite (IH Hs), andb_true_r.
  destruct (is_space c) eqn:E; [|reflexivity].
  rewrite (space_not_digit c E) in Hc. discriminate.
Qed.

Lemma lstrip_id (s : string) :
  str_forallb (fun c => negb (is_space c)) s = true -> lstrip s = s.
Proof.
  destruct s as [|c s]; simpl; [reflexivity|].
  intros H. apply andb_prop in H. destruct H as [Hc _].
  apply negb_true_iff in Hc. rewrite Hc. reflexivity.
Qed.

Lemma rstrip_id (s : string) :
  str_forallb (fun c => negb (is_space c)) s = true -> rstrip s = s.
Proof.
  induction s as [|c s IH]; simpl; [reflexivity|].
  intros H. apply andb_prop in H. destruct H as [Hc Hs].
  apply negb_true_iff in Hc. rewrite (IH Hs), Hc. destruct s; reflexivity.
Qed.

Lemma strip_digits_id (s : string) : all_digits s -> strip s = s.
Proof.
  intros H. apply digits_no_space in H. unfold strip.
  rewrite (lstrip_id s H). apply rstrip_id. exact H.
Qed.

(** What every loaded identifier looks like. *)
Lemma filter_loaded_canonical (rows : list Row) (x : string) :
  In x (CikFilter.load_cik_list (Some rows)) ->
  all_digits x /\ 10 <= String.length x.
Proof.
  unfold CikFilter.load_cik_list. rewrite filter_fold_In.
  intros [[]|(f & r & _ & _ & ->)].
  pose proof (filter_digits_all f) as Hd.
  rewrite (zfill_digits 10 _ Hd). split.
  - unfold all_digits. rewrite forallb_append, (zeros_digits _). exact Hd.
  - rewrite length_append, zeros_length. lia.
Qed.

Lemma set_add_NoDup (x : string) (s : list string) : NoDup s -> NoDup (set_add x s).
Proof.
  intros H. unfold set_add. destruct (set_mem x s) eqn:E; [exact H|].
  apply NoDup_app; [exact H | repeat constructor; tauto |].
  intros a Ha [<-|[]]. apply set_mem_In in Ha. congruence.
Qed.

Lemma filter_fold_NoDup (rows : list Row) (acc : list string) :
  NoDup acc -> NoDup (fold_left CikFilter.add_row rows acc).
Proof.
  revert acc. induction rows as [|row rows IH]; intros acc H; simpl; [exact H|].
  apply IH. unfold CikFilter.add_row. destruct row as [|f r]; [exact H|].
  destruct (truthy (strip f)); [|exact H].
  destruct (truthy (str_filter is_digit (strip f))); [|exact H].
  apply set_add_NoDup, H.
Qed.

Lemma canonical_row_adds (acc : list string) (x : string) :
  all_digits x -> 10 <= String.length x ->
  CikFilter.add_row acc [x] = set_add x acc.
Proof.
  intros Hd Hl. unfold CikFilter.add_row.
  rewrite (strip_digits_id x Hd), (filter_digits_id x Hd).
  assert (Ht : truthy x = true) by (destruct x; [simpl in Hl; lia | reflexivity]).
  rewrite Ht, (zfill_digits 10 x Hd).
  replace (10 - String.length x) with 0 by lia. reflexivity.
Qed.

Lemma reload_canonical (l acc : list string) :
  NoDup (acc ++ l) ->
  (forall x, In x l -> all_digits x /\ 10 <= String.length x) ->
  fold_left CikFilter.add_row (one_per_row l) acc = (acc ++ l)%list.
Proof.
  unfold one_per_row.
  revert acc. induction l as [|x l IH]; intros acc Hnd Hc; cbn [map fold_left].
  - symmetry. apply app_nil_r.
  - destruct (Hc x (or_introl eq_refl)) as [Hd Hl].
    rewrite (canonical_row_adds acc x Hd Hl).
    assert (Hx : set_mem x acc = false).
    { destruct (set_mem x acc) eqn:E; [|reflexivity].
      apply set_mem_In in E. apply NoDup_remove_2 in Hnd.
      exfalso. apply Hnd. apply in_or_app. left. exact E. }
    unfold set_add. rewrite Hx.
    rewrite IH; [rewrite <- app_assoc; reflexivity | | intros y Hy; apply Hc; right; exact Hy].
    rewrite <- app_assoc. exact Hnd.
Qed.

(** X5.  Every identifier that [cik_filter.load_cik_list] returns is made
    of digits only and is at least ten characters long, whatever the rows
    hold. *)
Theorem cik_filter_loads_canonical (rows : list Row) :
  Forall (fun x => all_digits x /\ 10 <= String.length x)
         (CikFilter.load_cik_list (Some rows)).
Proof. apply Forall_forall. intros x. apply filter_loaded_canonical. Qed.

(** X6.  Loading is idempotent: a CSV file written from a loaded set, one
    identifier per row, loads back to exactly that set, in the same
    order. *)
Theorem cik_filter_reload_is_identity (rows : list Row) :
  CikFilter.load_cik_list
    (Some (one_per_row (CikFilter.load_cik_list (Some rows))))
  = CikFilter.load_cik_list (Some rows).
Proof.
  unfold CikFilter.load_cik_list at 1.
  rewrite reload_canonical; [reflexivity | | intros x; apply filter_loaded_canonical].
  simpl. apply filter_fold_NoDup. constructor.
Qed.

Lemma loader_add_row_In (ciks : list string) (row : Row) (x : string) :
  In x (CikLoader.add_row ciks row) <->
  In x ciks \/
  exists field rest, row = field :: rest /\ strip field <> "" /\ x = zfill 10 (strip field).
Proof.
  unfold CikLoader.add_row. destruct row as [|field rest].
  - split; [auto | intros [H|(f & r & H & _)]; [exact H | discriminate H]].
  - destruct (truthy (strip field)) eqn:Ht.
    + rewrite set_add_In. split.
      * intros [->|H]; [right | left; exact H].
        exists field, rest. repeat split. intros E. rewrite E in Ht. discriminate.
      * intros [H|(f & r & E & _ & ->)]; [right; exact H|].
        injection E as <- <-. left. reflexivity.
    + apply truthy_false in Ht. split; [auto|].
      intros [H|(f & r & E & Hne & _)]; [exact H|].
      injection E as <- <-. contradiction.
Qed.

(** X7.  [cik_loader.load_cik_list] returns exactly the stripped first
    fields that are not empty, zero-padded with [zfill(10)] and otherwise
    as written: it drops empty rows and blank first fields and nothing
    else. *)
Theorem cik_loader_load_rows (rows : list Row) (x : string) :
  CikLoader.load_cik_list None = [] /\
  (In x (CikLoader.load_cik_list (Some rows)) <->
   exists field rest,
     In (field :: rest) rows /\ strip field <> "" /\ x = zfill 10 (strip field)).
Proof.
  split; [reflexivity|].
  unfold CikLoader.load_cik_list.
  assert (H : forall acc,
             In x (fold_left CikLoader.add_row rows acc) <->
             In x acc \/
             exists field rest,
               In (field :: rest) rows /\ strip field <> "" /\ x = zfill 10 (strip field)).
  { induction rows as [|row rows IH]; intros acc; simpl.
    - split; [auto | intros [H|(f & r & [] & _)]; exact H].
    - rewrite IH, loader_add_row_In. split.
      + intros [[H|(f & r & E & Hne & Hx)]|(f & r & Hin & Hne & Hx)].
        * left. exact H.
        * right. exists f, r. subst row. auto.
        * right. exists f, r. auto.
      + intros [H|(f & r & [E|Hin] & Hne & Hx)].
        * left. left. exact H.
        * left. right. exists f, r. auto.
        * right. exists f, r. auto. }
  rewrite H. simpl. split; [intros [[]|E]; exact E | auto].
Qed.

Lemma row_loops_agree_on_digit_fields (rows : list Row) :
  (forall field rest, In (field :: rest) rows -> all_digits (strip field)) ->
  CikLoader.load_cik_list (Some rows) = CikFilter.load_cik_list (Some rows).
Proof.
  unfold CikLoader.load_cik_list, CikFilter.load_cik_list.
  generalize (@nil string) as acc.
  induction rows as [|row rows IH]; intros acc H; simpl; [reflexivity|].
  assert (E : CikLoader.add_row acc row = CikFilter.add_row acc row).
  { unfold CikLoader.add_row, CikFilter.add_row. destruct row as [|f r]; [reflexivity|].
    pose proof (H f r (or_introl eq_refl)) as Hd.
    rewrite (filter_digits_id _ Hd).
    destruct (truthy (strip f)); reflexivity. }
  rewrite E. apply IH. intros f r Hin. apply (H f r). right. exact Hin.
Qed.



(* ================================================================== *)
(** * Substrings, letter case and [_is_10k] *)
(* ================================================================== *)

Lemma startswith_spec (s p : string) :
  startswith s p = true <-> exists post, s = p ++ post.
Proof.
  revert s. induction p as [|a p IH]; intros s; simpl.
  - split; [intros _; exists s; reflexivity | reflexivity].
  - destruct s as [|b s].
    + split; [discriminate | intros (post & H); discriminate H].
    + rewrite andb_true_iff, IH. split.
      * intros [Hab (post & ->)]. apply Ascii.eqb_eq in Hab. subst. exists post. reflexivity.
      * intros (post & H). injection H as -> ->. split; [apply Ascii.eqb_refl | eauto].
Qed.

(** [sub in s] holds exactly when [s] splits around an occurrence of [sub]. *)
Lemma contains_spec (s sub : string) :
  contains s sub = true <-> exists pre post, s = pre ++ sub ++ post.
Proof.
  induction s as [|c s IH]; simpl.
  - rewrite orb_false_r, startswith_spec. split.
    + intros (post & H). exists "", post. exact H.
    + intros ([|a pre] & post & H); [exists post; exact H | discriminate H].
  - rewrite orb_true_iff, startswith_spec, IH. split.
    + intros [(post & H)|(pre & post & ->)].
      * exists "", post. exact H.
      * exists (String c pre), post. reflexivity.
    + intros ([|a pre] & post & H).
      * left. exists post. exact H.
      * right. injection H as -> ->. exists pre, post. reflexivity.
Qed.

Lemma upper_append (a b : string) : upper (a ++ b) = upper a ++ upper b.
Proof. induction a as [|c a IH]; simpl; congruence. Qed.

Lemma upper_split (s a b : string) :
  upper s = a ++ b -> exists s1 s2, s = s1 ++ s2 /\ upper s1 = a /\ upper s2 = b.
Proof.
  revert s. induction a as [|c a IH]; intros s H.
  - exists "", s. auto.
  - destruct s as [|d s]; [discriminate H|]. simpl in H. injection H as Hc H.
    destruct (IH s H) as (s1 & s2 & -> & H1 & H2).
    exists (String d s1), s2. simpl. rewrite Hc, H1. auto.
Qed.

Lemma upper_char_idempotent (c : ascii) : upper_char (upper_char c) = upper_char c.
Proof. destruct c as [[] [] [] [] [] [] [] []]; reflexivity. Qed.

Lemma upper_idempotent (s : string) : upper (upper s) = upper s.
Proof.
  induction s as [|c s IH]; simpl; [reflexivity|].
  rewrite upper_char_idempotent, IH. reflexivity.
Qed.

(** X9.  [_is_10k] holds exactly for the names with a substring that
    reads "10-K" or "10K" in some letter case, wherever it stands; in
    particular it does not change when the name is put in upper case. *)
Theorem is_10k_any_case (filename : string) :
  (_is_10k filename = true <->
   exists pre m post,
     filename = pre ++ m ++ post /\ (upper m = "10-K" \/ upper m = "10K")) /\
  _is_10k (upper filename) = _is_10k filename.
Proof.
  split; [|unfold _is_10k; rewrite upper_idempotent; reflexivity].
  unfold _is_10k. rewrite orb_true_iff, !contains_spec. split.
  - assert (H : forall tag, (exists pre post, upper filename = pre ++ tag ++ post) ->
                exists pre m post, filename = pre ++ m ++ post /\ upper m = tag).
    { intros tag (pre & post & E).
      destruct (upper_split _ _ _ E) as (s1 & s2 & -> & _ & E2).
      destruct (upper_split _ _ _ E2) as (m & s3 & -> & Em & _).
      exists s1, m, s3. auto. }
    intros [E|E]; destruct (H _ E) as (pre & m & post & Hf & Hm);
      exists pre, m, post; auto.
  - intros (pre & m & post & -> & [Hm|Hm]); [left | right];
      exists (upper pre), (upper post); rewrite !upper_append, Hm; reflexivity.
Qed.

(* ================================================================== *)
(** * Filer ids: from a name and back *)
(* ================================================================== *)

Lemma take_digits_exact (hi : nat) (d rest : string) :
  all_digits d -> String.length d <= hi ->
  String.length d = hi \/ starts_with_digit rest = false ->
  Regex.take_digits hi (d ++ rest) = d.
Proof.
  unfold all_digits. revert d. induction hi as [|n IH]; intros d Hd Hl Hend.
  - destruct d; [reflexivity | simpl in Hl; lia].
  - destruct d as [|c d]; simpl.
    + destruct Hend as [E|E]; [discriminate E|].
      destruct rest as [|r rest]; [reflexivity|]. simpl in E. rewrite E. reflexivity.
    + simpl in Hd, Hl. apply andb_prop in Hd. destruct Hd as [Hc Hd]. rewrite Hc.
      f_equal. apply IH; [exact Hd | lia | destruct Hend; [left; simpl in *; lia | auto]].
Qed.

Lemma take_digits_none (hi : nat) (s : string) :
  starts_with_digit s = false -> Regex.take_digits hi s = "".
Proof.
  destruct hi; [reflexivity|]. destruct s as [|c s]; [reflexivity|].
  simpl. intros ->. reflexivity.
Qed.

Lemma no_digit_append (a b : string) : no_digit a -> no_digit b -> no_digit (a ++ b).
Proof. unfold no_digit. intros Ha Hb. rewrite forallb_append, Ha, Hb. reflexivity. Qed.

(** After a literal without digits, read off a string that begins with a
    digit-free part [p], what is left is the digits that follow [p] or
    something that does not begin with a digit. *)
Lemma strip_literal_no_digit (lit p d rest r : string) :
  no_digit lit -> no_digit p -> all_digits d -> d <> "" ->
  Regex.strip_literal lit (p ++ d ++ rest) = Some r ->
  r = d ++ rest \/ starts_with_digit r = false.
Proof.
  unfold no_digit, all_digits. revert p.
  induction lit as [|a lit IH]; intros p Hlit Hp Hd Hne H.
  - simpl in H. injection H as <-. destruct p as [|c p]; [left; reflexivity|].
    right. simpl in Hp |- *. apply andb_prop in Hp. destruct Hp as [Hc _].
    apply negb_true_iff in Hc. exact Hc.
  - simpl in Hlit. apply andb_prop in Hlit. destruct Hlit as [Ha Hlit].
    apply negb_true_iff in Ha.
    destruct p as [|c p].
    + destruct d as [|c d]; [congruence|]. simpl in H, Hd.
      apply andb_prop in Hd. destruct Hd as [Hc _].
      destruct (Ascii.eqb_spec a c) as [->|]; [congruence | discriminate H].
    + simpl in H, Hp. apply andb_prop in Hp. destruct Hp as [_ Hp].
      destruct (Ascii.eqb a c); [|discriminate H].
      exact (IH p Hlit Hp Hd Hne H).
Qed.

Lemma match_at_after_no_digit (lit p d rest : string) (lo hi : nat) :
  no_digit lit -> no_digit p -> all_digits d ->
  1 <= lo -> lo <= String.length d -> String.length d <= hi ->
  String.length d = hi \/ starts_with_digit rest = false ->
  Regex.match_at lit lo hi (p ++ d ++ rest) = None \/
  Regex.match_at lit lo hi (p ++ d ++ rest) = Some d.
Proof.
  intros Hlit Hp Hd Hlo Hld Hhi Hend. unfold Regex.match_at.
  destruct (Regex.strip_literal lit (p ++ d ++ rest)) as [r|] eqn:Hs; [|left; reflexivity].
  assert (Hne : d <> "") by (destruct d; [simpl in Hld; lia | discriminate]).
  destruct (strip_literal_no_digit _ _ _ _ _ Hlit Hp Hd Hne Hs) as [->|Hr].
  - rewrite (take_digits_exact hi d rest Hd Hhi Hend).
    destruct (Nat.leb_spec lo (String.length d)); [right; reflexivity | lia].
  - rewrite (take_digits_none hi r Hr). simpl.
    destruct (Nat.leb_spec lo 0); [lia | left; reflexivity].
Qed.

Lemma match_at_label (lit d rest : string) (lo hi : nat) :
  all_digits d -> lo <= String.length d -> String.length d <= hi ->
  String.length d = hi \/ starts_with_digit rest = false ->
  Regex.match_at lit lo hi (lit ++ d ++ rest) = Some d.
Proof.
  intros Hd Hld Hhi Hend. unfold Regex.match_at.
  rewrite (proj2 (strip_literal_some lit _ (d ++ rest)) eq_refl).
  rewrite (take_digits_exact hi d rest Hd Hhi Hend).
  destruct (Nat.leb_spec lo (String.length d)); [reflexivity | lia].
Qed.

(** The search finds the digits that follow the first digit-free part of
    the name when that part ends with the literal. *)
Lemma search_after_no_digit (lit pre d rest : string) (lo hi : nat) :
  no_digit lit -> no_digit pre -> all_digits d ->
  1 <= lo -> lo <= String.length d -> String.length d <= hi ->
  String.length d = hi \/ starts_with_digit rest = false ->
  Regex.search lit lo hi (pre ++ lit ++ d ++ rest) = Some d.
Proof.
  intros Hlit Hpre Hd Hlo Hld Hhi Hend.
  induction pre as [|c pre IH].
  - simpl append. destruct (lit ++ d ++ rest) eqn:E; simpl;
      rewrite <- E, (match_at_label lit d rest lo hi Hd Hld Hhi Hend); reflexivity.
  - assert (Hpre' : no_digit pre).
    { unfold no_digit in *. simpl in Hpre. apply andb_prop in Hpre. tauto. }
    change (String c pre ++ lit ++ d ++ rest) with (String c (pre ++ lit ++ d ++ rest)).
    cbn [Regex.search].
    destruct (match_at_after_no_digit lit (String c pre ++ lit) d rest lo hi Hlit
                (no_digit_append _ _ Hpre Hlit) Hd Hlo Hld Hhi Hend) as [E|E];
      rewrite append_assoc3 in E;
      change (String c pre ++ lit ++ d ++ rest) with (String c (pre ++ lit ++ d ++ rest)) in E;
      rewrite E; [exact (IH Hpre') | reflexivity].
Qed.

Lemma strip_literal_startswith (lit s r : string) :
  Regex.strip_literal lit s = Some r -> startswith s lit = true.
Proof.
  intros H. apply strip_literal_some in H. apply startswith_spec. eauto.
Qed.

(** Without the literal anywhere in the name, the labelled search fails. *)
Lemma search_without_literal (lit s : string) (lo hi : nat) :
  contains s lit = false -> Regex.search lit lo hi s = None.
Proof.
  induction s as [|c s IH]; simpl; intros H.
  - unfold Regex.match_at.
    destruct (Regex.strip_literal lit "") as [r|] eqn:E; [|reflexivity].
    apply strip_literal_startswith in E. rewrite E in H. discriminate.
  - apply orb_false_elim in H. destruct H as [Hs Hc].
    unfold Regex.match_at.
    destruct (Regex.strip_literal lit (String c s)) as [r|] eqn:E.
    + apply strip_literal_startswith in E. simpl in E. rewrite E in Hs. discriminate.
    + exact (IH Hc).
Qed.

(** A literal read off inside a longer digit-free text stops inside it. *)
Lemma strip_literal_inside (l0 L X r : string) :
  String.length l0 < String.length L -> no_digit L ->
  Regex.strip_literal l0 (L ++ X) = Some r -> starts_with_digit r = false.
Proof.
  unfold no_digit. revert L. induction l0 as [|a l0 IH]; intros L Hlen HL H.
  - simpl in H. injection H as <-. destruct L as [|c L]; [simpl in Hlen; lia|].
    simpl in HL |- *. apply andb_prop in HL. destruct HL as [Hc _].
    apply negb_true_iff in Hc. exact Hc.
  - destruct L as [|c L]; [simpl in Hlen; lia|]. simpl in H, HL, Hlen.
    apply andb_prop in HL. destruct HL as [_ HL].
    destruct (Ascii.eqb a c); [|discriminate H].
    apply (IH L); [lia | exact HL | exact H].
Qed.

(** A match of the literal that begins before an occurrence of the
    literal, and is not wholly before it, ends inside that occurrence. *)
Lemma strip_literal_straddle (l0 p L X r : string) :
  no_digit L -> String.length l0 < String.length p + String.length L ->
  startswith p l0 = false ->
  Regex.strip_literal l0 (p ++ L ++ X) = Some r -> starts_with_digit r = false.
Proof.
  intros HL. revert p. induction l0 as [|a l0 IH]; intros p Hlen Hs H.
  - simpl in Hs. discriminate Hs.
  - destruct p as [|c p].
    + simpl in H, Hlen. destruct L as [|b L]; [simpl in Hlen; lia|]. simpl in H, Hlen.
      destruct (Ascii.eqb a b); [|discriminate H].
      unfold no_digit in HL. simpl in HL. apply andb_prop in HL. destruct HL as [_ HL].
      apply (strip_literal_inside l0 L X r); [lia | exact HL | exact H].
    + simpl in H, Hs, Hlen. destruct (Ascii.eqb a c); [|discriminate H].
      simpl in Hs. apply (IH p); [lia | exact Hs | exact H].
Qed.

(** The search passes over a prefix that does not hold the literal. *)
Lemma search_after_label_free (lit pre d rest : string) (hi : nat) :
  no_digit lit -> lit <> "" -> contains pre lit = false -> all_digits d ->
  1 <= String.length d -> String.length d <= hi ->
  String.length d = hi \/ starts_with_digit rest = false ->
  Regex.search lit 1 hi (pre ++ lit ++ d ++ rest) = Some d.
Proof.
  intros Hlit Hne Hpre Hd Hlo Hhi Hend.
  induction pre as [|c pre IH].
  - simpl append. destruct (lit ++ d ++ rest) eqn:E; simpl;
      rewrite <- E, (match_at_label lit d rest 1 hi Hd Hlo Hhi Hend); reflexivity.
  - simpl in Hpre. apply orb_false_elim in Hpre. destruct Hpre as [Hs Hc].
    change (String c pre ++ lit ++ d ++ rest) with (String c (pre ++ lit ++ d ++ rest)).
    cbn [Regex.search].
    assert (Hnone : Regex.match_at lit 1 hi (String c (pre ++ lit ++ d ++ rest)) = None).
    { unfold Regex.match_at.
      destruct (Regex.strip_literal lit (String c (pre ++ lit ++ d ++ rest))) as [r|] eqn:E;
        [|reflexivity].
      assert (Hr : starts_with_digit r = false).
      { apply (strip_literal_straddle lit (String c pre) lit (d ++ rest) r Hlit);
          [simpl; destruct lit; [congruence | simpl; lia] | exact Hs | exact E]. }
      rewrite (take_digits_none hi r Hr). reflexivity. }
    rewrite Hnone. exact (IH Hc).
Qed.

(** X10.  Round trip through a labelled name: when no "edgar_data_"
    stands before the label, whatever else precedes it (a date, other
    digits), the identifier read back from
    [<prefix>edgar_data_<digits><rest>] is those digits zero-padded to
    ten, for one to ten digits that end where [rest] begins. *)
Theorem extract_cik_from_labelled_name (pre d rest : string) :
  contains pre "edgar_data_" = false -> all_digits d ->
  1 <= String.length d <= 10 ->
  String.length d = 10 \/ starts_with_digit rest = false ->
  _extract_cik_from_name (pre ++ "edgar_data_" ++ d ++ rest) = Some (zfill 10 d).
Proof.
  intros Hpre Hd [Hlo Hhi] Hend. unfold _extract_cik_from_name.
  assert (Hs : Regex.search "edgar_data_" 1 10 (pre ++ "edgar_data_" ++ d ++ rest) = Some d)
    by (apply search_after_label_free; auto; [reflexivity | discriminate]).
  rewrite Hs. reflexivity.
Qed.

Lemma extract_cik_from_labelled_name_witness :
  contains "20200331_" "edgar_data_" = false /\ all_digits "0012345" /\
  _extract_cik_from_name ("20200331_" ++ "edgar_data_" ++ "0012345" ++ "_10-K.txt")
  = Some "0000012345".
Proof.
  split; [reflexivity|]. split; [reflexivity|].
  apply (extract_cik_from_labelled_name "20200331_" "0012345" "_10-K.txt");
    [reflexivity | reflexivity | simpl; lia | right; reflexivity].
Defined.

(** X11.  Round trip through an unlabelled name: when the name has no
    "edgar_data_" and nothing numeric precedes it, a run of four to ten
    digits is read back zero-padded to ten. *)
Theorem extract_cik_from_bare_name (pre d rest : string) :
  contains (pre ++ d ++ rest) "edgar_data_" = false ->
  no_digit pre -> all_digits d ->
  4 <= String.length d <= 10 ->
  String.length d = 10 \/ starts_with_digit rest = false ->
  _extract_cik_from_name (pre ++ d ++ rest) = Some (zfill 10 d).
Proof.
  intros Hlab Hpre Hd [Hlo Hhi] Hend. unfold _extract_cik_from_name.
  rewrite (search_without_literal _ _ 1 10 Hlab).
  pose proof (search_after_no_digit "" pre d rest 4 10 eq_refl Hpre Hd) as H.
  simpl append in H. rewrite H; auto; lia.
Qed.

Lemma extract_cik_from_bare_name_witness :
  contains ("filing_" ++ "987654" ++ "_10-K.txt") "edgar_data_" = false /\
  _extract_cik_from_name ("filing_" ++ "987654" ++ "_10-K.txt") = Some "0000987654".
Proof.
  split; [reflexivity|].
  apply (extract_cik_from_bare_name "filing_" "987654" "_10-K.txt");
    [reflexivity | reflexivity | reflexivity | simpl; lia | right; reflexivity].
Defined.

(* ================================================================== *)
(** * A loaded identifier list as the filter of [_match] *)
(* ================================================================== *)

(** X12.  The loader and the filter compose: when a CSV row lists a filer
    (its first field has the same digits as the file's label, leading
    zeros apart), [_match] with the loaded set lets the labelled file
    through as far as the identifier goes, and decides by [_is_10k]
    alone. *)
Theorem loaded_filter_admits_listed_filer
  (rows : list Row) (field : string) (others : Row) (fp : Path) (pre d rest : string) :
  In (field :: others) rows ->
  str_filter is_digit field <> "" ->
  path_name fp = pre ++ "edgar_data_" ++ d ++ rest ->
  contains pre "edgar_data_" = false -> all_digits d ->
  1 <= String.length d <= 10 ->
  String.length d = 10 \/ starts_with_digit rest = false ->
  zfill 10 d = zfill 10 (str_filter is_digit field) ->
  _match (Some (CikFilter.load_cik_list (Some rows))) fp = _is_10k (path_name fp).
Proof.
  intros Hrow Hne Hname Hpre Hd [Hlo Hhi] Hend Hz.
  unfold _match, _extract_cik_from_name. rewrite Hname.
  assert (Hs : Regex.search "edgar_data_" 1 10 (pre ++ "edgar_data_" ++ d ++ rest) = Some d)
    by (apply search_after_label_free; auto; [reflexivity | discriminate]).
  rewrite Hs. clear Hs.
  assert (Hin : In (zfill 10 d) (CikFilter.load_cik_list (Some rows))).
  { unfold CikFilter.load_cik_list. apply filter_fold_In. right.
    exists field, others. auto. }
  apply set_mem_In in Hin. rewrite Hin. reflexivity.
Qed.

Lemma loaded_filter_admits_listed_filer_witness :
  In ["CIK 123"; "ACME"] [["cik"; "name"]; ["CIK 123"; "ACME"]] /\
  path_name "data/edgar_data_0000123_10-K.txt" = "" ++ "edgar_data_" ++ "0000123" ++ "_10-K.txt" /\
  zfill 10 "0000123" = zfill 10 (str_filter is_digit "CIK 123") /\
  _match (Some (CikFilter.load_cik_list (Some [["cik"; "name"]; ["CIK 123"; "ACME"]])))
         "data/edgar_data_0000123_10-K.txt" = true.
Proof.
  split; [right; left; reflexivity|]. split; [reflexivity|]. split; [reflexivity|].
  exact (loaded_filter_admits_listed_filer
           [["cik"; "name"]; ["CIK 123"; "ACME"]] "CIK 123" ["ACME"]
           "data/edgar_data_0000123_10-K.txt" "" "0000123" "_10-K.txt"
           (or_intror (or_introl eq_refl)) ltac:(discriminate) eq_refl eq_refl eq_refl
           ltac:(simpl; lia) (or_intror eq_refl) eq_refl).
Defined.

(* ================================================================== *)
(** * [process_zip_file]: counters and error entries *)
(* ================================================================== *)

Lemma zip_failure_entry_length (f : string) (o : Outcome) :
  List.length (zip_failure_entry f o) = if succeeded o then 0 else 1.
Proof. destruct o as [[|]|e]; reflexivity. Qed.

Lemma flat_map_entries_length (A B : Type) (entry : A -> list B) (ok : A -> bool)
  (l : list A) :
  (forall a, List.length (entry a) = if ok a then 0 else 1) ->
  List.length (flat_map entry l) = List.length (filter (fun a => negb (ok a)) l).
Proof.
  intros H. induction l as [|a l IH]; simpl; [reflexivity|].
  rewrite length_app, H, IH. destruct (ok a); reflexivity.
Qed.

Lemma filter_length_le (A : Type) (p : A -> bool) (l : list A) :
  List.length (filter p l) <= List.length l.
Proof. induction l as [|a l IH]; simpl; [lia|]. destruct (p a); simpl; lia. Qed.

Section ZipFileFacts.

Context (cfg : Settings) (w : World) {FM : FilingManager}.

Lemma zip_continue_without_filter (f : string) : zip_continue None f = false.
Proof. unfold zip_continue. destruct (_parse_filename_metadata f) as [[c y] ft]. reflexivity. Qed.

Lemma process_zip_file_summary (zip_path : Path) (cik_filter : option (list string)) :
  ZipStat.zip_file (process_zip_file cfg w zip_path cik_filter) = zip_path /\
  ZipStat.processed (process_zip_file cfg w zip_path cik_filter) +
  ZipStat.failed (process_zip_file cfg w zip_path cik_filter)
    <= ZipStat.total_files (process_zip_file cfg w zip_path cik_filter) /\
  (cik_filter = None ->
   ZipStat.processed (process_zip_file cfg w zip_path cik_filter) +
   ZipStat.failed (process_zip_file cfg w zip_path cik_filter)
     = ZipStat.total_files (process_zip_file cfg w zip_path cik_filter)) /\
  List.length (ZipStat.errors (process_zip_file cfg w zip_path cik_filter))
    = ZipStat.failed (process_zip_file cfg w zip_path cik_filter) +
      (if opens w zip_path then 0 else 1).
Proof.
  unfold process_zip_file, opens.
  destruct (open_zip w zip_path) as [msg|msg|file_list]; simpl;
    try (repeat split; lia).
  match goal with
  | |- context [fold_left (zip_step w ?z ?t ?c) ?l ?s] =>
      destruct (zip_loop_closed_form w z t c l s) as (Hz & Ht & Hp & Hf & He)
  end.
  simpl in Hz, Ht, Hp, Hf, He. rewrite Hz, Ht, Hp, Hf, He. clear Hz Ht Hp Hf He.
  split; [reflexivity|]. split; [|split].
  - rewrite filter_split_length.
    apply filter_length_le.
  - intros ->. rewrite filter_split_length.
    rewrite SelectionFacts.filter_all; [reflexivity|].
    intros f _. rewrite zip_continue_without_filter. reflexivity.
  - rewrite (flat_map_entries_length _ _ _
               (fun f => succeeded (zip_attempt w zip_path (temporary_directory w zip_path) f))).
    + lia.
    + intros f. apply zip_failure_entry_length.
Qed.

End ZipFileFacts.

(** X13.  Whatever the archive holds, the statistics of [process_zip_file]
    carry the archive's path, never count more processed and failed
    members than [total_files], count exactly [total_files] of them when
    no identifier filter is given, and hold one error entry per failed
    member plus one, and only one, when the archive could not be opened. *)
Theorem zip_statistics_are_consistent
  (cfg : Settings) (w : World) (FM : FilingManager)
  (zip_path : Path) (cik_filter : option (list string)) :
  ZipStat.zip_file (process_zip_file cfg w zip_path cik_filter) = zip_path /\
  ZipStat.processed (process_zip_file cfg w zip_path cik_filter) +
  ZipStat.failed (process_zip_file cfg w zip_path cik_filter)
    <= ZipStat.total_files (process_zip_file cfg w zip_path cik_filter) /\
  (cik_filter = None ->
   ZipStat.processed (process_zip_file cfg w zip_path cik_filter) +
   ZipStat.failed (process_zip_file cfg w zip_path cik_filter)
     = ZipStat.total_files (process_zip_file cfg w zip_path cik_filter)) /\
  List.length (ZipStat.errors (process_zip_file cfg w zip_path cik_filter))
    = ZipStat.failed (process_zip_file cfg w zip_path cik_filter) +
      (if opens w zip_path then 0 else 1).
Proof. apply process_zip_file_summary. Qed.

(** X14.  An archive that cannot be opened is reported and nothing else:
    all three counters are zero and the error list is the single entry
    that names the archive, with "Invalid ZIP file" for a bad archive and
    the message of the error otherwise. *)
Theorem unreadable_archive_statistics
  (cfg : Settings) (w : World) (FM : FilingManager)
  (zip_path : Path) (cik_filter : option (list string)) :
  opens w zip_path = false ->
  ZipStat.total_files (process_zip_file cfg w zip_path cik_filter) = 0 /\
  ZipStat.processed (process_zip_file cfg w zip_path cik_filter) = 0 /\
  ZipStat.failed (process_zip_file cfg w zip_path cik_filter) = 0 /\
  exists e,
    ZipStat.errors (process_zip_file cfg w zip_path cik_filter)
      = [{| ZipStat.file := zip_path; ZipStat.error := e |}] /\
    (forall msg, open_zip w zip_path = BadZipFile msg -> e = "Invalid ZIP file") /\
    (forall msg, open_zip w zip_path = OtherError msg -> e = msg).
Proof.
  unfold opens, process_zip_file.
  destruct (open_zip w zip_path) as [msg|msg|file_list]; [| |discriminate]; intros _; simpl.
  - split; [reflexivity|]. split; [reflexivity|]. split; [reflexivity|].
    exists "Invalid ZIP file". split; [reflexivity|].
    split; intros m H; [reflexivity | discriminate H].
  - split; [reflexivity|]. split; [reflexivity|]. split; [reflexivity|].
    exists msg. split; [reflexivity|].
    split; intros m H; [discriminate H | injection H as <-; reflexivity].
Qed.

Lemma unreadable_archive_statistics_witness :
  opens Run.world "data/bad.zip" = false /\
  ZipStat.total_files
    (process_zip_file (FM := Run.fm) Run.cfg Run.world "data/bad.zip" (Some ["0000000111"]))
    = 0 /\
  exists e,
    ZipStat.errors
      (process_zip_file (FM := Run.fm) Run.cfg Run.world "data/bad.zip" (Some ["0000000111"]))
      = [{| ZipStat.file := "data/bad.zip"; ZipStat.error := e |}].
Proof.
  split; [reflexivity|].
  destruct (unreadable_archive_statistics Run.cfg Run.world Run.fm "data/bad.zip"
              (Some ["0000000111"]) eq_refl) as (Ht & _ & _ & e & He & _).
  split; [exact Ht | exists e; exact He].
Defined.

(* ================================================================== *)
(** * [process_directory]: order and accounting *)
(* ================================================================== *)

Lemma string_leb_trans (a b c : string) :
  String.leb a b = true -> String.leb b c = true -> String.leb a c = true.
Proof.
  unfold String.leb. revert b c.
  induction a as [|x a IH]; intros [|y b] [|z c]; simpl; try reflexivity; try discriminate.
  unfold Ascii.compare.
  destruct (N.compare_spec (N_of_ascii x) (N_of_ascii y)) as [Exy|Lxy|Gxy];
    try discriminate;
    destruct (N.compare_spec (N_of_ascii y) (N_of_ascii z)) as [Eyz|Lyz|Gyz];
    try discriminate;
    destruct (N.compare_spec (N_of_ascii x) (N_of_ascii z)) as [Exz|Lxz|Gxz];
    try reflexivity; try lia.
  apply IH.
Qed.

Lemma insert_sorted_perm (x : string) (l : list string) :
  Permutation (insert_sorted x l) (x :: l).
Proof.
  induction l as [|y l IH]; simpl; [reflexivity|].
  destruct (String.leb x y); [reflexivity|].
  rewrite IH. apply perm_swap.
Qed.

Lemma sorted_perm (l : list string) : Permutation (sorted l) l.
Proof.
  induction l as [|x l IH]; simpl; [reflexivity|].
  rewrite insert_sorted_perm, IH. reflexivity.
Qed.

Lemma insert_sorted_strongly (x : string) (l : list string) :
  StronglySorted path_le l -> StronglySorted path_le (insert_sorted x l).
Proof.
  induction 1 as [|y l Hs IH Hall]; simpl.
  - repeat constructor.
  - destruct (String.leb x y) eqn:E.
    + constructor; [constructor; assumption|].
      constructor; [exact E|].
      rewrite Forall_forall in *. intros z Hz.
      exact (string_leb_trans x y z E (Hall z Hz)).
    + constructor; [exact IH|].
      assert (Hyx : path_le y x).
      { destruct (String.leb_total x y) as [H|H]; [congruence | exact H]. }
      rewrite Forall_forall in *. intros z Hz.
      apply (Permutation_in _ (insert_sorted_perm x l)) in Hz.
      destruct Hz as [<-|Hz]; [exact Hyx | exact (Hall z Hz)].
Qed.

Lemma sorted_strongly (l : list string) : StronglySorted path_le (sorted l).
Proof.
  induction l as [|x l IH]; simpl; [constructor | apply insert_sorted_strongly, IH].
Qed.

(** Two sorted lists with the same elements are the same list. *)
Lemma strongly_sorted_unique (l1 l2 : list string) :
  Permutation l1 l2 -> StronglySorted path_le l1 -> StronglySorted path_le l2 -> l1 = l2.
Proof.
  revert l2. induction l1 as [|a l1 IH]; intros l2 Hp H1 H2.
  - apply Permutation_nil in Hp. congruence.
  - destruct l2 as [|b l2]; [apply Permutation_sym, Permutation_nil in Hp; discriminate|].
    inversion H1 as [|? ? Hs1 Hall1]; subst. inversion H2 as [|? ? Hs2 Hall2]; subst.
    rewrite Forall_forall in Hall1, Hall2.
    assert (Hab : a = b).
    { assert (Ha : In a (b :: l2)) by (apply (Permutation_in _ Hp); left; reflexivity).
      assert (Hb : In b (a :: l1))
        by (apply (Permutation_in _ (Permutation_sym Hp)); left; reflexivity).
      destruct Ha as [->|Ha]; [reflexivity|]. destruct Hb as [->|Hb]; [reflexivity|].
      apply String.leb_antisym; [apply Hall1, Hb | apply Hall2, Ha]. }
    subst b. f_equal. apply IH; [exact (Permutation_cons_inv Hp) | assumption | assumption].
Qed.

Lemma sorted_of_permutation (l1 l2 : list string) :
  Permutation l1 l2 -> sorted l1 = sorted l2.
Proof.
  intros Hp. apply strongly_sorted_unique; try apply sorted_strongly.
  rewrite !sorted_perm. exact Hp.
Qed.

Lemma dedupe_of_permutation (l1 l2 : list string) :
  Permutation l1 l2 -> Permutation (dedupe l1) (dedupe l2).
Proof.
  intros Hp. apply NoDup_Permutation; try apply dedupe_NoDup.
  intros x. rewrite !dedupe_In. split; apply Permutation_in; [|apply Permutation_sym]; exact Hp.
Qed.

Lemma filter_of_permutation (A : Type) (p : A -> bool) (l1 l2 : list A) :
  Permutation l1 l2 -> Permutation (filter p l1) (filter p l2).
Proof.
  induction 1 as [|a l1 l2 Hp IH|a b l|l1 l2 l3 H12 IH12 H23 IH23]; simpl.
  - constructor.
  - destruct (p a); [constructor|]; exact IH.
  - destruct (p a), (p b); try reflexivity. apply perm_swap.
  - etransitivity; eassumption.
Qed.

Lemma flat_map_of_permutation (A B : Type) (f g : A -> list B) (l : list A) :
  (forall a, Permutation (f a) (g a)) -> Permutation (flat_map f l) (flat_map g l).
Proof.
  intros H. induction l as [|a l IH]; simpl; [constructor|].
  apply Permutation_app; [apply H | exact IH].
Qed.

Section DirectoryFacts.

Context (cfg : Settings) (w : World) {FM : FilingManager}.

Lemma directory_zip_stats (input_dir : Directory) (cik_filter : option (list string)) :
  Overall.zip_stats (process_directory cfg w input_dir cik_filter) =
  map (fun z => process_zip_file cfg w z cik_filter)
      (sorted (directory_zip_files cfg input_dir)).
Proof.
  unfold process_directory.
  match goal with
  | |- context [fold_left (directory_step cfg w ?c) ?l ?o] =>
      destruct (directory_loop_closed_form cfg w c l o) as (_ & Hs & _)
  end.
  exact Hs.
Qed.

Lemma directory_zip_file_names (input_dir : Directory) (cik_filter : option (list string)) :
  map ZipStat.zip_file (Overall.zip_stats (process_directory cfg w input_dir cik_filter))
  = sorted (directory_zip_files cfg input_dir).
Proof.
  rewrite directory_zip_stats, map_map.
  rewrite <- (map_id (sorted (directory_zip_files cfg input_dir))) at 2.
  apply map_ext. intros z. apply (process_zip_file_summary cfg w z cik_filter).
Qed.

Lemma directory_zip_files_permutation (d1 d2 : Directory) :
  dir_path d1 = dir_path d2 -> Permutation (dir_names d1) (dir_names d2) ->
  Permutation (directory_zip_files cfg d1) (directory_zip_files cfg d2).
Proof.
  intros Hpath Hnames. unfold directory_zip_files. apply dedupe_of_permutation.
  apply flat_map_of_permutation. intros ext. unfold glob. rewrite Hpath.
  apply Permutation_map, filter_of_permutation, Hnames.
Qed.

End DirectoryFacts.

(** X15.  [process_directory] reports the archives in ascending order of
    their paths, each archive once even when it matches several
    extensions, and exactly the entries of the directory that end in one
    of [ZIP_EXTENSIONS]. *)
Theorem directory_reports_archives_in_order
  (cfg : Settings) (w : World) (FM : FilingManager)
  (input_dir : Directory) (cik_filter : option (list string)) :
  StronglySorted path_le
    (map ZipStat.zip_file
       (Overall.zip_stats (process_directory cfg w input_dir cik_filter))) /\
  NoDup
    (map ZipStat.zip_file
       (Overall.zip_stats (process_directory cfg w input_dir cik_filter))) /\
  forall z,
    In z (map ZipStat.zip_file
            (Overall.zip_stats (process_directory cfg w input_dir cik_filter))) <->
    exists ext name,
      In ext (ZIP_EXTENSIONS cfg) /\ In name (dir_names input_dir) /\
      endswith name ext = true /\ z = path_join (dir_path input_dir) name.
Proof.
  rewrite directory_zip_file_names. split; [apply sorted_strongly|]. split.
  - apply (Permutation_NoDup (Permutation_sym (sorted_perm _))). apply dedupe_NoDup.
  - intros z. split.
    + intros Hz. apply (Permutation_in _ (sorted_perm _)) in Hz.
      unfold directory_zip_files in Hz. rewrite dedupe_In, in_flat_map in Hz.
      destruct Hz as (ext & Hext & Hz). unfold glob in Hz.
      rewrite in_map_iff in Hz. destruct Hz as (name & <- & Hn).
      apply filter_In in Hn. exists ext, name. tauto.
    + intros (ext & name & Hext & Hname & Hend & ->).
      apply (Permutation_in _ (Permutation_sym (sorted_perm _))).
      unfold directory_zip_files. rewrite dedupe_In, in_flat_map.
      exists ext. split; [exact Hext|]. unfold glob. apply in_map. apply filter_In. auto.
Qed.

(** X16.  The statistics of [process_directory] do not depend on the order
    in which the directory lists its entries. *)
Theorem directory_result_ignores_listing_order
  (cfg : Settings) (w : World) (FM : FilingManager)
  (d1 d2 : Directory) (cik_filter : option (list string)) :
  dir_path d1 = dir_path d2 ->
  Permutation (dir_names d1) (dir_names d2) ->
  process_directory cfg w d1 cik_filter = process_directory cfg w d2 cik_filter.
Proof.
  intros Hpath Hnames.
  pose proof (directory_zip_files_permutation cfg d1 d2 Hpath Hnames) as Hp.
  unfold process_directory.
  rewrite (sorted_of_permutation _ _ Hp), (Permutation_length Hp). reflexivity.
Qed.

Lemma directory_result_ignores_listing_order_witness :
  Permutation (dir_names Run.three_archives)
              ["edgar_data_333_10-K.txt"; "b.zip"; "bad.zip"; "a.zip"] /\
  process_directory (FM := Run.fm) Run.cfg Run.world Run.three_archives None
  = process_directory (FM := Run.fm) Run.cfg Run.world
      {| dir_path := "data";
         dir_names := ["edgar_data_333_10-K.txt"; "b.zip"; "bad.zip"; "a.zip"] |} None.
Proof.
  assert (Hp : Permutation (dir_names Run.three_archives)
                 ["edgar_data_333_10-K.txt"; "b.zip"; "bad.zip"; "a.zip"]).
  { simpl.
    apply (Permutation_trans (l' := ["a.zip"; "bad.zip"; "edgar_data_333_10-K.txt"; "b.zip"]));
      [do 2 constructor; apply perm_swap|].
    apply (Permutation_trans (l' := ["a.zip"; "edgar_data_333_10-K.txt"; "bad.zip"; "b.zip"]));
      [constructor; apply perm_swap|].
    apply (Permutation_trans (l' := ["edgar_data_333_10-K.txt"; "a.zip"; "bad.zip"; "b.zip"]));
      [apply perm_swap|].
    constructor.
    apply (Permutation_trans (l' := ["bad.zip"; "a.zip"; "b.zip"]));
      [apply perm_swap|].
    apply (Permutation_trans (l' := ["bad.zip"; "b.zip"; "a.zip"]));
      [constructor; apply perm_swap|].
    apply perm_swap. }
  split; [exact Hp|].
  exact (directory_result_ignores_listing_order Run.cfg Run.world Run.fm
           Run.three_archives
           {| dir_path := "data";
              dir_names := ["edgar_data_333_10-K.txt"; "b.zip"; "bad.zip"; "a.zip"] |}
           None eq_refl Hp).
Defined.

Section DirectoryAccounting.

Context (cfg : Settings) (w : World) {FM : FilingManager}.

Lemma archive_errors_sum (cik_filter : option (list string)) (zips : list Path) :
  list_sum (map (fun z => List.length (ZipStat.errors (process_zip_file cfg w z cik_filter)))
                zips)
  = list_sum (map (fun z => ZipStat.failed (process_zip_file cfg w z cik_filter)) zips) +
    List.length (filter (fun z => negb (opens w z)) zips).
Proof.
  induction zips as [|z zips IH]; simpl; [reflexivity|].
  destruct (process_zip_file_summary cfg w z cik_filter) as (_ & _ & _ & He).
  rewrite He, IH. destruct (opens w z); simpl; lia.
Qed.

Lemma archive_counters_sum (cik_filter : option (list string)) (zips : list Path) :
  list_sum (map (fun z => ZipStat.processed (process_zip_file cfg w z cik_filter)) zips) +
  list_sum (map (fun z => ZipStat.failed (process_zip_file cfg w z cik_filter)) zips)
    <= list_sum (map (fun z => ZipStat.total_files (process_zip_file cfg w z cik_filter)) zips)
  /\
  (cik_filter = None ->
   list_sum (map (fun z => ZipStat.processed (process_zip_file cfg w z cik_filter)) zips) +
   list_sum (map (fun z => ZipStat.failed (process_zip_file cfg w z cik_filter)) zips)
     = list_sum (map (fun z => ZipStat.total_files (process_zip_file cfg w z cik_filter)) zips)).
Proof.
  induction zips as [|z zips [IHle IHeq]]; simpl; [split; [lia | reflexivity]|].
  destruct (process_zip_file_summary cfg w z cik_filter) as (_ & Hle & Heq & _).
  split; [lia|]. intros E. specialize (Heq E). specialize (IHeq E). lia.
Qed.

End DirectoryAccounting.

(** X17.  In [process_directory] every failure is reported once: the error
    entries of all archives together number the failed files plus the
    archives that could not be opened.  The processed and failed totals
    never exceed [total_files], and reach it when no identifier filter is
    given. *)
Theorem directory_failures_are_accounted
  (cfg : Settings) (w : World) (FM : FilingManager)
  (input_dir : Directory) (cik_filter : option (list string)) :
  list_sum (map (fun s => List.length (ZipStat.errors s))
                (Overall.zip_stats (process_directory cfg w input_dir cik_filter)))
  = Overall.failed (process_directory cfg w input_dir cik_filter) +
    List.length (filter (fun z => negb (opens w z)) (directory_zip_files cfg input_dir)) /\
  Overall.processed (process_directory cfg w input_dir cik_filter) +
  Overall.failed (process_directory cfg w input_dir cik_filter)
    <= Overall.total_files (process_directory cfg w input_dir cik_filter) /\
  (cik_filter = None ->
   Overall.processed (process_directory cfg w input_dir cik_filter) +
   Overall.failed (process_directory cfg w input_dir cik_filter)
     = Overall.total_files (process_directory cfg w input_dir cik_filter)).
Proof.
  rewrite directory_zip_stats, map_map.
  unfold process_directory.
  match goal with
  | |- context [fold_left (directory_step cfg w ?c) ?l ?o] =>
      destruct (directory_loop_closed_form cfg w c l o) as (_ & _ & Ht & Hp & Hf)
  end.
  simpl in Ht, Hp, Hf. rewrite Ht, Hp, Hf. clear Ht Hp Hf.
  split.
  - rewrite archive_errors_sum. f_equal.
    apply Permutation_length, filter_of_permutation, sorted_perm.
  - apply archive_counters_sum.
Qed.

(* ================================================================== *)
(** * [process_mixed_directory]: what the statistics always satisfy *)
(* ================================================================== *)

Section MixedFacts.

Context (cfg : Settings) (w : World) {FM : FilingManager}.

(** The invariant of the statistics: the combined counters are the sums
    of the archive and loose-file counters, and there is one error entry
    per failure. *)
Lemma mixed_step_keeps_sums (resolver : option Path) (zip_text_files : list Path)
  (stats : Mixed.t) (fp : Path) :
  Mixed.processed (Mixed.combined stats)
    = Mixed.processed (Mixed.zip_results stats) + Mixed.processed (Mixed.text_results stats) /\
  Mixed.failed (Mixed.combined stats)
    = Mixed.failed (Mixed.zip_results stats) + Mixed.failed (Mixed.text_results stats) /\
  Mixed.total_files (Mixed.combined stats)
    = Mixed.total_files (Mixed.zip_results stats) +
      Mixed.total_files (Mixed.text_results stats) /\
  List.length (Mixed.errors stats) = Mixed.failed (Mixed.combined stats) ->
  let stats' := mixed_process_step w resolver zip_text_files stats fp in
  Mixed.processed (Mixed.combined stats')
    = Mixed.processed (Mixed.zip_results stats') + Mixed.processed (Mixed.text_results stats') /\
  Mixed.failed (Mixed.combined stats')
    = Mixed.failed (Mixed.zip_results stats') + Mixed.failed (Mixed.text_results stats') /\
  Mixed.total_files (Mixed.combined stats')
    = Mixed.total_files (Mixed.zip_results stats') +
      Mixed.total_files (Mixed.text_results stats') /\
  List.length (Mixed.errors stats') = Mixed.failed (Mixed.combined stats').
Proof.
  intros (Hp & Hf & Ht & He). unfold mixed_process_step.
  destruct (extract_from_file w fp resolver) as [[|]|e];
    destruct (set_mem fp zip_text_files); simpl;
    rewrite ?length_app; simpl; repeat split; lia.
Qed.

Lemma mixed_loop_keeps_sums (resolver : option Path) (zip_text_files fps : list Path)
  (stats : Mixed.t) :
  Mixed.processed (Mixed.combined stats)
    = Mixed.processed (Mixed.zip_results stats) + Mixed.processed (Mixed.text_results stats) /\
  Mixed.failed (Mixed.combined stats)
    = Mixed.failed (Mixed.zip_results stats) + Mixed.failed (Mixed.text_results stats) /\
  Mixed.total_files (Mixed.combined stats)
    = Mixed.total_files (Mixed.zip_results stats) +
      Mixed.total_files (Mixed.text_results stats) /\
  List.length (Mixed.errors stats) = Mixed.failed (Mixed.combined stats) ->
  let stats' := fold_left (mixed_process_step w resolver zip_text_files) fps stats in
  Mixed.processed (Mixed.combined stats')
    = Mixed.processed (Mixed.zip_results stats') + Mixed.processed (Mixed.text_results stats') /\
  Mixed.failed (Mixed.combined stats')
    = Mixed.failed (Mixed.zip_results stats') + Mixed.failed (Mixed.text_results stats') /\
  Mixed.total_files (Mixed.combined stats')
    = Mixed.total_files (Mixed.zip_results stats') +
      Mixed.total_files (Mixed.text_results stats') /\
  List.length (Mixed.errors stats') = Mixed.failed (Mixed.combined stats').
Proof.
  revert stats. induction fps as [|fp fps IH]; intros stats H; simpl; [exact H|].
  apply IH. apply mixed_step_keeps_sums. exact H.
Qed.

Lemma mixed_loop_keeps_totals (resolver : option Path) (zip_text_files fps : list Path)
  (stats : Mixed.t) :
  let stats' := fold_left (mixed_process_step w resolver zip_text_files) fps stats in
  Mixed.total_files (Mixed.combined stats') = Mixed.total_files (Mixed.combined stats) /\
  Mixed.total_files (Mixed.zip_results stats') = Mixed.total_files (Mixed.zip_results stats) /\
  Mixed.total_files (Mixed.text_results stats')
    = Mixed.total_files (Mixed.text_results stats).
Proof.
  revert stats. induction fps as [|fp fps IH]; intros stats; simpl; [auto|].
  specialize (IH (mixed_process_step w resolver zip_text_files stats fp)). simpl in IH.
  destruct IH as (-> & -> & ->). unfold mixed_process_step.
  destruct (extract_from_file w fp resolver) as [[|]|e];
    destruct (set_mem fp zip_text_files); simpl; auto.
Qed.

(** Under a filter, what reaches [add_filing]. *)
Lemma registration_under_filter (ciks : list string) (fp : Path)
  (cik : string) (year : Z) (form_type : string) :
  registration (Some ciks) fp = Some (cik, year, form_type) ->
  _parse_filename_metadata fp = (Some cik, Some year, Some form_type) /\
  In cik ciks /\ year <> 0%Z /\ startswith form_type "10-K" = true.
Proof.
  unfold registration. destruct (_parse_filename_metadata fp) as [[oc oy] oft].
  destruct (negb (cik_in oc ciks) ||
            (truthy_opt oft && negb (form_startswith oft "10-K"))) eqn:Hb; [discriminate|].
  apply orb_false_elim in Hb. destruct Hb as [Hci Hft]. apply negb_false_iff in Hci.
  destruct oc as [c|]; [|discriminate]. destruct oy as [y|]; [|discriminate].
  destruct oft as [ft|]; [|discriminate].
  destruct (truthy c && truthy_year (Some y) && truthy ft) eqn:Ht; [|discriminate].
  intros E. injection E as <- <- <-.
  apply andb_prop in Ht. destruct Ht as [Ht Hft']. apply andb_prop in Ht. destruct Ht as [Hc Hy].
  simpl in Hci, Hft, Hy. rewrite Hc in Hci. rewrite Hft' in Hft. simpl in Hci, Hft.
  apply negb_false_iff in Hft. apply negb_true_iff in Hy.
  split; [reflexivity|]. split; [apply set_mem_In; exact Hci|].
  split; [apply Z.eqb_neq; exact Hy | exact Hft].
Qed.

End MixedFacts.

(** X18.  In the statistics of [process_mixed_directory] the combined
    counters are always the sums of the archive and the loose-file
    counters, for [total_files], [processed] and [failed] alike, and the
    error list has exactly one entry per failed file. *)
Theorem mixed_statistics_add_up
  (cfg : Settings) (w : World) (FM : FilingManager)
  (input_dir : Directory) (resolve_references : bool) (cik_filter : option (list string)) :
  let stats := process_mixed_directory cfg w input_dir resolve_references cik_filter in
  Mixed.total_files (Mixed.combined stats)
    = Mixed.total_files (Mixed.zip_results stats) +
      Mixed.total_files (Mixed.text_results stats) /\
  Mixed.processed (Mixed.combined stats)
    = Mixed.processed (Mixed.zip_results stats) + Mixed.processed (Mixed.text_results stats) /\
  Mixed.failed (Mixed.combined stats)
    = Mixed.failed (Mixed.zip_results stats) + Mixed.failed (Mixed.text_results stats) /\
  List.length (Mixed.errors stats) = Mixed.failed (Mixed.combined stats).
Proof.
  cbv zeta. unfold process_mixed_directory, process_discovered.
  match goal with
  | |- context [fold_left count_skipped_step ?l ?s] =>
      destruct (count_skipped_closed_form l s) as (_ & Hz & Ht & Hc & He)
  end.
  rewrite Hz, Ht, Hc, He. clear Hz Ht Hc He.
  match goal with
  | |- context [fold_left (mixed_process_step w ?r ?z) ?l ?s] =>
      destruct (mixed_loop_keeps_sums w r z l s) as (Hp & Hf & Ht & He)
  end.
  - simpl. rewrite length_app. repeat split.
  - repeat split; assumption.
Qed.

(** X19.  With an identifier filter, [process_mixed_directory] hands to
    [add_filing] only files of listed filers that are annual reports: the
    parser's filer id is on the list, its form type starts with "10-K",
    its year is not zero, and the file name itself yields a listed filer
    id and passes [_is_10k]. *)
Theorem only_listed_annual_reports_are_registered
  (cfg : Settings) (w : World) (FM : FilingManager) (input_dir : Directory)
  (ciks : list string) (fp : Path) :
  In fp (registered_paths (Some ciks) (all_text_files_of cfg w input_dir (Some ciks))) ->
  (exists cik year form_type,
      _parse_filename_metadata fp = (Some cik, Some year, Some form_type) /\
      In cik ciks /\ year <> 0%Z /\ startswith form_type "10-K" = true) /\
  (exists cik, _extract_cik_from_name (path_name fp) = Some cik /\ In cik ciks) /\
  _is_10k (path_name fp) = true.
Proof.
  unfold registered_paths, all_text_files_of. rewrite filter_In, in_app_iff.
  rewrite !filter_and_dedupe_In. intros [Hin Hreg].
  destruct (registration (Some ciks) fp) as [[[cik year] ft]|] eqn:Hr; [|discriminate].
  split; [exists cik, year, ft; apply (registration_under_filter _ _ _ _ _ Hr)|].
  assert (Hm : _match (Some ciks) fp = true) by (destruct Hin as [[_ H]|[_ H]]; exact H).
  unfold _match in Hm.
  destruct (_extract_cik_from_name (path_name fp)) as [c|]; [|discriminate].
  apply andb_prop in Hm. destruct Hm as [Hc Hk].
  split; [exists c; split; [reflexivity | apply set_mem_In; exact Hc] | exact Hk].
Qed.

Lemma only_listed_annual_reports_are_registered_witness :
  registered_paths (FM := Run.fm) (Some ["0000000111"])
    (all_text_files_of Run.cfg Run.world Run.three_archives (Some ["0000000111"]))
    = ["/tmp/tmp/edgar_data_111_10-K.txt"] /\
  _is_10k (path_name "/tmp/tmp/edgar_data_111_10-K.txt") = true /\
  exists cik,
    _extract_cik_from_name (path_name "/tmp/tmp/edgar_data_111_10-K.txt") = Some cik /\
    In cik ["0000000111"].
Proof.
  split; [reflexivity|].
  destruct (only_listed_annual_reports_are_registered Run.cfg Run.world Run.fm
              Run.three_archives ["0000000111"] "/tmp/tmp/edgar_data_111_10-K.txt"
              (or_introl eq_refl)) as (_ & Hc & Hk).
  split; [exact Hk | exact Hc].
Defined.

(* ================================================================== *)
(** * Discovery in [process_mixed_directory] *)
(* ================================================================== *)

Section DiscoveryFacts.

Context (cfg : Settings) (w : World).

(** Where a collected path comes from. *)
Lemma discover_members_provenance (zip_path : Path) (members : list string)
  (acc : list Path) (made : nat) (fp : Path) :
  In fp (fst (fst (discover_members cfg w zip_path members acc made))) ->
  In fp acc \/
  exists member n,
    In member members /\ has_valid_extension cfg member = true /\
    zf_extract w zip_path member = None /\ fp = path_join (mkdtemp w n) member.
Proof.
  revert acc made. induction members as [|m members IH]; intros acc made; simpl.
  - auto.
  - destruct (has_valid_extension cfg m) eqn:Hv.
    + destruct (zf_extract w zip_path m) as [e|] eqn:Hx; simpl.
      * auto.
      * intros H. destruct (IH _ _ H) as [Hacc|(member & n & Hin & Hrest)].
        -- apply in_app_iff in Hacc. destruct Hacc as [Hacc|[<-|[]]]; [auto|].
           right. exists m, made. auto.
        -- right. exists member, n. auto.
    + intros H. destruct (IH _ _ H) as [Hacc|(member & n & Hin & Hrest)]; [auto|].
      right. exists member, n. auto.
Qed.

Lemma discover_zips_provenance (zips : list Path) (acc : list Path * nat) (fp : Path) :
  In fp (fst (fold_left (discover_zip cfg w) zips acc)) ->
  In fp (fst acc) \/
  exists zip_path namelist member n,
    In zip_path zips /\ open_zip w zip_path = Opened namelist /\
    In member namelist /\ has_valid_extension cfg member = true /\
    zf_extract w zip_path member = None /\ fp = path_join (mkdtemp w n) member.
Proof.
  revert acc. induction zips as [|z zips IH]; intros acc; simpl; [auto|].
  intros H. destruct (IH _ H) as [Hacc|(zp & nl & m & n & Hin & Hrest)].
  - unfold discover_zip in Hacc.
    destruct (open_zip w z) as [msg|msg|namelist] eqn:Ho; [auto | auto |].
    pose proof (discover_members_provenance z namelist (fst acc) (snd acc) fp) as Hp.
    destruct (discover_members cfg w z namelist (fst acc) (snd acc)) as [[found made'] flag].
    simpl in Hacc, Hp. destruct (Hp Hacc) as [Ha|(m & n & Hm & Hv & Hx & ->)]; [auto|].
    right. exists z, namelist, m, n. repeat split; auto.
  - right. exists zp, nl, m, n. tauto.
Qed.

(** After a member whose extraction raises, nothing of the archive is
    looked at. *)
Lemma discover_members_stop (zip_path : Path) (before after after' : list string)
  (member : string) (acc : list Path) (made : nat) :
  has_valid_extension cfg member = true ->
  zf_extract w zip_path member <> None ->
  discover_members cfg w zip_path (before ++ member :: after) acc made =
  discover_members cfg w zip_path (before ++ member :: after') acc made.
Proof.
  intros Hv Hx. revert acc made.
  induction before as [|m before IH]; intros acc made; simpl.
  - rewrite Hv. destruct (zf_extract w zip_path member); [reflexivity | congruence].
  - destruct (has_valid_extension cfg m); [|apply IH].
    destruct (zf_extract w zip_path m); [reflexivity | apply IH].
Qed.

End DiscoveryFacts.

(** What was collected is never dropped. *)
Lemma discover_members_keeps (cfg : Settings) (w : World) (zip_path : Path)
  (members : list string) (acc : list Path) (made : nat) :
  incl acc (fst (fst (discover_members cfg w zip_path members acc made))).
Proof.
  revert acc made. induction members as [|m members IH]; intros acc made; simpl.
  - apply incl_refl.
  - destruct (has_valid_extension cfg m); [|apply IH].
    destruct (zf_extract w zip_path m); simpl; [apply incl_refl|].
    intros x Hx. apply IH. apply in_or_app. left. exact Hx.
Qed.

Lemma discover_zip_keeps (cfg : Settings) (w : World) (acc : list Path * nat)
  (zip_path : Path) :
  incl (fst acc) (fst (discover_zip cfg w acc zip_path)).
Proof.
  unfold discover_zip. destruct (open_zip w zip_path) as [msg|msg|namelist];
    try apply incl_refl.
  pose proof (discover_members_keeps cfg w zip_path namelist (fst acc) (snd acc)) as H.
  destruct (discover_members cfg w zip_path namelist (fst acc) (snd acc)) as [[found made] b].
  exact H.
Qed.

Lemma discover_fold_keeps (cfg : Settings) (w : World) (order : list Path)
  (acc : list Path * nat) (x : Path) :
  In x (fst acc) -> In x (fst (fold_left (discover_zip cfg w) order acc)).
Proof.
  revert acc. induction order as [|z order IH]; intros acc Hx; [exact Hx|].
  cbn [fold_left]. apply IH. apply discover_zip_keeps. exact Hx.
Qed.

(** A member is collected when the recognised members up to it extract
    without raising. *)
Lemma discover_members_collects (cfg : Settings) (w : World) (zip_path : Path)
  (before after : list string) (member : string) (acc : list Path) (made : nat) :
  has_valid_extension cfg member = true ->
  (forall m, In m (before ++ [member]) -> has_valid_extension cfg m = true ->
             zf_extract w zip_path m = None) ->
  exists n,
    In (path_join (mkdtemp w n) member)
       (fst (fst (discover_members cfg w zip_path (before ++ member :: after) acc made))).
Proof.
  intros Hvalid. revert acc made.
  induction before as [|b before IH]; intros acc made Hall.
  - cbn [app discover_members]. rewrite Hvalid.
    rewrite (Hall member (or_introl eq_refl) Hvalid).
    exists made. apply discover_members_keeps. apply in_or_app. right. left. reflexivity.
  - cbn [app discover_members].
    assert (Hrest : forall m, In m (before ++ [member]) ->
                      has_valid_extension cfg m = true -> zf_extract w zip_path m = None).
    { intros m Hm. apply Hall. right. exact Hm. }
    destruct (has_valid_extension cfg b) eqn:Hb; [|apply IH; exact Hrest].
    rewrite (Hall b (or_introl eq_refl) Hb). apply IH. exact Hrest.
Qed.

Lemma discover_zip_collects (cfg : Settings) (w : World) (zip_path : Path)
  (before after : list string) (member : string) (acc : list Path * nat) :
  open_zip w zip_path = Opened (before ++ member :: after) ->
  has_valid_extension cfg member = true ->
  (forall m, In m (before ++ [member]) -> has_valid_extension cfg m = true ->
             zf_extract w zip_path m = None) ->
  exists n,
    In (path_join (mkdtemp w n) member) (fst (discover_zip cfg w acc zip_path)).
Proof.
  intros Hopen Hvalid Hall. unfold discover_zip. rewrite Hopen.
  destruct (discover_members_collects cfg w zip_path before after member
              (fst acc) (snd acc) Hvalid Hall) as (n & Hn).
  exists n.
  destruct (discover_members cfg w zip_path (before ++ member :: after) (fst acc) (snd acc))
    as [[found made] b].
  exact Hn.
Qed.

(** X20.  Every archive-sourced candidate of [process_mixed_directory]
    comes from an archive of the directory that opened, is a member with a
    recognised extension whose extraction succeeded, and lies in a scratch
    directory; every loose candidate is an entry of the directory with a
    recognised extension. *)
Theorem discovered_files_have_a_source
  (cfg : Settings) (w : World) (input_dir : Directory) :
  Forall
    (fun fp =>
       exists zip_path namelist member n,
         In zip_path (mixed_zip_paths input_dir) /\
         open_zip w zip_path = Opened namelist /\
         In member namelist /\ has_valid_extension cfg member = true /\
         zf_extract w zip_path member = None /\ fp = path_join (mkdtemp w n) member)
    (discover_zip_text_files cfg w input_dir) /\
  Forall
    (fun fp =>
       exists name,
         In name (dir_names input_dir) /\ has_valid_extension cfg name = true /\
         fp = path_join (dir_path input_dir) name)
    (discover_loose_files cfg input_dir).
Proof.
  split; apply Forall_forall; intros fp Hfp.
  - unfold discover_zip_text_files in Hfp.
    destruct (discover_zips_provenance cfg w _ _ fp Hfp) as [[]|H]. exact H.
  - unfold discover_loose_files, glob in Hfp. apply in_flat_map in Hfp.
    destruct Hfp as (ext & Hext & Hfp). apply in_map_iff in Hfp.
    destruct Hfp as (name & <- & Hn). apply filter_In in Hn. destruct Hn as [Hn He].
    exists name. split; [exact Hn|]. split; [|reflexivity].
    unfold has_valid_extension. apply existsb_exists. exists ext. auto.
Qed.

(** X21.  Discovery in the combined mode misses nothing that can be
    read, whatever else is in the directory and in whatever order the
    archives are walked ([order] stands for the iteration order of the
    set of line 178): every member with a recognised extension of an
    archive that opens is collected in some scratch directory, provided
    the recognised members up to it in that archive extract without
    raising.  Archives that cannot be opened, before or after it, take
    nothing away. *)
Theorem readable_archives_are_discovered
  (cfg : Settings) (w : World) (order : list Path) (zip_path : Path)
  (before after : list string) (member : string) :
  In zip_path order ->
  open_zip w zip_path = Opened (before ++ member :: after) ->
  has_valid_extension cfg member = true ->
  (forall m, In m (before ++ [member]) -> has_valid_extension cfg m = true ->
             zf_extract w zip_path m = None) ->
  exists n,
    In (path_join (mkdtemp w n) member)
       (fst (fold_left (discover_zip cfg w) order ([], 0))).
Proof.
  intros Hin Hopen Hvalid Hall.
  generalize (@nil Path, 0) as acc.
  induction order as [|z order IH]; intros acc; [destruct Hin|].
  cbn [fold_left]. destruct Hin as [->|Hin]; [|apply IH; exact Hin].
  destruct (discover_zip_collects cfg w zip_path before after member acc Hopen Hvalid Hall)
    as (n & Hn).
  exists n. apply discover_fold_keeps. exact Hn.
Qed.

Lemma readable_archives_are_discovered_witness :
  In "data/b.zip" ["data/b.zip"; "data/bad.zip"; "data/a.zip"] /\
  opens Run.world "data/bad.zip" = false /\
  exists n,
    In (path_join (mkdtemp Run.world n) "edgar_data_222_10-K.txt")
       (fst (fold_left (discover_zip Run.cfg Run.world)
                       ["data/b.zip"; "data/bad.zip"; "data/a.zip"] ([], 0))).
Proof.
  split; [left; reflexivity|]. split; [reflexivity|].
  apply (readable_archives_are_discovered Run.cfg Run.world
           ["data/b.zip"; "data/bad.zip"; "data/a.zip"] "data/b.zip"
           [] ["cover.pdf"] "edgar_data_222_10-K.txt").
  - left. reflexivity.
  - reflexivity.
  - reflexivity.
  - intros m [<-|[]] _. reflexivity.
Defined.

(** X22.  When the extraction of a member raises during discovery, the
    rest of that archive is abandoned: whatever follows the member in the
    archive has no influence on what is collected, while the members
    collected before it are kept. *)
Theorem failed_member_hides_the_rest
  (cfg : Settings) (w : World) (zip_path : Path)
  (before after after' : list string) (member : string) (acc : list Path) (made : nat) :
  has_valid_extension cfg member = true ->
  zf_extract w zip_path member <> None ->
  discover_members cfg w zip_path (before ++ member :: after) acc made =
  discover_members cfg w zip_path (before ++ member :: after') acc made /\
  incl acc (fst (fst (discover_members cfg w zip_path (before ++ member :: after) acc made))).
Proof.
  intros Hv Hx. split; [apply discover_members_stop; assumption|].
  clear Hv Hx. generalize (before ++ member :: after)%list as members.
  intros members. revert acc made.
  induction members as [|m members IH]; intros acc made; simpl.
  - apply incl_refl.
  - destruct (has_valid_extension cfg m); [|apply IH].
    destruct (zf_extract w zip_path m); simpl; [apply incl_refl|].
    intros x Hx. apply IH. apply in_or_app. left. exact Hx.
Qed.

Lemma failed_member_hides_the_rest_witness :
  zf_extract Run2.flaky_world "data/f.zip" "damaged.txt" <> None /\
  discover_members Run.cfg Run2.flaky_world "data/f.zip"
    (["edgar_data_1_10-K.txt"] ++ "damaged.txt" :: ["edgar_data_2_10-K.txt"]) [] 0
  = discover_members Run.cfg Run2.flaky_world "data/f.zip"
      (["edgar_data_1_10-K.txt"] ++ "damaged.txt" :: []) [] 0 /\
  discover_members Run.cfg Run2.flaky_world "data/f.zip"
    ["edgar_data_1_10-K.txt"; "damaged.txt"; "edgar_data_2_10-K.txt"] [] 0
  = (["/tmp/tmp/edgar_data_1_10-K.txt"], 2, true).
Proof.
  split; [discriminate|]. split; [|reflexivity].
  apply (failed_member_hides_the_rest Run.cfg Run2.flaky_world "data/f.zip"
           ["edgar_data_1_10-K.txt"] ["edgar_data_2_10-K.txt"] [] "damaged.txt" [] 0);
    [reflexivity | discriminate].
Defined.

(* ================================================================== *)
(** * The two identifier filters, and the empty identifier set *)
(* ================================================================== *)

(** An extracted filer id is never the empty string. *)
Lemma extracted_cik_truthy (filename cik : string) :
  _extract_cik_from_name filename = Some cik -> truthy cik = true.
Proof.
  unfold _extract_cik_from_name.
  pose proof (search_spec "edgar_data_" 1 10 filename ltac:(lia)) as Hlab.
  pose proof (search_spec "" 4 10 filename ltac:(lia)) as Hbare.
  assert (Hlen : forall lit lo g, CikSpec.first_found lit lo 10 filename g ->
            truthy (zfill 10 g) = true).
  { intros lit lo g (pre & (post & _ & Hd & Hl & _) & _).
    destruct (zfill_digits_length g Hd ltac:(lia)) as [[_ Hlen] _].
    destruct (zfill 10 g); [discriminate Hlen | reflexivity]. }
  destruct (Regex.search "edgar_data_" 1 10 filename) as [g|].
  - intros E. injection E as <-. exact (Hlen _ _ _ Hlab).
  - destruct (Regex.search "" 4 10 filename) as [g|]; [|discriminate].
    intros E. injection E as <-. exact (Hlen _ _ _ Hbare).
Qed.

Lemma filter_ext_on (A : Type) (p q : A -> bool) (l : list A) :
  (forall a, In a l -> p a = q a) -> filter p l = filter q l.
Proof.
  induction l as [|a l IH]; simpl; intros H; [reflexivity|].
  rewrite (H a (or_introl eq_refl)), IH; [reflexivity|]. intros b Hb. apply H. right. exact Hb.
Qed.

(** X23.  On members that have no directory part, the filter of the
    archive mode and [_match] of the combined mode decide alike, whatever
    scratch directory the member is unpacked to. *)
Theorem archive_and_combined_filters_agree
  (ciks : list string) (tmp : Path) (members : list string) :
  Forall (fun m => contains m "/" = false) members ->
  zip_name_filter (Some ciks) members
  = filter (fun m => _match (Some ciks) (path_join tmp m)) members.
Proof.
  intros Hflat. rewrite Forall_forall in Hflat. unfold zip_name_filter.
  apply filter_ext_on. intros m Hm. unfold _match.
  rewrite (path_name_join tmp m (Hflat m Hm)). unfold cik_in.
  destruct (_extract_cik_from_name m) as [c|] eqn:E; [|reflexivity].
  rewrite (extracted_cik_truthy m c E). reflexivity.
Qed.

Lemma archive_and_combined_filters_agree_witness :
  Forall (fun m => contains m "/" = false)
         ["edgar_data_111_10-K.txt"; "edgar_data_222_10-K.txt"; "edgar_data_111_10-Q.txt"] /\
  zip_name_filter (Some ["0000000111"])
    ["edgar_data_111_10-K.txt"; "edgar_data_222_10-K.txt"; "edgar_data_111_10-Q.txt"]
  = filter (fun m => _match (Some ["0000000111"]) (path_join "/tmp/tmp" m))
      ["edgar_data_111_10-K.txt"; "edgar_data_222_10-K.txt"; "edgar_data_111_10-Q.txt"] /\
  zip_name_filter (Some ["0000000111"])
    ["edgar_data_111_10-K.txt"; "edgar_data_222_10-K.txt"; "edgar_data_111_10-Q.txt"]
  = ["edgar_data_111_10-K.txt"].
Proof.
  assert (H : Forall (fun m => contains m "/" = false)
                ["edgar_data_111_10-K.txt"; "edgar_data_222_10-K.txt";
                 "edgar_data_111_10-Q.txt"])
    by (repeat constructor).
  split; [exact H|]. split; [|reflexivity].
  exact (archive_and_combined_filters_agree ["0000000111"] "/tmp/tmp" _ H).
Defined.

(** With a directory part the two filters can part: the archive mode
    reads the filer id off the whole member name, the combined mode off
    the file name only. *)
Example filters_differ_on_nested_member :
  zip_name_filter (Some ["0000000111"]) ["0000111/10-K.txt"] = ["0000111/10-K.txt"] /\
  _match (Some ["0000000111"]) (path_join "/tmp/tmp" "0000111/10-K.txt") = false.
Proof. split; reflexivity. Qed.

Lemma list_sum_zero (A : Type) (f : A -> nat) (l : list A) :
  (forall a, f a = 0) -> list_sum (map f l) = 0.
Proof. intros H. induction l as [|a l IH]; simpl; [reflexivity|]. rewrite H, IH. reflexivity. Qed.

Section EmptyFilter.

Context (cfg : Settings) (w : World) {FM : FilingManager}.

Lemma zip_name_filter_empty (l : list string) : zip_name_filter (Some []) l = [].
Proof.
  unfold zip_name_filter. apply SelectionFacts.filter_none. intros f _.
  unfold cik_in. destruct (_extract_cik_from_name f); [|reflexivity].
  simpl. rewrite andb_false_r. reflexivity.
Qed.

Lemma process_zip_file_empty_filter (zip_path : Path) :
  ZipStat.total_files (process_zip_file cfg w zip_path (Some [])) = 0 /\
  ZipStat.processed (process_zip_file cfg w zip_path (Some [])) = 0 /\
  ZipStat.failed (process_zip_file cfg w zip_path (Some [])) = 0.
Proof.
  unfold process_zip_file.
  destruct (open_zip w zip_path); [simpl; auto | simpl; auto |].
  rewrite zip_name_filter_empty. simpl. auto.
Qed.

Lemma match_empty (fp : Path) : _match (Some []) fp = false.
Proof. unfold _match. destruct (_extract_cik_from_name (path_name fp)); reflexivity. Qed.

Lemma filter_and_dedupe_empty (l : list Path) : filter_and_dedupe (Some []) l = [].
Proof.
  unfold filter_and_dedupe. rewrite SelectionFacts.filter_none; [reflexivity|].
  intros fp _. apply match_empty.
Qed.

Lemma registration_empty (fp : Path) : registration (Some []) fp = None.
Proof.
  unfold registration. destruct (_parse_filename_metadata fp) as [[cik year] ft].
  assert (E : cik_in cik [] = false).
  { unfold cik_in. destruct cik; [simpl; apply andb_false_r | reflexivity]. }
  rewrite E. reflexivity.
Qed.

End EmptyFilter.

(** X24.  An empty identifier set is a filter, not the absence of one: it
    lets nothing through.  [process_zip_file] and [process_directory]
    count no file, processed or failed; in the combined mode no candidate
    survives discovery, every [total_files] is zero and nothing is ever
    registered with the filing manager. *)
Theorem empty_filter_lets_nothing_through
  (cfg : Settings) (w : World) (FM : FilingManager)
  (zip_path : Path) (input_dir : Directory) (resolve_references : bool) :
  (ZipStat.total_files (process_zip_file cfg w zip_path (Some [])) = 0 /\
   ZipStat.processed (process_zip_file cfg w zip_path (Some [])) = 0 /\
   ZipStat.failed (process_zip_file cfg w zip_path (Some [])) = 0) /\
  (Overall.total_files (process_directory cfg w input_dir (Some [])) = 0 /\
   Overall.processed (process_directory cfg w input_dir (Some [])) = 0 /\
   Overall.failed (process_directory cfg w input_dir (Some [])) = 0) /\
  all_text_files_of cfg w input_dir (Some []) = [] /\
  (Mixed.total_files
     (Mixed.combined (process_mixed_directory cfg w input_dir resolve_references (Some [])))
     = 0 /\
   Mixed.total_files
     (Mixed.zip_results (process_mixed_directory cfg w input_dir resolve_references (Some [])))
     = 0 /\
   Mixed.total_files
     (Mixed.text_results (process_mixed_directory cfg w input_dir resolve_references (Some [])))
     = 0) /\
  (forall files, register_all (Some []) files = fm_new).
Proof.
  split; [apply process_zip_file_empty_filter|]. split.
  { unfold process_directory.
    match goal with
    | |- context [fold_left (directory_step cfg w ?c) ?l ?o] =>
        destruct (directory_loop_closed_form cfg w c l o) as (_ & _ & Ht & Hp & Hf)
    end.
    simpl in Ht, Hp, Hf. rewrite Ht, Hp, Hf.
    repeat split; apply list_sum_zero; intros z;
      apply (process_zip_file_empty_filter cfg w z). }
  split.
  { unfold all_text_files_of. rewrite !filter_and_dedupe_empty. reflexivity. }
  split.
  { unfold process_mixed_directory, process_discovered.
    match goal with
    | |- context [fold_left count_skipped_step ?l ?s] =>
        destruct (count_skipped_closed_form l s) as (_ & Hz & Ht & Hc & _)
    end.
    rewrite Hz, Ht, Hc. clear Hz Ht Hc.
    match goal with
    | |- context [fold_left (mixed_process_step w ?r ?z) ?l ?s] =>
        destruct (mixed_loop_keeps_totals w r z l s) as (Hc & Hz & Ht)
    end.
    rewrite Hc, Hz, Ht. simpl. rewrite !filter_and_dedupe_empty. auto. }
  intros files. unfold register_all. generalize fm_new as fm.
  induction files as [|fp files IH]; intros fm; simpl; [reflexivity|].
  unfold register_step at 2. rewrite registration_empty. apply IH.
Qed.

(** No filter and the empty filter, on the same directory. *)
Example no_filter_and_empty_filter :
  Mixed.total_files
    (Mixed.combined
       (process_mixed_directory (FM := Run.fm) Run.cfg Run.world Run.three_archives true None))
  = 3 /\
  Mixed.total_files
    (Mixed.combined
       (process_mixed_directory (FM := Run.fm) Run.cfg Run.world Run.three_archives true
          (Some [])))
  = 0.
Proof. split; reflexivity. Qed.

(* ================================================================== *)
(** * Leading zeros *)
(* ================================================================== *)

Lemma zeros_append (a b : nat) : zeros a ++ zeros b = zeros (a + b).
Proof. induction a as [|a IH]; simpl; congruence. Qed.

Lemma zfill_leading_zeros (n : nat) (d : string) :
  all_digits d -> n + String.length d <= 10 ->
  zfill 10 (zeros n ++ d) = zfill 10 d.
Proof.
  intros Hd Hl.
  assert (Hzd : all_digits (zeros n ++ d))
    by (unfold all_digits; rewrite forallb_append, (zeros_digits n); exact Hd).
  rewrite (zfill_digits 10 _ Hzd), (zfill_digits 10 _ Hd).
  rewrite length_append, zeros_length, <- append_assoc3, zeros_append.
  f_equal. f_equal. lia.
Qed.

(** X25.  Leading zeros in the label make no difference: a labelled name
    and the same name with zeros put in front of the digits yield the same
    filer id, as long as the digits still number ten at most. *)
Theorem label_leading_zeros_are_ignored (pre d rest : string) (n : nat) :
  contains pre "edgar_data_" = false -> all_digits d ->
  1 <= String.length d -> n + String.length d <= 10 ->
  starts_with_digit rest = false ->
  _extract_cik_from_name (pre ++ "edgar_data_" ++ (zeros n ++ d) ++ rest) =
  _extract_cik_from_name (pre ++ "edgar_data_" ++ d ++ rest).
Proof.
  intros Hpre Hd Hlo Hhi Hrest. unfold _extract_cik_from_name.
  assert (Hzd : all_digits (zeros n ++ d))
    by (unfold all_digits; rewrite forallb_append, (zeros_digits n); exact Hd).
  assert (H1 : Regex.search "edgar_data_" 1 10
                 (pre ++ "edgar_data_" ++ (zeros n ++ d) ++ rest) = Some (zeros n ++ d)).
  { apply search_after_label_free; auto; try reflexivity; try discriminate;
      rewrite length_append, zeros_length; lia. }
  assert (H2 : Regex.search "edgar_data_" 1 10 (pre ++ "edgar_data_" ++ d ++ rest) = Some d).
  { apply search_after_label_free; auto; try reflexivity; try discriminate; lia. }
  rewrite H1, H2, (zfill_leading_zeros n d Hd Hhi). reflexivity.
Qed.

Lemma label_leading_zeros_are_ignored_witness :
  contains "" "edgar_data_" = false /\
  _extract_cik_from_name ("" ++ "edgar_data_" ++ (zeros 4 ++ "123") ++ "_10-K.txt")
  = _extract_cik_from_name ("" ++ "edgar_data_" ++ "123" ++ "_10-K.txt") /\
  _extract_cik_from_name "edgar_data_0000123_10-K.txt" = Some "0000000123".
Proof.
  split; [reflexivity|]. split; [|reflexivity].
  apply (label_leading_zeros_are_ignored "" "123" "_10-K.txt" 4);
    [reflexivity | reflexivity | simpl; lia | simpl; lia | reflexivity].
Defined.

Lemma filter_digits_append (a b : string) :
  str_filter is_digit (a ++ b) = str_filter is_digit a ++ str_filter is_digit b.
Proof.
  induction a as [|c a IH]; simpl; [reflexivity|].
  destruct (is_digit c); simpl; congruence.
Qed.

Lemma filter_single_row (field : string) :
  str_filter is_digit field <> "" ->
  CikFilter.load_cik_list (Some [[field]]) = [zfill 10 (str_filter is_digit field)].
Proof.
  intros Hne. unfold CikFilter.load_cik_list. simpl.
  pose proof (digits_strip field) as Hd.
  destruct (truthy (strip field)) eqn:Ht.
  - rewrite Hd. destruct (truthy (str_filter is_digit field)) eqn:Htd; [reflexivity|].
    apply truthy_false in Htd. contradiction.
  - apply truthy_false in Ht. rewrite Ht in Hd. simpl in Hd. symmetry in Hd. contradiction.
Qed.

(** X26.  The same holds for [cik_filter.load_cik_list]: a first field and
    the same field with zeros in front load to the same identifier, as
    long as its digits still number ten at most. *)
Theorem loaded_leading_zeros_are_ignored (field : string) (n : nat) :
  str_filter is_digit field <> "" ->
  n + String.length (str_filter is_digit field) <= 10 ->
  CikFilter.load_cik_list (Some [[zeros n ++ field]]) =
  CikFilter.load_cik_list (Some [[field]]).
Proof.
  intros Hne Hl.
  assert (Hz : str_filter is_digit (zeros n ++ field) = zeros n ++ str_filter is_digit field).
  { rewrite filter_digits_append, (filter_digits_id _ (zeros_digits n)). reflexivity. }
  rewrite (filter_single_row field Hne), filter_single_row.
  - rewrite Hz, (zfill_leading_zeros n _ (filter_digits_all field) Hl). reflexivity.
  - rewrite Hz. intros E. apply Hne.
    destruct (zeros n); [exact E | discriminate E].
Qed.

Lemma loaded_leading_zeros_are_ignored_witness :
  str_filter is_digit "123456" <> "" /\
  CikFilter.load_cik_list (Some [[zeros 4 ++ "123456"]])
  = CikFilter.load_cik_list (Some [["123456"]]) /\
  CikFilter.load_cik_list (Some [["0000123456"]]) = ["0000123456"].
Proof.
  split; [discriminate|]. split; [|reflexivity].
  apply (loaded_leading_zeros_are_ignored "123456" 4); [discriminate | simpl; lia].
Defined.

(** The repository's own test of directory loading
    ([tests/test_cik_filtering.py]), on the embedding. *)
Example test_load_ciks_from_directory :
  CikFilter.load_ciks_from_directory (Some [[["123456"]]; [["987654"; "XYZ"]]])
  = ["0000123456"; "0000987654"].
Proof. reflexivity. Qed.
